(** * servicesim_competition: checkpoints, competition plugin, follow-actor plugin

    A shallow embedding of
      - [Checkpoint.hh], [Checkpoint.cc]        (Checkpoint, ContainCheckpoint)
      - [CompetitionPlugin.cc]                  (task start, world-update handler)
      - [FollowActorPlugin.cc]                  (world-update handler, pick-up / drop-off)
      - [CreateActorPlugin.cc]                  (the actor-creation wizard)

    Conventions.
      - A C++ [double] is modelled by the real number it denotes ([R]); a
        comparison of doubles becomes a boolean test on reals.  Rounding,
        infinities and NaN are outside the model.
      - [gazebo::common::Time] is modelled by the number of seconds it denotes;
        [Time::Zero] is [0] and [Double()] is the identity.
      - [uint8_t] is modelled by [Z] with the wrap-around modulo 256 written out.
      - Indexing a [std::vector] out of range is undefined behaviour; handlers
        that index return [option], [None] standing for that outcome.
      - Console output ([gzmsg], [gzwarn], [gzerr]) is not modelled. *)

From Stdlib Require Import Reals Lra Lia ZArith List String Bool.
From Stdlib Require DecimalString DecimalZ.
Import ListNotations.

Open Scope R_scope.

(** ** Doubles and simulation time *)

Definition Rleb (a b : R) : bool := if Rle_dec a b then true else false.
Definition Rltb (a b : R) : bool := if Rlt_dec a b then true else false.
Definition Rgtb (a b : R) : bool := Rltb b a.
Definition Rgeb (a b : R) : bool := Rleb b a.
Definition Reqb (a b : R) : bool := if Req_dec_T a b then true else false.

Definition Time := R.

Module TimeOps.
Definition Zero : Time := 0.
Definition eqb (a b : Time) : bool := Reqb a b.
Definition sub (a b : Time) : Time := a - b.
Definition Double (a : Time) : R := a.
End TimeOps.

(** ** ignition::transport::Node, as far as the checkpoints use it *)

Inductive NodeCall : Type :=
| Subscribe (topic : string)
| Unsubscribe (topic : string)
| Request (topic : string) (data : bool).

(** [SubscribedTopics] is the set of topics currently subscribed; [calls] is
    the history of calls made on the node, oldest first. *)
Record Node : Type := mkNode {
  SubscribedTopics : list string;
  calls : list NodeCall
}.

Definition topic_in (t : string) (l : list string) : bool :=
  existsb (String.eqb t) l.

Definition Node_Subscribe (topic : string) (n : Node) : Node :=
  {| SubscribedTopics :=
       if topic_in topic (SubscribedTopics n) then SubscribedTopics n
       else SubscribedTopics n ++ [topic];
     calls := calls n ++ [Subscribe topic] |}.

Definition Node_Unsubscribe (topic : string) (n : Node) : Node :=
  {| SubscribedTopics :=
       filter (fun t => negb (String.eqb topic t)) (SubscribedTopics n);
     calls := calls n ++ [Unsubscribe topic] |}.

Definition Node_Request (topic : string) (data : bool) (n : Node) : Node :=
  {| SubscribedTopics := SubscribedTopics n;
     calls := calls n ++ [Request topic data] |}.

(** ** Checkpoint.hh / Checkpoint.cc *)

Section CheckpointBase.

(** The members a derived class adds to [Checkpoint]. *)
Variable Derived : Type.

Record Checkpoint : Type := mkCheckpoint {
  number : nat;
  done : bool;
  startTime : Time;
  endTime : Time;
  weight : R;
  derived : Derived
}.

(** [Checkpoint::Checkpoint]: [weight] is read from the SDF element, the
    other members keep their default values. *)
Definition Checkpoint_new (sdf_weight : R) (_number : nat) (d : Derived)
  : Checkpoint :=
  {| number := _number; done := false;
     startTime := TimeOps.Zero; endTime := TimeOps.Zero;
     weight := sdf_weight; derived := d |}.

(** [Checkpoint::Score]; [now] is [get_world()->SimTime()]. *)
Definition Score (now : Time) (cp : Checkpoint) : R :=
  let e := endTime cp in
  let e := if TimeOps.eqb e TimeOps.Zero then now else e in
  let elapsedSeconds := TimeOps.Double (TimeOps.sub e (startTime cp)) in
  elapsedSeconds * weight cp.

(** [Checkpoint::Start]. *)
Definition Start (now : Time) (cp : Checkpoint) : Checkpoint :=
  {| number := number cp; done := done cp;
     startTime := now; endTime := endTime cp;
     weight := weight cp; derived := derived cp |}.

Definition set_derived (d : Derived) (cp : Checkpoint) : Checkpoint :=
  {| number := number cp; done := done cp;
     startTime := startTime cp; endTime := endTime cp;
     weight := weight cp; derived := d |}.

End CheckpointBase.

Arguments mkCheckpoint {Derived}.
Arguments number {Derived}.
Arguments done {Derived}.
Arguments startTime {Derived}.
Arguments endTime {Derived}.
Arguments weight {Derived}.
Arguments derived {Derived}.
Arguments Checkpoint_new {Derived}.
Arguments Score {Derived}.
Arguments Start {Derived}.
Arguments set_derived {Derived}.

(** *** ContainCheckpoint

    [containDone] is used by [Checkpoint.cc] without a declaration in
    [Checkpoint.hh]; like [enabled] and [done] it starts false. *)

Record ContainMembers : Type := mkContain {
  ignNode : Node;
  ns : string;
  enabled : bool;
  containDone : bool
}.

Definition ContainCheckpoint : Type := Checkpoint ContainMembers.

(** [ContainCheckpoint::ContainCheckpoint]: a missing <namespace> leaves [ns]
    empty. *)
Definition ContainCheckpoint_new (sdf_weight : R) (sdf_namespace : option string)
    (_number : nat) : ContainCheckpoint :=
  Checkpoint_new sdf_weight _number
    {| ignNode := {| SubscribedTopics := []; calls := [] |};
       ns := match sdf_namespace with Some s => s | None => EmptyString end;
       enabled := false;
       containDone := false |}.

Definition with_node (n : Node) (m : ContainMembers) : ContainMembers :=
  {| ignNode := n; ns := ns m; enabled := enabled m;
     containDone := containDone m |}.

(** The loop [for (sub : SubscribedTopics()) Unsubscribe(sub)]. *)
Definition unsubscribe_all (n : Node) : Node :=
  fold_left (fun acc sub => Node_Unsubscribe sub acc) (SubscribedTopics n) n.

(** [ContainCheckpoint::Check].  The two requests are asynchronous: their
    callback [cb] runs later, see [EnableCallback]. *)
Definition ContainCheckpoint_Check (cp : ContainCheckpoint)
    : bool * ContainCheckpoint :=
  let m := derived cp in
  let m :=
    if negb (enabled m) && negb (containDone m) then
      let n := Node_Subscribe (ns m ++ "/contain") (ignNode m) in
      let n := Node_Request (ns m ++ "/enable") true n in
      with_node n m
    else m in
  let m :=
    if enabled m && containDone m then
      let n := unsubscribe_all (ignNode m) in
      let n := Node_Request (ns m ++ "/enable") false n in
      with_node n m
    else m in
  (containDone m, set_derived m cp).

(** [ContainCheckpoint::OnContain]. *)
Definition OnContain (_msg : bool) (cp : ContainCheckpoint) : ContainCheckpoint :=
  let m := derived cp in
  set_derived {| ignNode := ignNode m; ns := ns m; enabled := enabled m;
                 containDone := _msg |} cp.

(** The lambda [cb] of [ContainCheckpoint::Check], run when a reply to an
    enable request arrives. *)
Definition EnableCallback (_result : bool) (cp : ContainCheckpoint)
    : ContainCheckpoint :=
  let m := derived cp in
  if _result then
    set_derived {| ignNode := ignNode m; ns := ns m;
                   enabled := negb (enabled m);
                   containDone := containDone m |} cp
  else cp.

(** *** Runs of a contain checkpoint

    What can happen to a contain checkpoint: the competition plugin calls
    [Check], the zone publishes on the contain topic, or the reply to an
    enable request arrives. *)
Inductive ContainEvent : Type :=
| CallCheck
| Contain (_msg : bool)
| Reply (_result : bool).

Definition contain_step (cp : ContainCheckpoint) (e : ContainEvent)
    : ContainCheckpoint :=
  match e with
  | CallCheck => snd (ContainCheckpoint_Check cp)
  | Contain _msg => OnContain _msg cp
  | Reply _result => EnableCallback _result cp
  end.

Definition contain_run (tr : list ContainEvent) (cp : ContainCheckpoint)
    : ContainCheckpoint :=
  fold_left contain_step tr cp.

(** The payload of the last contain message of a run, [init] when there is
    none. *)
Fixpoint last_contain (tr : list ContainEvent) (init : bool) : bool :=
  match tr with
  | [] => init
  | Contain _msg :: tr' => last_contain tr' _msg
  | _ :: tr' => last_contain tr' init
  end.


Definition node_calls (cp : ContainCheckpoint) : list NodeCall :=
  calls (ignNode (derived cp)).

(** ** std::vector indexed by a signed integer *)

Definition vec_at {A : Type} (v : list A) (i : Z) : option A :=
  if (i <? 0)%Z then None else nth_error v (Z.to_nat i).

Fixpoint list_set {A : Type} (v : list A) (n : nat) (x : A) : list A :=
  match v, n with
  | [], _ => []
  | _ :: t, O => x :: t
  | h :: t, S n' => h :: list_set t n' x
  end.

Definition vec_set {A : Type} (v : list A) (i : Z) (x : A) : list A :=
  if (i <? 0)%Z then v else list_set v (Z.to_nat i) x.

(** [uint8_t] arithmetic. *)
Definition wrap8 (z : Z) : Z := (z mod 256)%Z.

(** ** CompetitionPlugin.cc *)

Record UpdateInfo : Type := mkUpdateInfo { simTime : Time }.

Module CompetitionPlugin.

(** servicesim_competition::Score *)
Record ScoreMsg : Type := mkScoreMsg {
  msg_checkpoints : list R;
  msg_score : R
}.

(** servicesim_competition::NewTask::Response *)
Record NewTaskResponse : Type := mkNewTaskResponse {
  pick_up_location : string
}.

Section Plugin.

(** The dynamic type of the checkpoints and its override of the pure
    virtual [Checkpoint::Check]. *)
Variable Derived : Type.
Variable Check : Checkpoint Derived -> bool * Checkpoint Derived.

(** [lastScorePubTime] is the function-local static of [OnUpdate]; it is
    [None] until control first passes through its declaration. *)
Record CompetitionPluginPrivate : Type := mkPrivate {
  pickUpLocation : string;
  checkpoints : list (Checkpoint Derived);
  current : Z;
  scoreFreq : R;
  lastScorePubTime : option Time
}.

Definition set_current (c : Z) (d : CompetitionPluginPrivate) :=
  {| pickUpLocation := pickUpLocation d; checkpoints := checkpoints d;
     current := c; scoreFreq := scoreFreq d;
     lastScorePubTime := lastScorePubTime d |}.

Definition set_checkpoints (cps : list (Checkpoint Derived))
    (d : CompetitionPluginPrivate) :=
  {| pickUpLocation := pickUpLocation d; checkpoints := cps;
     current := current d; scoreFreq := scoreFreq d;
     lastScorePubTime := lastScorePubTime d |}.

Definition set_lastScorePubTime (t : Time) (d : CompetitionPluginPrivate) :=
  {| pickUpLocation := pickUpLocation d; checkpoints := checkpoints d;
     current := current d; scoreFreq := scoreFreq d;
     lastScorePubTime := Some t |}.

(** The private data as constructed. *)
Definition Private_new : CompetitionPluginPrivate :=
  {| pickUpLocation := EmptyString; checkpoints := []; current := 0%Z;
     scoreFreq := 50; lastScorePubTime := None |}.

(** [CompetitionPlugin::Load].  [CP_GoToPickUp] is declared in a header
    that is not part of the sources at hand, so its constructor is a
    parameter. *)
Variable Sdf : Type.
Variable CP_GoToPickUp_new : Sdf -> Checkpoint Derived.

Record PluginSdf : Type := mkPluginSdf {
  sdf_score_frequency : option R;
  sdf_pick_up_location : option string;
  sdf_go_to_pick_up : Sdf
}.

Record Loaded : Type := mkLoaded {
  dataPtr : CompetitionPluginPrivate;
  newTaskRosService : bool;   (* /servicesim/new_task advertised *)
  scoreRosPub : bool;         (* /servicesim/score advertised *)
  updateConnection : bool     (* OnUpdate connected to world update *)
}.

Definition Load (ros_isInitialized : bool) (_sdf : PluginSdf) : Loaded :=
  let d := Private_new in
  let d :=
    match sdf_score_frequency _sdf with
    | Some f =>
        {| pickUpLocation := pickUpLocation d; checkpoints := checkpoints d;
           current := current d; scoreFreq := f;
           lastScorePubTime := lastScorePubTime d |}
    | None => d
    end in
  match sdf_pick_up_location _sdf with
  | None => mkLoaded d false false false
  | Some loc =>
      let d :=
        {| pickUpLocation := loc;
           checkpoints :=
             checkpoints d ++ [CP_GoToPickUp_new (sdf_go_to_pick_up _sdf)];
           current := current d; scoreFreq := scoreFreq d;
           lastScorePubTime := lastScorePubTime d |} in
      if negb ros_isInitialized then mkLoaded d false false false
      else mkLoaded d true true true
  end.

(** [CompetitionPlugin::OnNewTaskRosService]; [now] is the world's
    simulation time read by [Start]. *)
Definition OnNewTaskRosService (now : Time) (_res : NewTaskResponse)
    (d : CompetitionPluginPrivate)
    : option (bool * NewTaskResponse * CompetitionPluginPrivate) :=
  if negb (current d =? 0)%Z then Some (false, _res, d)
  else
    let d := set_current 1%Z d in
    match vec_at (checkpoints d) (current d - 1) with
    | None => None
    | Some cp =>
        let d :=
          set_checkpoints
            (vec_set (checkpoints d) (current d - 1) (Start now cp)) d in
        Some (true, {| pick_up_location := pickUpLocation d |}, d)
    end.

(** The first half of [CompetitionPlugin::OnUpdate], entered with
    [current != 0]: check the active checkpoint and move on. *)
Definition advance (now : Time) (d : CompetitionPluginPrivate)
    : option CompetitionPluginPrivate :=
  match vec_at (checkpoints d) (current d - 1) with
  | None => None
  | Some cp =>
      let (r, cp') := Check cp in
      let d := set_checkpoints
                 (vec_set (checkpoints d) (current d - 1) cp') d in
      if r then
        let d := set_current (wrap8 (current d + 1)) d in
        if (current d >? Z.of_nat (List.length (checkpoints d)))%Z then
          Some (set_current 0%Z d)
        else
          match vec_at (checkpoints d) (current d - 1) with
          | None => None
          | Some nx =>
              Some (set_checkpoints
                      (vec_set (checkpoints d) (current d - 1)
                               (Start now nx)) d)
          end
      else Some d
  end.

(** The second half of [OnUpdate]: the rate-limited score message. *)
Definition publish_score (now : Time) (_info : UpdateInfo)
    (d : CompetitionPluginPrivate)
    : CompetitionPluginPrivate * option ScoreMsg :=
  let last :=
    match lastScorePubTime d with
    | Some t => t
    | None => simTime _info
    end in
  let d := set_lastScorePubTime last d in
  if Rltb (TimeOps.sub (simTime _info) last) (1 / scoreFreq d) then (d, None)
  else
    let scores := map (Score now) (checkpoints d) in
    let total := fold_left Rplus scores 0 in
    (set_lastScorePubTime (simTime _info) d,
     Some {| msg_checkpoints := scores; msg_score := total |}).

(** [CompetitionPlugin::OnUpdate]. *)
Definition OnUpdate (now : Time) (_info : UpdateInfo)
    (d : CompetitionPluginPrivate)
    : option (CompetitionPluginPrivate * option ScoreMsg) :=
  if (current d =? 0)%Z then Some (d, None)
  else
    match advance now d with
    | None => None
    | Some d => Some (publish_score now _info d)
    end.

(** *** Runs of the plugin

    Between two world updates the transport may deliver callbacks to a
    checkpoint; [Async i f] applies [f] to the checkpoint at position [i]. *)
Inductive Event : Type :=
| Tick (now : Time) (_info : UpdateInfo)
| Async (i : nat) (f : Checkpoint Derived -> Checkpoint Derived).

(** Whether the update entered in state [d] finds its checkpoint complete. *)
Definition progresses (d : CompetitionPluginPrivate) : bool :=
  if (current d =? 0)%Z then false
  else
    match vec_at (checkpoints d) (current d - 1) with
    | Some cp => fst (Check cp)
    | None => false
    end.

Definition step (e : Event) (d : CompetitionPluginPrivate)
    : option (CompetitionPluginPrivate * option ScoreMsg) :=
  match e with
  | Tick now _info => OnUpdate now _info d
  | Async i f =>
      match nth_error (checkpoints d) i with
      | Some cp => Some (set_checkpoints (list_set (checkpoints d) i (f cp)) d, None)
      | None => Some (d, None)
      end
  end.

Definition counts (e : Event) (d : CompetitionPluginPrivate) : nat :=
  match e with
  | Tick _ _ => if progresses d then 1%nat else 0%nat
  | Async _ _ => 0%nat
  end.

(** [run tr d] is the state after the events [tr], the number of updates
    that found their checkpoint complete, and the score messages
    published, oldest first. *)
Fixpoint run (tr : list Event) (d : CompetitionPluginPrivate)
    : option (CompetitionPluginPrivate * nat * list ScoreMsg) :=
  match tr with
  | [] => Some (d, 0%nat, [])
  | e :: tr' =>
      match step e d with
      | None => None
      | Some (d', m) =>
          match run tr' d' with
          | None => None
          | Some (d'', k, ms) =>
              Some (d'', (counts e d + k)%nat,
                    match m with Some x => x :: ms | None => ms end)
          end
      end
  end.

(** The invariant of a running task over [N] checkpoints: after [k]
    completed checkpoints the index is [k + 1], and [0] once all [N] are
    complete. *)
Definition task_inv (N : nat) (d : CompetitionPluginPrivate) (k : nat) : Prop :=
  List.length (checkpoints d) = N /\
  (((k < N)%nat /\ current d = (Z.of_nat k + 1)%Z) \/
   (k = N /\ current d = 0%Z)).

End Plugin.

Arguments pickUpLocation {Derived}.
Arguments checkpoints {Derived}.
Arguments current {Derived}.
Arguments scoreFreq {Derived}.
Arguments lastScorePubTime {Derived}.
Arguments set_current {Derived}.
Arguments set_checkpoints {Derived}.
Arguments set_lastScorePubTime {Derived}.
Arguments sdf_score_frequency {Sdf}.
Arguments sdf_pick_up_location {Sdf}.
Arguments sdf_go_to_pick_up {Sdf}.
Arguments dataPtr {Derived}.
Arguments newTaskRosService {Derived}.
Arguments scoreRosPub {Derived}.
Arguments updateConnection {Derived}.
Arguments Load {Derived Sdf}.
Arguments OnNewTaskRosService {Derived}.
Arguments advance {Derived}.
Arguments publish_score {Derived}.
Arguments OnUpdate {Derived}.
Arguments Tick {Derived}.
Arguments Async {Derived}.
Arguments progresses {Derived}.
Arguments step {Derived}.
Arguments counts {Derived}.
Arguments run {Derived}.
Arguments task_inv {Derived}.

End CompetitionPlugin.

(** ** ignition::math, as far as the follow-actor plugin uses it *)

Record Vector3d : Type := mkVector3d { X_ : R; Y_ : R; Z_ : R }.

Module Vector3d.
Definition One : Vector3d := mkVector3d 1 1 1.
Definition add (a b : Vector3d) : Vector3d :=
  mkVector3d (X_ a + X_ b) (Y_ a + Y_ b) (Z_ a + Z_ b).
Definition sub (a b : Vector3d) : Vector3d :=
  mkVector3d (X_ a - X_ b) (Y_ a - Y_ b) (Z_ a - Z_ b).
(** [operator*(double)] *)
Definition mul (a : Vector3d) (k : R) : Vector3d :=
  mkVector3d (X_ a * k) (Y_ a * k) (Z_ a * k).
Definition set_Z (z : R) (a : Vector3d) : Vector3d :=
  mkVector3d (X_ a) (Y_ a) z.
Definition Length (a : Vector3d) : R :=
  sqrt (X_ a * X_ a + Y_ a * Y_ a + Z_ a * Z_ a).
(** [ignition::math::equal], with its default tolerance. *)
Definition equal (a b : R) : bool := Rleb (Rabs (a - b)) (1 / 1000000).
(** [Normalize]: a vector of (nearly) zero length is left as it is. *)
Definition Normalize (a : Vector3d) : Vector3d :=
  let d := Length a in
  if negb (equal d 0) then mkVector3d (X_ a / d) (Y_ a / d) (Z_ a / d)
  else a.
End Vector3d.

(** [atan2] of the C library, on reals. *)
Definition atan2 (y x : R) : R :=
  if Rltb 0 x then atan (y / x)
  else if Rltb x 0 then
    (if Rleb 0 y then atan (y / x) + PI else atan (y / x) - PI)
  else if Rltb 0 y then PI / 2
  else if Rltb y 0 then - (PI / 2)
  else 0.

Definition IGN_PI_2 : R := PI / 2.

(** [ignition::math::Angle::Normalize] on the angle's value in radians. *)
Definition Angle_Normalize (value : R) : R := atan2 (sin value) (cos value).

(** A rotation is kept as the Euler angles the [Quaterniond] constructor was
    given. *)
Record Quaterniond : Type := mkQuaterniond { Roll : R; Pitch : R; Yaw : R }.

Record Pose3d : Type := mkPose3d { Pos : Vector3d; Rot : Quaterniond }.

Record Box : Type := mkBox { Min : Vector3d; Max : Vector3d }.

(** [Box::Contains]: the faces belong to the box. *)
Definition Box_Contains (b : Box) (p : Vector3d) : bool :=
  Rgeb (X_ p) (X_ (Min b)) && Rleb (X_ p) (X_ (Max b)) &&
  Rgeb (Y_ p) (Y_ (Min b)) && Rleb (Y_ p) (Y_ (Max b)) &&
  Rgeb (Z_ p) (Z_ (Min b)) && Rleb (Z_ p) (Z_ (Max b)).

(** ** gazebo::physics, as far as the follow-actor plugin uses it *)

(** A model (an actor is a model); [ScriptTime] is meaningful for actors. *)
Record Model : Type := mkModel {
  GetName : string;
  WorldPose : Pose3d;
  BoundingBox : Box;
  ScriptTime : R
}.

(** [ModelPtr] is a shared pointer: a pointer stays valid whatever the world
    does, so every pointer denotes a model. *)
Definition ModelPtr : Type := nat.

Record World : Type := mkWorld {
  deref : ModelPtr -> Model;      (* the objects pointed to *)
  Models : list ModelPtr          (* the world's models, by index *)
}.

Definition ModelByName (w : World) (_name : string) : option ModelPtr :=
  find (fun p => String.eqb (GetName (deref w p)) _name) (Models w).

Definition store (w : World) (p : ModelPtr) (m : Model) : World :=
  {| deref := fun q => if Nat.eqb q p then m else deref w q;
     Models := Models w |}.

(** ** FollowActorPlugin.cc *)

Module FollowActorPlugin.

Record FollowActorPluginPrivate : Type := mkPrivate {
  actor : ModelPtr;
  velocity : R;
  target : option ModelPtr;
  minDistance : R;
  maxDistance : R;
  pickUpRadius : R;
  obstacleMargin : R;
  animationFactor : R;
  lastUpdate : Time;
  ignoreModels : list string
}.

Definition set_target (t : option ModelPtr) (d : FollowActorPluginPrivate) :=
  {| actor := actor d; velocity := velocity d; target := t;
     minDistance := minDistance d; maxDistance := maxDistance d;
     pickUpRadius := pickUpRadius d; obstacleMargin := obstacleMargin d;
     animationFactor := animationFactor d; lastUpdate := lastUpdate d;
     ignoreModels := ignoreModels d |}.

Definition set_lastUpdate (t : Time) (d : FollowActorPluginPrivate) :=
  {| actor := actor d; velocity := velocity d; target := target d;
     minDistance := minDistance d; maxDistance := maxDistance d;
     pickUpRadius := pickUpRadius d; obstacleMargin := obstacleMargin d;
     animationFactor := animationFactor d; lastUpdate := t;
     ignoreModels := ignoreModels d |}.

(** The private data as constructed, for the actor [a]; [Load] adds the
    actor's own name to [ignoreModels]. *)
Definition Private_new (a : ModelPtr) : FollowActorPluginPrivate :=
  {| actor := a; velocity := 8 / 10; target := None;
     minDistance := 12 / 10; maxDistance := 4; pickUpRadius := 2;
     obstacleMargin := 5 / 10; animationFactor := 51 / 10;
     lastUpdate := TimeOps.Zero; ignoreModels := [] |}.

(** The plugin's SDF element: each parameter may be absent;
    <ignore_obstacle> may be repeated. *)
Record PluginSdf : Type := mkPluginSdf {
  sdf_velocity : option R;
  sdf_min_distance : option R;
  sdf_max_distance : option R;
  sdf_pickup_radius : option R;
  sdf_obstacle_margin : option R;
  sdf_animation_factor : option R;
  sdf_ignore_obstacle : list string;
  sdf_animation : option string
}.

(** physics::TrajectoryInfo, as far as [Load] fills it. *)
Record TrajectoryInfo : Type := mkTrajectoryInfo {
  trajectory_type : string;
  trajectory_duration : R
}.

(** What [Load] leaves behind: the private data, the custom trajectory set
    on the actor (if any), the number of world-update connections, and
    whether the two services are advertised. *)
Record Loaded : Type := mkLoaded {
  dataPtr : FollowActorPluginPrivate;
  customTrajectory : option TrajectoryInfo;
  connections : nat;
  pickUpRosService : bool;
  dropOffRosService : bool
}.

Definition sdf_or (o : option R) (dflt : R) : R :=
  match o with
  | Some v => v
  | None => dflt
  end.

(** [FollowActorPlugin::Load] for the actor [_model] of world [w], whose
    skeleton animations are named [skelAnims]. *)
Definition Load (_model : ModelPtr) (w : World) (skelAnims : list string)
    (ros_isInitialized : bool) (_sdf : PluginSdf) : Loaded :=
  let d := Private_new _model in
  let d :=
    {| actor := _model;
       velocity := sdf_or (sdf_velocity _sdf) (velocity d);
       target := target d;
       minDistance := sdf_or (sdf_min_distance _sdf) (minDistance d);
       maxDistance := sdf_or (sdf_max_distance _sdf) (maxDistance d);
       pickUpRadius := sdf_or (sdf_pickup_radius _sdf) (pickUpRadius d);
       obstacleMargin := sdf_or (sdf_obstacle_margin _sdf) (obstacleMargin d);
       animationFactor := sdf_or (sdf_animation_factor _sdf) (animationFactor d);
       lastUpdate := lastUpdate d;
       ignoreModels :=
         (ignoreModels d ++ [GetName (deref w _model)])
         ++ sdf_ignore_obstacle _sdf |} in
  let animation :=
    match sdf_animation _sdf with
    | Some a => a
    | None => "animation"%string
    end in
  let trajectory :=
    if existsb (String.eqb animation) skelAnims then
      Some {| trajectory_type := animation; trajectory_duration := 1 |}
    else None in
  {| dataPtr := d;
     customTrajectory := trajectory;
     connections := 1;
     pickUpRosService := ros_isInitialized;
     dropOffRosService := ros_isInitialized |}.

(** [FollowActorPlugin::Reset]. *)
Definition Reset (d : FollowActorPluginPrivate) : FollowActorPluginPrivate :=
  set_lastUpdate TimeOps.Zero (set_target None d).

(** The bounding box as [ObstacleOnTheWay] enlarges it. *)
Definition inflate (margin : R) (bb : Box) : Box :=
  let mn := Vector3d.sub (Min bb) (Vector3d.mul Vector3d.One margin) in
  let mx := Vector3d.add (Max bb) (Vector3d.mul Vector3d.One margin) in
  let mn := Vector3d.set_Z (Z_ mn - 5) mn in
  let mx := Vector3d.set_Z (Z_ mx + 5) mx in
  {| Min := mn; Max := mx |}.

(** [FollowActorPlugin::ObstacleOnTheWay]. *)
Definition ObstacleOnTheWay (w : World) (d : FollowActorPluginPrivate) : bool :=
  let actorPose := Pos (WorldPose (deref w (actor d))) in
  existsb
    (fun p =>
       let model := deref w p in
       if existsb (String.eqb (GetName model)) (ignoreModels d) then false
       else Box_Contains (inflate (obstacleMargin d) (BoundingBox model))
                         actorPose)
    (Models w).

(** The heading computed by [OnUpdate] from the direction to the target. *)
Definition heading (dir : Vector3d) : R :=
  Angle_Normalize (atan2 (Y_ dir) (X_ dir) + IGN_PI_2).

(** [FollowActorPlugin::OnUpdate].  [SetWorldPose] and [SetScriptTime]
    write the actor's pose and script time; its bounding box, which the
    simulator derives from the pose, is not read back by the plugin and is
    left as it was. *)
Definition OnUpdate (_info : UpdateInfo) (w : World)
    (d : FollowActorPluginPrivate) : World * FollowActorPluginPrivate :=
  let dt := TimeOps.Double (TimeOps.sub (simTime _info) (lastUpdate d)) in
  let d := set_lastUpdate (simTime _info) d in
  match target d with
  | None => (w, d)
  | Some tgt =>
      if ObstacleOnTheWay w d then (w, d)
      else
        let actorPose := WorldPose (deref w (actor d)) in
        let zPos := Z_ (Pos actorPose) in
        let targetPose := WorldPose (deref w tgt) in
        let dir := Vector3d.sub (Pos targetPose) (Pos actorPose) in
        if Rleb (Vector3d.Length dir) (minDistance d) then (w, d)
        else if Rgtb (Vector3d.Length dir) (maxDistance d) then
          (w, set_target None d)
        else
          let yaw := heading dir in
          let dir := Vector3d.Normalize dir in
          let pos :=
            Vector3d.add (Pos actorPose)
              (Vector3d.mul (Vector3d.mul dir (velocity d)) dt) in
          let pos := Vector3d.set_Z zPos pos in
          let rot := mkQuaterniond IGN_PI_2 0 yaw in
          let distanceTraveled :=
            Vector3d.Length
              (Vector3d.sub pos (Pos (WorldPose (deref w (actor d))))) in
          let a := deref w (actor d) in
          (store w (actor d)
             {| GetName := GetName a;
                WorldPose := mkPose3d pos rot;
                BoundingBox := BoundingBox a;
                ScriptTime :=
                  ScriptTime a + distanceTraveled * animationFactor d |},
           d)
  end.

(** servicesim_competition::PickUpGuest *)
Record PickUpRequest : Type := mkPickUpRequest {
  guest_name : string;
  robot_name : string
}.

(** servicesim_competition::DropOffGuest::Request *)
Record DropOffRequest : Type := mkDropOffRequest {
  dropoff_guest_name : string
}.

(** The response of both services. *)
Record Response : Type := mkResponse { success : bool }.

(** The distance [OnPickUpRosRequest] compares with the pick-up radius. *)
Definition pickUpDistance (actorPos targetPos : Vector3d) : R :=
  let posDiff := Vector3d.sub actorPos targetPos in
  let posDiff := Vector3d.set_Z 0 posDiff in
  Vector3d.Length posDiff.

(** [FollowActorPlugin::OnPickUpRosRequest]: the service's return value, the
    response and the private data afterwards. *)
Definition OnPickUpRosRequest (_req : PickUpRequest) (w : World)
    (d : FollowActorPluginPrivate)
    : bool * Response * FollowActorPluginPrivate :=
  let actorName := guest_name _req in
  if negb (String.eqb actorName (GetName (deref w (actor d)))) then
    (false, mkResponse false, d)
  else
    let targetName := robot_name _req in
    match ModelByName w targetName with
    | None => (false, mkResponse false, d)
    | Some model =>
        let actorPos := Pos (WorldPose (deref w (actor d))) in
        let targetPos := Pos (WorldPose (deref w model)) in
        if Rgtb (pickUpDistance actorPos targetPos) (pickUpRadius d) then
          (false, mkResponse false, d)
        else (true, mkResponse true, set_target (Some model) d)
    end.

(** [FollowActorPlugin::OnDropOffRosRequest]. *)
Definition OnDropOffRosRequest (_req : DropOffRequest) (w : World)
    (d : FollowActorPluginPrivate)
    : bool * Response * FollowActorPluginPrivate :=
  let actorName := dropoff_guest_name _req in
  if negb (String.eqb actorName (GetName (deref w (actor d)))) then
    (false, mkResponse false, d)
  else (true, mkResponse true, set_target None d).

(** *** Runs of the plugin

    Each event is handled in the world as the simulator presents it at that
    moment; how the world changes between two events is not constrained. *)
Inductive Event : Type :=
| Update (_info : UpdateInfo)
| PickUp (_req : PickUpRequest)
| DropOff (_req : DropOffRequest)
| DoReset.

Definition handle (w : World) (e : Event) (d : FollowActorPluginPrivate)
    : FollowActorPluginPrivate :=
  match e with
  | Update _info => snd (OnUpdate _info w d)
  | PickUp _req => snd (OnPickUpRosRequest _req w d)
  | DropOff _req => snd (OnDropOffRosRequest _req w d)
  | DoReset => Reset d
  end.

(** Whether the event is a pick-up request that succeeds in state [d]. *)
Definition picks_up (w : World) (e : Event) (d : FollowActorPluginPrivate)
    : bool :=
  match e with
  | PickUp _req => fst (fst (OnPickUpRosRequest _req w d))
  | _ => false
  end.

Fixpoint run (tr : list (World * Event)) (d : FollowActorPluginPrivate)
    : FollowActorPluginPrivate :=
  match tr with
  | [] => d
  | (w, e) :: tr' => run tr' (handle w e d)
  end.

(** No pick-up request of the run succeeds. *)
Fixpoint no_pick_up (tr : list (World * Event)) (d : FollowActorPluginPrivate)
    : bool :=
  match tr with
  | [] => true
  | (w, e) :: tr' => negb (picks_up w e d) && no_pick_up tr' (handle w e d)
  end.

End FollowActorPlugin.


(** ** CreateActorPlugin.cc: the actor-creation wizard

    Conventions of this part.
      - [unsigned int actorCount] is a [Z] with the wrap-around modulo 2^32
        written out; [int count] is a [Z], and incrementing it at [INT_MAX]
        is undefined behaviour.
      - The rendering scene is read through [GetVisual] only, and is not
        changed by the deletion requests while [processGhostPoses] runs: a
        scene is the function from a visual's name to its world pose.
      - [Pose3d::operator+], the printing of a pose and the macro
        [SDF_VERSION] belong to the libraries; they are parameters.
      - What the wizard does to the outside is kept as a list of calls, in
        order.  The folders created by the export buttons are not recorded. *)

Module CreateActorPlugin.

(** The outcome of code that can run into undefined behaviour, and whose
    loop is bounded by a fuel in this model. *)
Inductive Outcome (A : Type) : Type :=
| Ok (a : A)
| Undefined
| OutOfFuel.
Arguments Ok {A} a.
Arguments Undefined {A}.
Arguments OutOfFuel {A}.

Definition bind {A B : Type} (o : Outcome A) (f : A -> Outcome B) : Outcome B :=
  match o with
  | Ok a => f a
  | Undefined => Undefined
  | OutOfFuel => OutOfFuel
  end.

Definition nl : string := String (Ascii.ascii_of_nat 10) EmptyString.

(** [std::to_string] on an integer. *)
Definition to_string (z : Z) : string := DecimalString.NilEmpty.string_of_int (Z.to_int z).

Definition INT_MAX : Z := 2147483647.
Definition wrap32 (z : Z) : Z := (z mod 4294967296)%Z.

(** A [std::map] with string keys, its entries in key order;
    [operator[]] gives the default value for a missing key. *)
Fixpoint map_find {V : Type} (m : list (string * V)) (k : string) : option V :=
  match m with
  | [] => None
  | (k', v) :: m' => if String.eqb k' k then Some v else map_find m' k
  end.

Definition map_at {V : Type} (dflt : V) (m : list (string * V)) (k : string) : V :=
  match map_find m k with
  | Some v => v
  | None => dflt
  end.

Definition IGN_PI : R := PI.

Definition Pose3d_new (x y z roll pitch yaw : R) : Pose3d :=
  mkPose3d (mkVector3d x y z) (mkQuaterniond roll pitch yaw).

Definition Pose3d_Zero : Pose3d := Pose3d_new 0 0 0 0 0 0.

(** The four maps, as the constructor fills them. *)
Definition skinMap : list (string * string) :=
  [("Blue shirt", "SKIN_man_blue_shirt");
   ("Green shirt", "SKIN_man_green_shirt");
   ("Red shirt", "SKIN_man_red_shirt")]%string.

Definition animIdleMap : list (string * string) :=
  [("Talking A", "ANIMATION_talking_a");
   ("Talking B", "ANIMATION_talking_b")]%string.

Definition animTrajectoryMap : list (string * string) :=
  [("Running", "ANIMATION_running");
   ("Walking", "ANIMATION_walking")]%string.

Definition animPoseMap : list (string * Pose3d) :=
  [("Running"%string, Pose3d_new 0 (-1) (-14 / 10) 0 0 IGN_PI);
   ("Talking A"%string, Pose3d_new 1 0 (-125 / 100) 0 0 (- IGN_PI_2));
   ("Talking B"%string, Pose3d_new 1 0 (-125 / 100) 0 0 IGN_PI_2);
   ("Walking"%string, Pose3d_new 0 (-1) (-14 / 10) 0 0 IGN_PI)].

(** The items of the two combo boxes. *)
Definition skinCombo : list string := map fst skinMap.
Definition animCombo : list string :=
  map fst animIdleMap ++ map fst animTrajectoryMap.

(** struct Current *)
Record Current : Type := mkCurrent {
  skinDae : string;
  animDae : string;
  poseOffset : Pose3d;
  sdf : string;
  erb : string
}.

Inductive Call : Type :=
| CreateGhost                              (* insertGhost *)
| EntityDelete (name : string)             (* request entity_delete *)
| Publish (msg_sdf : string)               (* factoryPub->Publish *)
| SaveFile (path : string) (content : string).

(** The globals [actorCount], [ghostPoses] and [current], the plugin's
    [currentERB], the page shown by the stacked layout, and the calls
    made so far. *)
Record State : Type := mkState {
  actorCount : Z;
  ghostPoses : list string;
  current : Current;
  currentERB : string;
  page : nat;
  calls : list Call
}.

Definition set_actorCount (n : Z) (st : State) : State :=
  mkState n (ghostPoses st) (current st) (currentERB st) (page st) (calls st).
Definition set_ghostPoses (l : list string) (st : State) : State :=
  mkState (actorCount st) l (current st) (currentERB st) (page st) (calls st).
Definition set_current (c : Current) (st : State) : State :=
  mkState (actorCount st) (ghostPoses st) c (currentERB st) (page st) (calls st).
Definition set_page (p : nat) (st : State) : State :=
  mkState (actorCount st) (ghostPoses st) (current st) (currentERB st) p (calls st).
Definition add_call (c : Call) (st : State) : State :=
  mkState (actorCount st) (ghostPoses st) (current st) (currentERB st) (page st)
          (calls st ++ [c]).

Definition set_sdf (s : string) (c : Current) : Current :=
  mkCurrent (skinDae c) (animDae c) (poseOffset c) s (erb c).
Definition set_erb (s : string) (c : Current) : Current :=
  mkCurrent (skinDae c) (animDae c) (poseOffset c) (sdf c) s.

(** The messages published to the factory, oldest first. *)
Fixpoint published (cs : list Call) : list string :=
  match cs with
  | [] => []
  | Publish m :: cs' => m :: published cs'
  | _ :: cs' => published cs'
  end.

(** The names of the visuals the loop of [processGhostPoses] asks for. *)
Definition ghost_name (i : nat) : string :=
  match i with
  | O => "ghost"%string
  | S j => ("ghost" ++ "_" ++ to_string (Z.of_nat j))%string
  end.

(** rendering::Scene::GetVisual followed by WorldPose *)
Definition Scene : Type := string -> option Pose3d.

(** What the user can do to the wizard.  The outcome of a file dialog is
    whether it was accepted, the files selected, and whether the first of
    them could be opened for writing. *)
Inductive Event : Type :=
| SkinChanged (_value : string)
| AnimChanged (_value : string)
| Next0
| NewWaypoint
| Next1 (scene : Scene)
| NewActor
| ExportSdf (accepted : bool) (selected : list string) (is_open : bool)
| ExportErb (accepted : bool) (selected : list string) (is_open : bool).

Section Wizard.

Variable pose_add : Pose3d -> Pose3d -> Pose3d.
Variable pose_str : Pose3d -> string.
Variable SDF_VERSION : string.

(** [insertGhost] *)
Definition insertGhost (st : State) : State := add_call CreateGhost st.

(** The loop of [processGhostPoses]. *)
Fixpoint ghost_loop (fuel : nat) (scene : Scene) (ghostName : string)
    (count : Z) (st : State) : Outcome State :=
  match fuel with
  | O => OutOfFuel
  | S fuel' =>
      match scene ghostName with
      | None => Ok st
      | Some vis_pose =>
          let pose := pose_add (poseOffset (current st)) vis_pose in
          let st := set_ghostPoses (ghostPoses st ++ [pose_str pose]) st in
          let st := add_call (EntityDelete ghostName) st in
          if (count =? INT_MAX)%Z then Undefined
          else
            ghost_loop fuel' scene ("ghost" ++ "_" ++ to_string count)%string
                       (count + 1)%Z st
      end
  end.

(** [processGhostPoses] *)
Definition processGhostPoses (fuel : nat) (scene : Scene) (st : State)
    : Outcome State :=
  ghost_loop fuel scene "ghost"%string 0%Z (set_ghostPoses [] st).

(** The trajectory of an idle actor: one waypoint. *)
Definition script_text (pose : string) : string :=
  ("            <script>" ++ nl ++
   "              <trajectory id='0' type='animation'>" ++ nl ++
   "                <waypoint>" ++ nl ++
   "                  <time>100</time>" ++ nl ++
   "                  <pose>" ++ pose ++ "</pose>" ++ nl ++
   "                </waypoint>" ++ nl ++
   "              </trajectory>" ++ nl ++
   "            </script>" ++ nl)%string.

Definition target_text (pose : string) : string :=
  ("             <target>" ++ pose ++ "</target>" ++ nl)%string.

(** The trajectory of the other actors: the wandering plugin, with one
    target for each pose. *)
Definition plugin_text (poses : list string) : string :=
  (fold_left (fun acc pose => acc ++ target_text pose) poses
     ("         <plugin name='wandering_plugin' filename='libWanderingActorPlugin.so'>" ++ nl ++
      "           <target_weight>1.15</target_weight>" ++ nl ++
      "           <obstacle_weight>1.8</obstacle_weight>" ++ nl ++
      "           <animation_factor>5.1</animation_factor>" ++ nl)
   ++ "         </plugin>" ++ nl)%string.

(** The text assigned to [current.sdf]. *)
Definition sdf_text (name pose0 : string) (cur : Current) (poses : list string)
    (trajectory : string) : string :=
  (("      <?xml version='1.0' ?>" ++ nl ++
    "        <sdf version='" ++ SDF_VERSION ++ "'>" ++ nl ++
    "          <actor name='" ++ name ++ "'>" ++ nl ++
    "            <pose>" ++ pose0 ++ "</pose>" ++ nl ++
    "            <skin>" ++ nl ++
    "              <filename>model://actor/meshes/" ++ skinDae cur ++ ".dae</filename>" ++ nl ++
    "            </skin>" ++ nl ++
    "            <animation name='animation'>" ++ nl ++
    "              <filename>model://actor/meshes/" ++ animDae cur ++ ".dae</filename>" ++ nl)
   ++ (if (1 <? List.length poses)%nat
       then "              <interpolate_x>true</interpolate_x>" ++ nl
       else EmptyString)
   ++ ("            </animation>" ++ nl ++
       "            " ++ trajectory ++ nl ++
       "          </actor>" ++ nl ++
       "        </sdf>"))%string.

(** [fillSDF].  It reads [ghostPoses[0]] whatever the number of poses:
    with none the behaviour is undefined. *)
Definition fillSDF (st : State) : Outcome State :=
  match nth_error (ghostPoses st) 0 with
  | None => Undefined
  | Some pose0 =>
      let trajectory :=
        if (List.length (ghostPoses st) =? 1)%nat then script_text pose0
        else plugin_text (ghostPoses st) in
      let name := ("actor_" ++ to_string (actorCount st))%string in
      let st := set_actorCount (wrap32 (actorCount st + 1)) st in
      Ok (set_current
            (set_sdf (sdf_text name pose0 (current st) (ghostPoses st) trajectory)
                     (current st)) st)
  end.

(** [fillERB] *)
Definition fillERB (st : State) : State :=
  set_current (set_erb "TODO" (current st)) st.

(** [CreateActorPlugin::Spawn] *)
Definition Spawn (fuel : nat) (scene : Scene) (st : State) : Outcome State :=
  bind (processGhostPoses fuel scene st) (fun st =>
  bind (fillSDF st) (fun st =>
  let st := fillERB st in
  Ok (add_call (Publish (sdf (current st))) st))).

(** The state the constructor leaves: the first page is shown, and the
    first item of each combo box is the current one. *)
Definition wizard_new : State :=
  {| actorCount := 0;
     ghostPoses := [];
     current :=
       {| skinDae := map_at EmptyString skinMap (hd EmptyString skinCombo);
          animDae := map_at EmptyString animIdleMap (hd EmptyString animCombo);
          poseOffset := map_at Pose3d_Zero animPoseMap (hd EmptyString animCombo);
          sdf := EmptyString;
          erb := EmptyString |};
     currentERB := EmptyString;
     page := 0;
     calls := [] |}.

(** The handler connected to the skin combo box. *)
Definition on_skin (_value : string) (st : State) : State :=
  let c := current st in
  set_current
    (mkCurrent (map_at EmptyString skinMap _value) (animDae c) (poseOffset c)
               (sdf c) (erb c)) st.

(** The handler connected to the animation combo box. *)
Definition on_anim (_value : string) (st : State) : State :=
  let c := current st in
  let dae :=
    match map_find animIdleMap _value with
    | Some _ => map_at EmptyString animIdleMap _value
    | None => map_at EmptyString animTrajectoryMap _value
    end in
  set_current
    (mkCurrent (skinDae c) dae (map_at Pose3d_Zero animPoseMap _value)
               (sdf c) (erb c)) st.

(** Page 0, button Next. *)
Definition on_next0 (st : State) : State :=
  let st := insertGhost st in
  let st := set_page 1 st in
  set_actorCount (wrap32 (actorCount st + 1)) st.

(** Page 1, button New waypoint. *)
Definition on_new_waypoint (st : State) : State := insertGhost st.

(** Page 1, button Next. *)
Definition on_next1 (fuel : nat) (scene : Scene) (st : State) : Outcome State :=
  bind (Spawn fuel scene st) (fun st => Ok (set_page 2 st)).

(** Page 2, button New actor. *)
Definition on_new_actor (st : State) : State := set_page 0 st.

(** Page 2, the two export buttons: they differ in the text saved. *)
Definition export (content : string) (accepted : bool) (selected : list string)
    (is_open : bool) (st : State) : State :=
  if negb accepted then st
  else
    match selected with
    | [] => st
    | file :: _ =>
        if negb is_open then st
        else add_call (SaveFile file content) st
    end.

Definition on_export_sdf (accepted : bool) (selected : list string)
    (is_open : bool) (st : State) : State :=
  export (sdf (current st)) accepted selected is_open st.

Definition on_export_erb (accepted : bool) (selected : list string)
    (is_open : bool) (st : State) : State :=
  export (currentERB st) accepted selected is_open st.

(** One action of the user.  The stacked layout shows one page at a
    time: a widget of another page cannot be reached, and a combo box
    offers its items only; such an action leaves the state as it is. *)
Definition wizard_step (fuel : nat) (ev : Event) (st : State) : Outcome State :=
  match ev, page st with
  | SkinChanged v, O =>
      Ok (if existsb (String.eqb v) skinCombo then on_skin v st else st)
  | AnimChanged v, O =>
      Ok (if existsb (String.eqb v) animCombo then on_anim v st else st)
  | Next0, O => Ok (on_next0 st)
  | NewWaypoint, S O => Ok (on_new_waypoint st)
  | Next1 scene, S O => on_next1 fuel scene st
  | NewActor, S (S O) => Ok (on_new_actor st)
  | ExportSdf a s o, S (S O) => Ok (on_export_sdf a s o st)
  | ExportErb a s o, S (S O) => Ok (on_export_erb a s o st)
  | _, _ => Ok st
  end.

Fixpoint wizard_run (fuel : nat) (tr : list Event) (st : State) : Outcome State :=
  match tr with
  | [] => Ok st
  | ev :: tr' => bind (wizard_step fuel ev st) (wizard_run fuel tr')
  end.

End Wizard.

End CreateActorPlugin.

(** * Scenarios

    Concrete checkpoints, plugin states and worlds at which the properties
    below are exercised. *)

Module Scenario.

Import CompetitionPlugin.

(** A contain checkpoint as [Load] would build it from
    <weight>w</weight><namespace>zone</namespace>. *)
Definition zone_cp (w : R) (n : nat) : ContainCheckpoint :=
  ContainCheckpoint_new w (Some "zone"%string) n.

Definition info_at (t : Time) : UpdateInfo := {| simTime := t |}.

Definition no_response : NewTaskResponse := {| pick_up_location := EmptyString |}.

(** A competition with the given checkpoints, no task running. *)
Definition competition (cps : list ContainCheckpoint)
    : CompetitionPluginPrivate ContainMembers :=
  {| pickUpLocation := "FrontElevator"%string; checkpoints := cps;
     current := 0%Z; scoreFreq := 50; lastScorePubTime := None |}.

Definition competition_1 := competition [zone_cp 2 1].
Definition competition_0 := competition [].
Definition competition_255 := competition (repeat (zone_cp 1 1) 255).

(** A one-checkpoint competition whose task was started at t = 10 and
    whose checkpoint has been enabled and reached; the score was last
    published at t = 10. *)
Definition competition_1_reached : CompetitionPluginPrivate ContainMembers :=
  {| pickUpLocation := "FrontElevator"%string;
     checkpoints :=
       [contain_run [CallCheck; Reply true; Contain true]
          (Start 10 (zone_cp 2 1))];
     current := 1%Z; scoreFreq := 50; lastScorePubTime := Some 10 |}.

(** The same with a second checkpoint, not yet started. *)
Definition competition_2_reached : CompetitionPluginPrivate ContainMembers :=
  {| pickUpLocation := "FrontElevator"%string;
     checkpoints :=
       [contain_run [CallCheck; Reply true; Contain true]
          (Start 10 (zone_cp 2 1));
        zone_cp 3 2];
     current := 1%Z; scoreFreq := 50; lastScorePubTime := Some 10 |}.

(** The events by which the checkpoint at position [i] completes while it
    is active: an update (the check subscribes and asks the zone to enable),
    the reply to the enable request, the zone's contain message, and the
    update that finds the checkpoint complete. *)
Definition completion_events (i : nat) : list (Event ContainMembers) :=
  [Tick 0 (info_at 0); Async i (EnableCallback true);
   Async i (OnContain true); Tick 0 (info_at 0)].

(** The first [n] checkpoints complete one after the other. *)
Definition completions (n : nat) : list (Event ContainMembers) :=
  flat_map completion_events (seq 0 n).

(** A contain checkpoint that has neither been enabled nor reached. *)
Definition fresh (cp : ContainCheckpoint) : Prop :=
  enabled (derived cp) = false /\ containDone (derived cp) = false.

(** The task is at the checkpoint at position [i] of 255, and the
    checkpoints from there on are fresh. *)
Definition at_checkpoint (i : nat) (d : CompetitionPluginPrivate ContainMembers)
    : Prop :=
  current d = (Z.of_nat i + 1)%Z /\
  List.length (checkpoints d) = 255%nat /\
  forall j cp, (i <= j)%nat -> nth_error (checkpoints d) j = Some cp -> fresh cp.

(** A competition of two checkpoints, of weights 2 and 3. *)
Definition competition_2 := competition [zone_cp 2 1; zone_cp 3 2].

(** *** Worlds for the follow-actor plugin *)

(** A model of the given name standing at [pos], with a bounding box of
    half a metre around it. *)
Definition model_at (name : string) (pos : Vector3d) : Model :=
  {| GetName := name;
     WorldPose := mkPose3d pos (mkQuaterniond 0 0 0);
     BoundingBox :=
       {| Min := Vector3d.sub pos (Vector3d.mul Vector3d.One (1 / 4));
          Max := Vector3d.add pos (Vector3d.mul Vector3d.One (1 / 4)) |};
     ScriptTime := 0 |}.

(** The actor "guest" (pointer 0) at [a], the robot "robot" (pointer 1) at
    [r]; every other pointer denotes a table at [t], which is part of the
    world only when [with_table] is set. *)
Definition world (a r t : Vector3d) (with_table : bool) : World :=
  {| deref := fun p =>
       match p with
       | O => model_at "guest" a
       | S O => model_at "robot" r
       | _ => model_at "table" t
       end;
     Models := if with_table then [0; 1; 2]%nat else [0; 1]%nat |}.

(** The plugin of the actor with its default parameters, as [Load] leaves
    it, following [tgt]. *)
Definition follower (tgt : option ModelPtr)
    : FollowActorPlugin.FollowActorPluginPrivate :=
  {| FollowActorPlugin.actor := 0%nat;
     FollowActorPlugin.velocity := 8 / 10;
     FollowActorPlugin.target := tgt;
     FollowActorPlugin.minDistance := 12 / 10;
     FollowActorPlugin.maxDistance := 4;
     FollowActorPlugin.pickUpRadius := 2;
     FollowActorPlugin.obstacleMargin := 5 / 10;
     FollowActorPlugin.animationFactor := 51 / 10;
     FollowActorPlugin.lastUpdate := 0;
     FollowActorPlugin.ignoreModels := ["guest"%string] |}.

(** The same plugin configured with [min_distance] 10. *)
Definition shy_follower (tgt : option ModelPtr)
    : FollowActorPlugin.FollowActorPluginPrivate :=
  {| FollowActorPlugin.actor := 0%nat;
     FollowActorPlugin.velocity := 8 / 10;
     FollowActorPlugin.target := tgt;
     FollowActorPlugin.minDistance := 10;
     FollowActorPlugin.maxDistance := 4;
     FollowActorPlugin.pickUpRadius := 2;
     FollowActorPlugin.obstacleMargin := 5 / 10;
     FollowActorPlugin.animationFactor := 51 / 10;
     FollowActorPlugin.lastUpdate := 0;
     FollowActorPlugin.ignoreModels := ["guest"%string] |}.

(** The plugin [d] with another obstacle margin. *)
Definition with_margin (m : R) (d : FollowActorPlugin.FollowActorPluginPrivate)
    : FollowActorPlugin.FollowActorPluginPrivate :=
  {| FollowActorPlugin.actor := FollowActorPlugin.actor d;
     FollowActorPlugin.velocity := FollowActorPlugin.velocity d;
     FollowActorPlugin.target := FollowActorPlugin.target d;
     FollowActorPlugin.minDistance := FollowActorPlugin.minDistance d;
     FollowActorPlugin.maxDistance := FollowActorPlugin.maxDistance d;
     FollowActorPlugin.pickUpRadius := FollowActorPlugin.pickUpRadius d;
     FollowActorPlugin.obstacleMargin := m;
     FollowActorPlugin.animationFactor := FollowActorPlugin.animationFactor d;
     FollowActorPlugin.lastUpdate := FollowActorPlugin.lastUpdate d;
     FollowActorPlugin.ignoreModels := FollowActorPlugin.ignoreModels d |}.

(** A plugin element that sets nothing but <ignore_obstacle>robot. *)
Definition sdf_ignoring_robot : FollowActorPlugin.PluginSdf :=
  {| FollowActorPlugin.sdf_velocity := None;
     FollowActorPlugin.sdf_min_distance := None;
     FollowActorPlugin.sdf_max_distance := None;
     FollowActorPlugin.sdf_pickup_radius := None;
     FollowActorPlugin.sdf_obstacle_margin := None;
     FollowActorPlugin.sdf_animation_factor := None;
     FollowActorPlugin.sdf_ignore_obstacle := ["robot"%string];
     FollowActorPlugin.sdf_animation := None |}.

Definition origin : Vector3d := mkVector3d 0 0 0.

(** Actor at (0,0,1), robot at (2,0,1). *)
Definition world_near : World :=
  world (mkVector3d 0 0 1) (mkVector3d 2 0 1) origin false.

(** Actor at (0,0,1), robot at (5,0,1). *)
Definition world_far : World :=
  world (mkVector3d 0 0 1) (mkVector3d 5 0 1) origin false.

(** As [world_far], with a table standing where the actor is. *)
Definition world_far_blocked : World :=
  world (mkVector3d 0 0 1) (mkVector3d 5 0 1) (mkVector3d 0 0 1) true.

(** Actor at the origin, robot 2 m away horizontally, at the same height
    and 4.8 m higher (5.2 m away). *)
Definition world_level2 : World :=
  world origin (mkVector3d 2 0 0) origin false.
Definition world_high : World :=
  world origin (mkVector3d 2 0 (48 / 10)) origin false.

(** Actor at the origin, robot 0.9 m away horizontally, at the same height
    and 1.2 m higher (1.5 m away). *)
Definition world_close : World :=
  world origin (mkVector3d (9 / 10) 0 0) origin false.
Definition world_close_above : World :=
  world origin (mkVector3d (9 / 10) 0 (12 / 10)) origin false.

(** Actor at (0,0,1), robot at (-2,0,1). *)
Definition world_behind : World :=
  world (mkVector3d 0 0 1) (mkVector3d (-2) 0 1) origin false.

(** Stand-ins for the pose operations of the math library. *)
Definition pose_add (a b : Pose3d) : Pose3d :=
  mkPose3d (Vector3d.add (Pos a) (Pos b)) (Rot b).
Definition pose_str (p : Pose3d) : string := "0 0 0 0 0 0"%string.

Definition ghost_pose (x : R) : Pose3d :=
  mkPose3d (mkVector3d x 0 0) (mkQuaterniond 0 0 0).

(** A scene without any ghost. *)
Definition scene_empty : CreateActorPlugin.Scene := fun _ => None.

(** A scene with the first ghost only. *)
Definition scene_one : CreateActorPlugin.Scene :=
  fun name =>
    if String.eqb name "ghost" then Some (ghost_pose 0) else None.

(** A scene with the ghosts "ghost", "ghost_0" and "ghost_2": the one
    numbered 1 is missing. *)
Definition scene_gap : CreateActorPlugin.Scene :=
  fun name =>
    if String.eqb name "ghost" then Some (ghost_pose 0)
    else if String.eqb name "ghost_0" then Some (ghost_pose 1)
    else if String.eqb name "ghost_2" then Some (ghost_pose 2)
    else None.

(** The wizard as its constructor leaves it. *)
Definition wizard : CreateActorPlugin.State := CreateActorPlugin.wizard_new.

End Scenario.
(** * Properties *)

(** ** Comparisons of doubles *)

Lemma Rleb_true (a b : R) : a <= b -> Rleb a b = true.
Proof. intros H. unfold Rleb. destruct (Rle_dec a b); [reflexivity | contradiction]. Qed.

Lemma Rleb_false (a b : R) : b < a -> Rleb a b = false.
Proof. intros H. unfold Rleb. destruct (Rle_dec a b); [lra | reflexivity]. Qed.

Lemma Rltb_true (a b : R) : a < b -> Rltb a b = true.
Proof. intros H. unfold Rltb. destruct (Rlt_dec a b); [reflexivity | contradiction]. Qed.

Lemma Rltb_false (a b : R) : b <= a -> Rltb a b = false.
Proof. intros H. unfold Rltb. destruct (Rlt_dec a b); [lra | reflexivity]. Qed.

Lemma Rltb_spec (a b : R) : Rltb a b = true <-> a < b.
Proof.
  split; [| apply Rltb_true].
  unfold Rltb. destruct (Rlt_dec a b); [trivial | discriminate].
Qed.

Lemma Rgtb_false_iff (a b : R) : Rgtb a b = false <-> a <= b.
Proof.
  unfold Rgtb, Rltb. destruct (Rlt_dec b a); split; intros; try lra; try discriminate; reflexivity.
Qed.

Lemma Reqb_true (a b : R) : a = b -> Reqb a b = true.
Proof. intros H. unfold Reqb. destruct (Req_dec_T a b); [reflexivity | contradiction]. Qed.

Lemma Reqb_false (a b : R) : a <> b -> Reqb a b = false.
Proof. intros H. unfold Reqb. destruct (Req_dec_T a b); [contradiction | reflexivity]. Qed.

(** Decide the comparisons of concrete doubles left in the goal. *)
Ltac Rdecide :=
  repeat match goal with
    | |- context [Rleb ?a ?b] =>
        first [ rewrite (Rleb_true a b) by lra | rewrite (Rleb_false a b) by lra ]
    | |- context [Rltb ?a ?b] =>
        first [ rewrite (Rltb_true a b) by lra | rewrite (Rltb_false a b) by lra ]
    end.

(** ** Vectors *)

Lemma list_set_length {A : Type} (v : list A) (n : nat) (x : A) :
  List.length (list_set v n x) = List.length v.
Proof.
  revert n. induction v as [| h t IH]; intros [| n]; simpl; auto.
Qed.

Lemma nth_error_list_set {A : Type} (v : list A) (n m : nat) (x : A) :
  nth_error (list_set v n x) m =
    if Nat.eqb n m then option_map (fun _ => x) (nth_error v m)
    else nth_error v m.
Proof.
  revert n m. induction v as [| h t IH]; intros [| n] [| m]; cbn; auto.
  destruct (Nat.eqb n m); reflexivity.
Qed.

Lemma nth_error_list_set_same {A : Type} (v : list A) (n : nat) (x : A) :
  (n < List.length v)%nat -> nth_error (list_set v n x) n = Some x.
Proof.
  intros H. rewrite nth_error_list_set, Nat.eqb_refl.
  destruct (nth_error v n) eqn:E; [reflexivity |].
  apply nth_error_None in E. lia.
Qed.

Lemma vec_at_of_nat {A : Type} (v : list A) (n : nat) :
  vec_at v (Z.of_nat n) = nth_error v n.
Proof.
  unfold vec_at. replace (Z.of_nat n <? 0)%Z with false by (symmetry; apply Z.ltb_ge; lia).
  now rewrite Nat2Z.id.
Qed.

Lemma vec_set_of_nat {A : Type} (v : list A) (n : nat) (x : A) :
  vec_set v (Z.of_nat n) x = list_set v n x.
Proof.
  unfold vec_set. replace (Z.of_nat n <? 0)%Z with false by (symmetry; apply Z.ltb_ge; lia).
  now rewrite Nat2Z.id.
Qed.

Lemma vec_set_length {A : Type} (v : list A) (i : Z) (x : A) :
  List.length (vec_set v i x) = List.length v.
Proof.
  unfold vec_set. destruct (i <? 0)%Z; [reflexivity | apply list_set_length].
Qed.

Lemma vec_at_in_range {A : Type} (v : list A) (i : Z) :
  (0 <= i < Z.of_nat (List.length v))%Z -> exists x, vec_at v i = Some x.
Proof.
  intros [Hlo Hhi]. unfold vec_at.
  destruct (i <? 0)%Z eqn:E; [apply Z.ltb_lt in E; lia |].
  destruct (nth_error v (Z.to_nat i)) as [x |] eqn:N; [eauto |].
  apply nth_error_None in N. lia.
Qed.

Lemma vec_at_negative {A : Type} (v : list A) (i : Z) :
  (i < 0)%Z -> vec_at v i = None.
Proof.
  intros H. unfold vec_at. apply Z.ltb_lt in H. now rewrite H.
Qed.

Lemma wrap8_small (z : Z) : (0 <= z < 256)%Z -> wrap8 z = z.
Proof. intros H. unfold wrap8. now apply Z.mod_small. Qed.

Lemma Zgtb_true (a b : Z) : (b < a)%Z -> (a >? b)%Z = true.
Proof. intros H. rewrite Z.gtb_ltb. now apply Z.ltb_lt. Qed.

Lemma Zgtb_false (a b : Z) : (a <= b)%Z -> (a >? b)%Z = false.
Proof. intros H. rewrite Z.gtb_ltb. now apply Z.ltb_ge. Qed.

(** ** Checkpoint::Score *)

(** While [endTime] is unset the score is the time elapsed since [startTime],
    weighted. *)
Lemma Score_running {D : Type} (now : Time) (cp : Checkpoint D) :
  endTime cp = TimeOps.Zero ->
  Score now cp = (now - startTime cp) * weight cp.
Proof.
  intros H. unfold Score, TimeOps.eqb, TimeOps.sub, TimeOps.Double.
  rewrite Reqb_true by exact H. reflexivity.
Qed.

(** Once [endTime] is set the score no longer depends on the clock. *)
Lemma Score_ended {D : Type} (now : Time) (cp : Checkpoint D) :
  endTime cp <> TimeOps.Zero ->
  Score now cp = (endTime cp - startTime cp) * weight cp.
Proof.
  intros H. unfold Score, TimeOps.eqb, TimeOps.sub, TimeOps.Double.
  rewrite Reqb_false by exact H. reflexivity.
Qed.

(** With a non-negative weight the running score does not decrease as the
    clock advances. *)
Lemma Score_monotone {D : Type} (t1 t2 : Time) (cp : Checkpoint D) :
  0 <= weight cp -> endTime cp = TimeOps.Zero -> t1 <= t2 ->
  Score t1 cp <= Score t2 cp.
Proof.
  intros Hw He Ht. rewrite !Score_running by exact He.
  apply Rmult_le_compat_r; lra.
Qed.

(** ** ContainCheckpoint *)

Lemma unsubscribe_calls (l : list string) :
  forall n : Node,
    calls (fold_left (fun acc sub => Node_Unsubscribe sub acc) l n)
    = calls n ++ map Unsubscribe l.
Proof.
  induction l as [| t l IH]; intros n; cbn [fold_left map].
  - now rewrite app_nil_r.
  - rewrite IH. cbn [Node_Unsubscribe calls]. now rewrite <- app_assoc.
Qed.

Lemma Check_returns_containDone (cp : ContainCheckpoint) :
  fst (ContainCheckpoint_Check cp) = containDone (derived cp).
Proof.
  unfold ContainCheckpoint_Check.
  destruct (derived cp) as [n s e c]. destruct e, c; reflexivity.
Qed.

Lemma contain_step_containDone (cp : ContainCheckpoint) (e : ContainEvent) :
  containDone (derived (contain_step cp e)) =
    match e with
    | Contain b => b
    | _ => containDone (derived cp)
    end.
Proof.
  destruct e as [| b | r]; cbn [contain_step].
  - unfold ContainCheckpoint_Check.
    destruct (derived cp) as [n s en c]. destruct en, c; reflexivity.
  - reflexivity.
  - destruct r; reflexivity.
Qed.











(** ** Checkpoint::Score along the life of a checkpoint *)

(** No handler of a contain checkpoint assigns [startTime], [endTime] or
    [weight]. *)
Lemma contain_step_times (cp : ContainCheckpoint) (e : ContainEvent) :
  startTime (contain_step cp e) = startTime cp /\
  endTime (contain_step cp e) = endTime cp /\
  weight (contain_step cp e) = weight cp.
Proof.
  destruct e as [| b | r]; cbn [contain_step]; auto.
  destruct r; auto.
Qed.

Lemma contain_run_times (tr : list ContainEvent) :
  forall cp : ContainCheckpoint,
    startTime (contain_run tr cp) = startTime cp /\
    endTime (contain_run tr cp) = endTime cp /\
    weight (contain_run tr cp) = weight cp.
Proof.
  induction tr as [| e tr IH]; intros cp; [auto |].
  cbn [contain_run fold_left].
  destruct (IH (contain_step cp e)) as [H1 [H2 H3]].
  destruct (contain_step_times cp e) as [G1 [G2 G3]].
  unfold contain_run in *. repeat split; congruence.
Qed.

(** C4.  Whatever happens to a contain checkpoint after it was started at
    [t0], its score at time [now] is [(now - t0) * weight]: [endTime] is never
    assigned, so the score is never frozen.  In particular, a checkpoint of
    weight 2 is started at t = 10; its first check subscribes and asks the
    zone to enable, the reply arrives, the zone reports containment and the
    check at t = 25 returns true.  The score at t = 25 is 30, but [endTime] is
    still unset, and the score keeps growing: it is 32 at t = 26 and 60 at
    t = 40. *)
Theorem score_keeps_running_after_completion :
  (forall (w : R) (sdf_ns : option string) (n : nat) (t0 now : Time)
          (tr : list ContainEvent),
      Score now (contain_run tr (Start t0 (ContainCheckpoint_new w sdf_ns n)))
      = (now - t0) * w) /\
  let started := Start 10 (Scenario.zone_cp 2 1) in
  let waiting := contain_run [CallCheck; Reply true; Contain true] started in
  let complete := snd (ContainCheckpoint_Check waiting) in
  fst (ContainCheckpoint_Check started) = false /\
  fst (ContainCheckpoint_Check waiting) = true /\
  endTime complete = TimeOps.Zero /\
  Score 25 complete = 30 /\
  Score 26 complete = 32 /\
  Score 40 complete = 60.
Proof.
  split.
  - intros w sdf_ns n t0 now tr.
    destruct (contain_run_times tr (Start t0 (ContainCheckpoint_new w sdf_ns n)))
      as [H1 [H2 H3]].
    rewrite Score_running by (rewrite H2; reflexivity).
    rewrite H1, H3. reflexivity.
  - cbv zeta. repeat split; try reflexivity;
      rewrite Score_running by reflexivity; cbn; lra.
Qed.

(** C3.  A checkpoint that has not been started scores the simulation time
    times its weight: 75 at t = 25 for weight 3.  In a competition of two
    checkpoints whose task is started at t = 10, the score message published
    by the update at t = 25, while the first checkpoint is active, lists 30
    for the first checkpoint and 75 for the second, which has not been
    started. *)
Theorem unstarted_checkpoint_scores :
  (forall (w now : R) (n : nat),
      Score now (Scenario.zone_cp w n) = now * w) /\
  Score 25 (Scenario.zone_cp 3 2) = 75 /\
  exists d1 d2 msg,
    CompetitionPlugin.OnNewTaskRosService 10 Scenario.no_response
      Scenario.competition_2
    = Some (true, {| CompetitionPlugin.pick_up_location := "FrontElevator" |}, d1) /\
    CompetitionPlugin.run ContainCheckpoint_Check
      [CompetitionPlugin.Tick 10 (Scenario.info_at 10);
       CompetitionPlugin.Tick 25 (Scenario.info_at 25)] d1
    = Some (d2, 0%nat, [msg]) /\
    CompetitionPlugin.current d2 = 1%Z /\
    (exists cp, nth_error (CompetitionPlugin.checkpoints d2) 1 = Some cp /\
                startTime cp = TimeOps.Zero) /\
    CompetitionPlugin.msg_checkpoints msg = [30; 75] /\
    CompetitionPlugin.msg_score msg = 105.
Proof.
  assert (H : forall (w now : R) (n : nat),
             Score now (Scenario.zone_cp w n) = now * w).
  { intros w now n. rewrite Score_running by reflexivity.
    cbn. unfold TimeOps.Zero. lra. }
  split; [exact H |]. split; [rewrite H; lra |].
  eexists _, _, _. split; [reflexivity |].
  cbn [CompetitionPlugin.run CompetitionPlugin.step CompetitionPlugin.counts].
  unfold CompetitionPlugin.OnUpdate, CompetitionPlugin.progresses,
    CompetitionPlugin.advance, CompetitionPlugin.publish_score.
  cbn. unfold TimeOps.sub. Rdecide. cbn. Rdecide.
  unfold Score, TimeOps.eqb, TimeOps.sub, TimeOps.Double, TimeOps.Zero. cbn.
  rewrite !Reqb_true by reflexivity.
  split; [reflexivity |]. split; [reflexivity |].
  split; [eexists; split; reflexivity |]. split.
  - cbn. unfold TimeOps.Zero.
    apply f_equal2; [lra | apply f_equal2; [lra | reflexivity]].
  - cbn. unfold TimeOps.Zero. lra.
Qed.

(** ** CompetitionPlugin *)

Section CompetitionFacts.

Import CompetitionPlugin.

Variable Derived : Type.
Variable Check : Checkpoint Derived -> bool * Checkpoint Derived.

Local Notation "'Private'" := (CompetitionPluginPrivate Derived).

Lemma publish_score_current now info (d : Private) :
  current (fst (publish_score now info d)) = current d.
Proof.
  unfold publish_score. destruct (Rltb _ _); reflexivity.
Qed.

Lemma publish_score_checkpoints now info (d : Private) :
  checkpoints (fst (publish_score now info d)) = checkpoints d.
Proof.
  unfold publish_score. destruct (Rltb _ _); reflexivity.
Qed.

(** What the first half of the update does when the index points inside the
    list and can still be incremented in 8 bits. *)
Lemma advance_spec now (d : Private) :
  (1 <= current d <= Z.of_nat (List.length (checkpoints d)))%Z ->
  (current d <= 254)%Z ->
  exists cp,
    vec_at (checkpoints d) (current d - 1) = Some cp /\
    let cps' := vec_set (checkpoints d) (current d - 1) (snd (Check cp)) in
    if fst (Check cp) then
      if (current d =? Z.of_nat (List.length (checkpoints d)))%Z then
        advance Check now d = Some (set_current 0%Z (set_current (current d + 1)%Z (set_checkpoints cps' d)))
      else
        exists nx,
          vec_at cps' (current d) = Some nx /\
          advance Check now d =
            Some (set_checkpoints (vec_set cps' (current d) (Start now nx))
                    (set_current (current d + 1)%Z (set_checkpoints cps' d)))
    else advance Check now d = Some (set_checkpoints cps' d).
Proof.
  intros Hr H8.
  destruct (vec_at_in_range (checkpoints d) (current d - 1)) as [cp Hcp]; [lia |].
  exists cp. split; [exact Hcp |].
  unfold advance. rewrite Hcp.
  destruct (Check cp) as [r cp'] eqn:EC. cbn [fst snd].
  destruct r; [| reflexivity].
  cbn [current checkpoints set_current set_checkpoints].
  rewrite wrap8_small by lia.
  rewrite vec_set_length.
  destruct (current d =? Z.of_nat (List.length (checkpoints d)))%Z eqn:EN.
  - apply Z.eqb_eq in EN.
    replace (current d + 1 >? Z.of_nat (List.length (checkpoints d)))%Z with true
      by (symmetry; apply Zgtb_true; lia).
    reflexivity.
  - apply Z.eqb_neq in EN.
    replace (current d + 1 >? Z.of_nat (List.length (checkpoints d)))%Z with false
      by (symmetry; apply Zgtb_false; lia).
    replace (current d + 1 - 1)%Z with (current d) by lia.
    destruct (vec_at_in_range
                (vec_set (checkpoints d) (current d - 1) cp') (current d))
      as [nx Hnx]; [rewrite vec_set_length; lia |].
    exists nx. split; [exact Hnx |]. rewrite Hnx. reflexivity.
Qed.

(** The whole update, under the same conditions. *)
Lemma tick_spec now info (d : Private) :
  (1 <= current d <= Z.of_nat (List.length (checkpoints d)))%Z ->
  (current d <= 254)%Z ->
  exists cp d' m,
    vec_at (checkpoints d) (current d - 1) = Some cp /\
    OnUpdate Check now info d = Some (d', m) /\
    progresses Check d = fst (Check cp) /\
    let cps' := vec_set (checkpoints d) (current d - 1) (snd (Check cp)) in
    if fst (Check cp) then
      if (current d =? Z.of_nat (List.length (checkpoints d)))%Z then
        current d' = 0%Z /\ checkpoints d' = cps'
      else
        current d' = (current d + 1)%Z /\
        exists nx, vec_at cps' (current d) = Some nx /\
                   checkpoints d' = vec_set cps' (current d) (Start now nx)
    else current d' = current d /\ checkpoints d' = cps'.
Proof.
  intros Hr H8.
  destruct (advance_spec now d Hr H8) as [cp [Hcp Hadv]].
  cbv zeta in Hadv. exists cp.
  assert (Hup : forall d', advance Check now d = Some d' ->
            OnUpdate Check now info d = Some (publish_score now info d')).
  { intros d' Hd'. unfold OnUpdate.
    replace (current d =? 0)%Z with false by (symmetry; apply Z.eqb_neq; lia).
    now rewrite Hd'. }
  assert (Hp : progresses Check d = fst (Check cp)).
  { unfold progresses.
    replace (current d =? 0)%Z with false by (symmetry; apply Z.eqb_neq; lia).
    now rewrite Hcp. }
  cbv zeta.
  destruct (fst (Check cp)).
  - destruct (current d =? Z.of_nat (List.length (checkpoints d)))%Z.
    + eexists _, _. split; [exact Hcp |].
      split; [rewrite (Hup _ Hadv); apply f_equal, surjective_pairing |].
      split; [exact Hp |].
      rewrite publish_score_current, publish_score_checkpoints. split; reflexivity.
    + destruct Hadv as [nx [Hnx Hadv]].
      eexists _, _. split; [exact Hcp |].
      split; [rewrite (Hup _ Hadv); apply f_equal, surjective_pairing |].
      split; [exact Hp |].
      rewrite publish_score_current, publish_score_checkpoints.
      split; [reflexivity |]. exists nx. split; [exact Hnx | reflexivity].
  - eexists _, _. split; [exact Hcp |].
    split; [rewrite (Hup _ Hadv); apply f_equal, surjective_pairing |].
    split; [exact Hp |].
    rewrite publish_score_current, publish_score_checkpoints. split; reflexivity.
Qed.

(** An update that finds its checkpoint not yet complete. *)
Lemma tick_waiting now info (d : Private) cp :
  current d <> 0%Z ->
  vec_at (checkpoints d) (current d - 1) = Some cp ->
  fst (Check cp) = false ->
  exists d' m,
    OnUpdate Check now info d = Some (d', m) /\
    progresses Check d = false /\
    current d' = current d /\
    checkpoints d' = vec_set (checkpoints d) (current d - 1) (snd (Check cp)).
Proof.
  intros Hc Hcp Hf. unfold OnUpdate, progresses, advance.
  replace (current d =? 0)%Z with false by (symmetry; now apply Z.eqb_neq).
  rewrite Hcp. destruct (Check cp) as [r cp']. cbn [fst snd] in *. subst r.
  eexists _, _. split; [apply f_equal, surjective_pairing |].
  rewrite publish_score_current, publish_score_checkpoints. auto.
Qed.

(** With the index at 255 and the checkpoint there complete, the increment
    wraps to 0, which does not exceed the list size, and the handler indexes
    the vector at [0 - 1]. *)
Lemma tick_wraps now info (d : Private) cp :
  current d = 255%Z ->
  vec_at (checkpoints d) 254 = Some cp ->
  fst (Check cp) = true ->
  OnUpdate Check now info d = None.
Proof.
  intros Hc Hcp Ht. unfold OnUpdate, advance. rewrite Hc. cbn [Z.eqb].
  change (255 - 1)%Z with 254%Z. rewrite Hcp.
  destruct (Check cp) as [r cp']. cbn in Ht. subst r.
  cbn [current checkpoints set_current set_checkpoints].
  rewrite !Hc. change (wrap8 (255 + 1)) with 0%Z.
  rewrite Zgtb_false by lia.
  now rewrite vec_at_negative by lia.
Qed.

Lemma step_async i f (d : Private) cp :
  nth_error (checkpoints d) i = Some cp ->
  step Check (Async i f) d =
    Some (set_checkpoints (list_set (checkpoints d) i (f cp)) d, None).
Proof. intros H. cbn [step]. now rewrite H. Qed.

Lemma run_app tr1 tr2 (d : Private) :
  run Check (tr1 ++ tr2) d =
    match run Check tr1 d with
    | None => None
    | Some (d1, k1, ms1) =>
        match run Check tr2 d1 with
        | None => None
        | Some (d2, k2, ms2) => Some (d2, (k1 + k2)%nat, ms1 ++ ms2)
        end
    end.
Proof.
  revert d. induction tr1 as [| e tr1 IH]; intros d.
  - cbn [app run]. destruct (run Check tr2 d) as [[[d2 k2] ms2] |]; reflexivity.
  - cbn [app run]. destruct (step Check e d) as [[d' m] |]; [| reflexivity].
    rewrite IH. destruct (run Check tr1 d') as [[[d1 k1] ms1] |]; [| reflexivity].
    destruct (run Check tr2 d1) as [[[d2 k2] ms2] |]; [| reflexivity].
    rewrite Nat.add_assoc. destruct m; reflexivity.
Qed.

Lemma step_task_inv (N : nat) (d : Private) (k : nat) (e : Event Derived) :
  (N <= 254)%nat -> task_inv N d k ->
  exists d' m,
    step Check e d = Some (d', m) /\
    task_inv N d' (k + counts Check e d).
Proof.
  intros HN [HL HI]. destruct e as [now info | i f].
  - (* world update *)
    cbn [step counts]. unfold OnUpdate, progresses.
    destruct HI as [[Hk Hc] | [Hk Hc]].
    + assert (Hr : (1 <= current d <= Z.of_nat (List.length (checkpoints d)))%Z) by lia.
      assert (H8 : (current d <= 254)%Z) by lia.
      destruct (advance_spec now d Hr H8) as [cp [Hcp Hadv]].
      replace (current d =? 0)%Z with false by (symmetry; apply Z.eqb_neq; lia).
      rewrite Hcp. cbv zeta in Hadv.
      destruct (fst (Check cp)).
      * destruct (current d =? Z.of_nat (List.length (checkpoints d)))%Z eqn:EN.
        -- apply Z.eqb_eq in EN. rewrite Hadv.
           eexists _, _. split; [rewrite (surjective_pairing (publish_score _ _ _)); reflexivity |].
           split.
           ++ rewrite publish_score_checkpoints. cbn. now rewrite vec_set_length.
           ++ right. rewrite publish_score_current. cbn. split; [lia | reflexivity].
        -- apply Z.eqb_neq in EN. destruct Hadv as [nx [_ Hadv]]. rewrite Hadv.
           eexists _, _. split; [rewrite (surjective_pairing (publish_score _ _ _)); reflexivity |].
           split.
           ++ rewrite publish_score_checkpoints. cbn. now rewrite !vec_set_length.
           ++ left. rewrite publish_score_current. cbn. split; lia.
      * rewrite Hadv.
        eexists _, _. split; [rewrite (surjective_pairing (publish_score _ _ _)); reflexivity |].
        split.
        -- rewrite publish_score_checkpoints. cbn. now rewrite vec_set_length.
        -- left. rewrite publish_score_current. cbn. split; lia.
    + rewrite Hc. cbn. eexists _, _. split; [reflexivity |].
      split; [exact HL |]. right. split; [lia | exact Hc].
  - (* callback *)
    cbn [step counts]. rewrite Nat.add_0_r.
    destruct (nth_error (checkpoints d) i) as [cp |].
    + eexists _, _. split; [reflexivity |].
      split; [cbn; now rewrite list_set_length | exact HI].
    + eexists _, _. split; [reflexivity |]. split; assumption.
Qed.

Lemma run_task_inv (N : nat) (tr : list (Event Derived)) :
  (N <= 254)%nat ->
  forall (d : Private) (k : nat), task_inv N d k ->
  exists d' j ms,
    run Check tr d = Some (d', j, ms) /\ task_inv N d' (k + j).
Proof.
  intros HN. induction tr as [| e tr IH]; intros d k HI.
  - exists d, 0%nat, []. split; [reflexivity |]. now rewrite Nat.add_0_r.
  - destruct (step_task_inv N d k e HN HI) as [d1 [m [Hs HI1]]].
    destruct (IH d1 _ HI1) as [d2 [j [ms [Hr HI2]]]].
    cbn [run]. rewrite Hs, Hr.
    eexists _, _, _. split; [reflexivity |].
    now rewrite Nat.add_assoc.
Qed.

Lemma publish_score_pickUpLocation now info (d : Private) :
  pickUpLocation (fst (publish_score now info d)) = pickUpLocation d.
Proof.
  unfold publish_score. destruct (Rltb _ _); reflexivity.
Qed.

Lemma advance_pickUpLocation now (d d' : Private) :
  advance Check now d = Some d' -> pickUpLocation d' = pickUpLocation d.
Proof.
  unfold advance.
  destruct (vec_at (checkpoints d) (current d - 1)) as [cp |]; [| discriminate].
  destruct (Check cp) as [r cp']. destruct r.
  - cbn [current checkpoints set_current set_checkpoints].
    destruct (_ >? _)%Z.
    + intros H. injection H as <-. reflexivity.
    + destruct (vec_at _ _); [| discriminate].
      intros H. injection H as <-. reflexivity.
  - intros H. injection H as <-. reflexivity.
Qed.

Lemma step_pickUpLocation e (d d' : Private) m :
  step Check e d = Some (d', m) -> pickUpLocation d' = pickUpLocation d.
Proof.
  destruct e as [now info | i f]; cbn [step].
  - unfold OnUpdate. destruct (current d =? 0)%Z.
    + intros H. injection H as <- _. reflexivity.
    + destruct (advance Check now d) as [d2 |] eqn:Ha; [| discriminate].
      intros H. injection H as H.
      apply (f_equal fst) in H. cbn [fst] in H. subst d'.
      rewrite publish_score_pickUpLocation. now apply advance_pickUpLocation in Ha.
  - destruct (nth_error (checkpoints d) i); intros H; injection H as <- _; reflexivity.
Qed.

Lemma run_pickUpLocation tr :
  forall (d d' : Private) k ms,
    run Check tr d = Some (d', k, ms) -> pickUpLocation d' = pickUpLocation d.
Proof.
  induction tr as [| e tr IH]; intros d d' k ms H.
  - cbn in H. injection H as <- _ _. reflexivity.
  - cbn [run] in H.
    destruct (step Check e d) as [[d1 m] |] eqn:Hs; [| discriminate].
    destruct (run Check tr d1) as [[[d2 j] ms'] |] eqn:Hr; [| discriminate].
    injection H as <- _ _.
    rewrite (IH _ _ _ _ Hr). now apply step_pickUpLocation in Hs.
Qed.

Lemma new_task_refused now res (d : Private) :
  current d <> 0%Z ->
  OnNewTaskRosService now res d = Some (false, res, d).
Proof.
  intros H. unfold OnNewTaskRosService.
  replace (current d =? 0)%Z with false by (symmetry; now apply Z.eqb_neq).
  reflexivity.
Qed.

Lemma new_task_accepted now res (d : Private) cp rest :
  current d = 0%Z -> checkpoints d = cp :: rest ->
  OnNewTaskRosService now res d =
    Some (true, {| pick_up_location := pickUpLocation d |},
          set_checkpoints (Start now cp :: rest) (set_current 1%Z d)).
Proof.
  intros Hc Hl. unfold OnNewTaskRosService. rewrite Hc. cbn. rewrite Hl.
  reflexivity.
Qed.

(** [Load] advertises the new-task service only after it has created the
    checkpoint: whenever the service can be called, the list holds exactly
    one checkpoint and no task is running. *)
Lemma Load_service_has_checkpoint (Sdf : Type)
    (CP_GoToPickUp_new : Sdf -> Checkpoint Derived) ros sdf :
  newTaskRosService (Load CP_GoToPickUp_new ros sdf) = true ->
  List.length (checkpoints (dataPtr (Load CP_GoToPickUp_new ros sdf))) = 1%nat /\
  current (dataPtr (Load CP_GoToPickUp_new ros sdf)) = 0%Z.
Proof.
  unfold Load.
  destruct (sdf_pick_up_location sdf); [| discriminate].
  destruct ros; cbn; [| discriminate].
  destruct (sdf_score_frequency sdf); cbn; auto.
Qed.

End CompetitionFacts.

Section CompetitionClaims.

Import CompetitionPlugin.



(** C2, as the code has it.  [OnNewTaskRosService] fails, leaving the plugin
    state (and so the index) and the response untouched, whenever
    [current != 0]; with [current == 0] and a first checkpoint in the list it
    succeeds: it sets [current = 1], calls [Start()] on the first
    checkpoint and returns the pick-up location in the response.  The
    service is advertised by [Load] only together with a checkpoint. *)
Theorem new_task_spec :
  forall (Derived : Type) (now : Time) (_res : NewTaskResponse)
         (d : CompetitionPluginPrivate Derived),
    (current d <> 0%Z ->
     OnNewTaskRosService now _res d = Some (false, _res, d)) /\
    (current d = 0%Z ->
     forall cp rest, checkpoints d = cp :: rest ->
       OnNewTaskRosService now _res d =
         Some (true, {| pick_up_location := pickUpLocation d |},
               set_checkpoints (Start now cp :: rest) (set_current 1%Z d))) /\
    (forall (Sdf : Type) (mk : Sdf -> Checkpoint Derived) ros sdf,
        newTaskRosService (Load mk ros sdf) = true ->
        exists cp, checkpoints (dataPtr (Load mk ros sdf)) = [cp]).
Proof.
  intros Derived now _res d. split; [| split].
  - apply new_task_refused.
  - intros Hc cp rest Hl. now apply new_task_accepted.
  - intros Sdf mk ros sdf H.
    destruct (Load_service_has_checkpoint Derived Sdf mk ros sdf H) as [HL _].
    destruct (checkpoints (dataPtr (Load mk ros sdf))) as [| cp [| ? ?]];
      try discriminate. now exists cp.
Qed.

Lemma new_task_spec_witness :
  OnNewTaskRosService 10 Scenario.no_response Scenario.competition_1 =
    Some (true, {| pick_up_location := "FrontElevator"%string |},
          set_checkpoints [Start 10 (Scenario.zone_cp 2 1)]
            (set_current 1%Z Scenario.competition_1))
  /\ OnNewTaskRosService 11 Scenario.no_response
       (set_current 1%Z Scenario.competition_1) =
     Some (false, Scenario.no_response, set_current 1%Z Scenario.competition_1).
Proof.
  split.
  - apply (new_task_spec ContainMembers 10 Scenario.no_response
             Scenario.competition_1); reflexivity.
  - apply (new_task_spec ContainMembers 11 Scenario.no_response
             (set_current 1%Z Scenario.competition_1)).
    cbn. discriminate.
Defined.

(** C2 as stated fails on an empty checkpoint list: the handler has no
    emptiness test, sets [current = 1] and indexes the empty vector, so it
    does not return a failure. *)
Lemma new_task_empty_list_counterexample :
  checkpoints Scenario.competition_0 = [] /\
  current Scenario.competition_0 = 0%Z /\
  OnNewTaskRosService 10 Scenario.no_response Scenario.competition_0 = None /\
  ~ (exists res' d',
        OnNewTaskRosService 10 Scenario.no_response Scenario.competition_0
        = Some (false, res', d')).
Proof.
  repeat split.
  intros [res' [d' H]]. discriminate H.
Qed.

End CompetitionClaims.

Section ContainCycle.

Import CompetitionPlugin.

Lemma fresh_Check (cp : ContainCheckpoint) :
  Scenario.fresh cp ->
  fst (ContainCheckpoint_Check cp) = false /\
  Scenario.fresh (snd (ContainCheckpoint_Check cp)).
Proof.
  intros [He Hd]. unfold ContainCheckpoint_Check, Scenario.fresh.
  rewrite He, Hd. cbn. rewrite He, Hd. cbn. auto.
Qed.

Lemma reached_Check (cp : ContainCheckpoint) :
  Scenario.fresh cp ->
  fst (ContainCheckpoint_Check (OnContain true (EnableCallback true cp))) = true.
Proof.
  intros [He Hd]. rewrite Check_returns_containDone. reflexivity.
Qed.

Lemma tail_fresh_list_set (k n : nat) (x : ContainCheckpoint)
    (v : list ContainCheckpoint) :
  (forall j cp, (k <= j)%nat -> nth_error v j = Some cp -> Scenario.fresh cp) ->
  (n < k)%nat \/ Scenario.fresh x ->
  forall j cp, (k <= j)%nat -> nth_error (list_set v n x) j = Some cp ->
               Scenario.fresh cp.
Proof.
  intros Hv Hx j cp Hj. rewrite nth_error_list_set.
  destruct (Nat.eqb n j) eqn:E.
  - apply Nat.eqb_eq in E. subst j. destruct Hx as [Hx | Hx]; [lia |].
    destruct (nth_error v n); cbn; [| discriminate].
    intros H. injection H as <-. exact Hx.
  - now apply Hv.
Qed.

(** The state in which the checkpoint at position [i] has been checked
    once, enabled and reached. *)
Lemma completion_prefix (i : nat) (d : CompetitionPluginPrivate ContainMembers) :
  (i <= 254)%nat -> Scenario.at_checkpoint i d ->
  exists d3 ms cp,
    run ContainCheckpoint_Check
      [Tick 0 (Scenario.info_at 0); Async i (EnableCallback true);
       Async i (OnContain true)] d
    = Some (d3, 0%nat, ms) /\
    current d3 = (Z.of_nat i + 1)%Z /\
    List.length (checkpoints d3) = 255%nat /\
    nth_error (checkpoints d3) i = Some cp /\
    fst (ContainCheckpoint_Check cp) = true /\
    (forall j c, (S i <= j)%nat -> nth_error (checkpoints d3) j = Some c ->
                 Scenario.fresh c).
Proof.
  intros Hi [Hc [HL HF]].
  destruct (nth_error (checkpoints d) i) as [cp |] eqn:Hcp;
    [| apply nth_error_None in Hcp; lia].
  destruct (fresh_Check cp (HF i cp (Nat.le_refl i) Hcp)) as [Hf Hfr].
  destruct (tick_waiting ContainMembers ContainCheckpoint_Check 0
              (Scenario.info_at 0) d cp)
    as [d1 [m [Hu [Hp [Hc1 Hl1]]]]];
    [lia | replace (current d - 1)%Z with (Z.of_nat i) by lia;
           now rewrite vec_at_of_nat | exact Hf |].
  replace (current d - 1)%Z with (Z.of_nat i) in Hl1 by lia.
  rewrite vec_set_of_nat in Hl1.
  assert (Hi1 : nth_error (checkpoints d1) i = Some (snd (ContainCheckpoint_Check cp))).
  { rewrite Hl1. apply nth_error_list_set_same. lia. }
  set (cpe := EnableCallback true (snd (ContainCheckpoint_Check cp))).
  set (d2 := set_checkpoints (list_set (checkpoints d1) i cpe) d1).
  assert (Hi2 : nth_error (checkpoints d2) i = Some cpe).
  { unfold d2. cbn [checkpoints set_checkpoints].
    apply nth_error_list_set_same. rewrite Hl1, list_set_length. lia. }
  set (cpr := OnContain true cpe).
  set (d3 := set_checkpoints (list_set (checkpoints d2) i cpr) d2).
  exists d3, (match m with Some x => [x] | None => [] end), cpr.
  split.
  { cbn [run].
    change (step ContainCheckpoint_Check (Tick 0 (Scenario.info_at 0)) d)
      with (OnUpdate ContainCheckpoint_Check 0 (Scenario.info_at 0) d).
    rewrite Hu.
    rewrite (step_async ContainMembers ContainCheckpoint_Check i _ d1 _ Hi1).
    rewrite (step_async ContainMembers ContainCheckpoint_Check i _ d2 _ Hi2).
    cbn [counts]. rewrite Hp. destruct m; reflexivity. }
  split; [cbn; lia |].
  split; [cbn; rewrite !list_set_length, Hl1, list_set_length; exact HL |].
  split.
  { unfold d3. cbn [checkpoints set_checkpoints].
    apply nth_error_list_set_same.
    unfold d2. cbn [checkpoints set_checkpoints].
    rewrite list_set_length, Hl1, list_set_length. lia. }
  split; [apply reached_Check; exact Hfr |].
  unfold d3, d2. cbn [checkpoints set_checkpoints]. rewrite Hl1.
  apply tail_fresh_list_set; [| left; lia].
  apply tail_fresh_list_set; [| left; lia].
  apply tail_fresh_list_set; [| left; lia].
  intros j c Hj. apply HF. lia.
Qed.

Lemma completion_ok (i : nat) (d : CompetitionPluginPrivate ContainMembers) :
  (i < 254)%nat -> Scenario.at_checkpoint i d ->
  exists d' ms,
    run ContainCheckpoint_Check (Scenario.completion_events i) d
    = Some (d', 1%nat, ms) /\
    Scenario.at_checkpoint (S i) d'.
Proof.
  intros Hi HI.
  destruct (completion_prefix i d) as [d3 [ms [cp [Hr [Hc [HL [Hcp [Ht HF]]]]]]]];
    [lia | exact HI |].
  destruct (tick_spec ContainMembers ContainCheckpoint_Check 0 (Scenario.info_at 0) d3)
    as [cp' [d4 [m [Hcp' [Hu [Hp Hspec]]]]]]; [lia | lia |].
  replace (current d3 - 1)%Z with (Z.of_nat i) in * by lia.
  rewrite vec_at_of_nat, Hcp in Hcp'. injection Hcp' as Heq. subst cp'.
  cbv zeta in Hspec. unfold ContainCheckpoint in *. rewrite Ht in Hp, Hspec.
  replace (current d3 =? Z.of_nat (List.length (checkpoints d3)))%Z with false in Hspec
    by (symmetry; apply Z.eqb_neq; lia).
  destruct Hspec as [Hc4 [nx [Hnx Hl4]]].
  replace (current d3) with (Z.of_nat (S i)) in Hnx, Hl4 by lia.
  rewrite vec_set_of_nat in Hnx, Hl4. rewrite vec_at_of_nat in Hnx.
  rewrite vec_set_of_nat in Hl4.
  change (Scenario.completion_events i)
    with ([Tick 0 (Scenario.info_at 0); Async i (EnableCallback true);
           Async i (OnContain true)] ++ [Tick (Derived:=ContainMembers) 0 (Scenario.info_at 0)]).
  rewrite run_app, Hr. cbn [run step counts]. rewrite Hu, Hp.
  eexists _, _. split; [reflexivity |].
  split; [lia |]. split; [rewrite Hl4, !list_set_length; exact HL |].
  rewrite Hl4.
  assert (HF' : forall j c, (S i <= j)%nat ->
             nth_error (list_set (checkpoints d3) i
                          (snd (ContainCheckpoint_Check cp))) j = Some c ->
             Scenario.fresh c)
    by (apply tail_fresh_list_set; [exact HF | left; lia]).
  apply tail_fresh_list_set; [exact HF' | right].
  exact (HF' (S i) nx (Nat.le_refl _) Hnx).
Qed.

Lemma completion_wraps (d : CompetitionPluginPrivate ContainMembers) :
  Scenario.at_checkpoint 254 d ->
  run ContainCheckpoint_Check (Scenario.completion_events 254) d = None.
Proof.
  intros HI.
  destruct (completion_prefix 254 d) as [d3 [ms [cp [Hr [Hc [HL [Hcp [Ht HF]]]]]]]];
    [lia | exact HI |].
  change (Scenario.completion_events 254)
    with ([Tick 0 (Scenario.info_at 0); Async 254 (EnableCallback true);
           Async 254 (OnContain true)] ++ [Tick (Derived:=ContainMembers) 0 (Scenario.info_at 0)]).
  rewrite run_app, Hr. cbn [run step].
  rewrite (tick_wraps ContainMembers ContainCheckpoint_Check 0 (Scenario.info_at 0) d3 cp);
    [reflexivity | exact Hc | | exact Ht].
  change 254%Z with (Z.of_nat 254). now rewrite vec_at_of_nat.
Qed.

Lemma completions_S (n : nat) :
  Scenario.completions (S n) = Scenario.completions n ++ Scenario.completion_events n.
Proof.
  unfold Scenario.completions. rewrite seq_S, flat_map_app. cbn [flat_map Nat.add].
  now rewrite app_nil_r.
Qed.

Lemma completions_ok (n : nat) (d : CompetitionPluginPrivate ContainMembers) :
  (n <= 254)%nat -> Scenario.at_checkpoint 0 d ->
  exists d' ms,
    run ContainCheckpoint_Check (Scenario.completions n) d = Some (d', n, ms) /\
    Scenario.at_checkpoint n d'.
Proof.
  intros Hn HI. induction n as [| n IH].
  - exists d, []. split; [reflexivity | exact HI].
  - destruct IH as [d1 [ms1 [Hr1 HI1]]]; [lia |].
    destruct (completion_ok n d1) as [d2 [ms2 [Hr2 HI2]]]; [lia | exact HI1 |].
    rewrite completions_S, run_app, Hr1, Hr2.
    exists d2, (ms1 ++ ms2). split; [| exact HI2].
    now rewrite Nat.add_1_r.
Qed.

End ContainCycle.

Section CycleClaim.

Import CompetitionPlugin.

(** C1, as the code has it.  The world-update handler is a no-op when
    [current == 0].  With [current] inside the list (and below 255, the
    index being 8 bits wide) it calls [Check()] on the checkpoint at
    position [current - 1]; if that returns true it increments [current],
    resets it to 0 when it then exceeds the number of checkpoints, and
    otherwise calls [Start()] on the newly active checkpoint.  Consequently,
    for every list of [N] checkpoints with [1 <= N <= 254], a task that has
    been started stays defined under any sequence of updates and callbacks,
    its index is [k + 1] after [k < N] completed checkpoints, and after [N]
    of them the index is back at 0 and a new task start succeeds. *)
Theorem competition_cycle :
  forall (Derived : Type) (Check : Checkpoint Derived -> bool * Checkpoint Derived)
         (now : Time) (_info : UpdateInfo) (d : CompetitionPluginPrivate Derived),
    let N := List.length (checkpoints d) in
    (current d = 0%Z -> OnUpdate Check now _info d = Some (d, None)) /\
    ((1 <= current d <= Z.of_nat N)%Z -> (current d <= 254)%Z ->
     exists cp d',
       vec_at (checkpoints d) (current d - 1) = Some cp /\
       advance Check now d = Some d' /\
       OnUpdate Check now _info d = Some (publish_score now _info d') /\
       let cps' := vec_set (checkpoints d) (current d - 1) (snd (Check cp)) in
       if fst (Check cp) then
         if (current d =? Z.of_nat N)%Z then
           current d' = 0%Z /\ checkpoints d' = cps'
         else
           current d' = (current d + 1)%Z /\
           exists nx, vec_at cps' (current d) = Some nx /\
                      checkpoints d' = vec_set cps' (current d) (Start now nx)
       else current d' = current d /\ checkpoints d' = cps') /\
    ((1 <= N <= 254)%nat -> current d = 0%Z ->
     forall _res, exists d1,
       OnNewTaskRosService now _res d =
         Some (true, {| pick_up_location := pickUpLocation d |}, d1) /\
       current d1 = 1%Z /\
       forall tr, exists d2 k ms,
         run Check tr d1 = Some (d2, k, ms) /\
         (k <= N)%nat /\
         ((k < N)%nat -> current d2 = (Z.of_nat k + 1)%Z) /\
         (k = N -> current d2 = 0%Z /\
                   forall now' _res', exists d3,
                     OnNewTaskRosService now' _res' d2 =
                       Some (true, {| pick_up_location := pickUpLocation d |}, d3) /\
                     current d3 = 1%Z)).
Proof.
  intros Derived Check now _info d N. split; [| split].
  - intros Hc. unfold OnUpdate. now rewrite Hc.
  - intros Hr H8.
    destruct (advance_spec Derived Check now d Hr H8) as [cp [Hcp Hadv]].
    cbv zeta in Hadv. cbv zeta. fold N in Hadv.
    assert (Hup : forall d', advance Check now d = Some d' ->
              OnUpdate Check now _info d = Some (publish_score now _info d')).
    { intros d' Hd'. unfold OnUpdate.
      replace (current d =? 0)%Z with false by (symmetry; apply Z.eqb_neq; lia).
      now rewrite Hd'. }
    exists cp.
    destruct (fst (Check cp)).
    + destruct (current d =? Z.of_nat N)%Z.
      * eexists. split; [exact Hcp |]. split; [exact Hadv |].
        split; [exact (Hup _ Hadv) |]. split; reflexivity.
      * destruct Hadv as [nx [Hnx Hadv]].
        eexists. split; [exact Hcp |]. split; [exact Hadv |].
        split; [exact (Hup _ Hadv) |]. split; [reflexivity |].
        exists nx. split; [exact Hnx | reflexivity].
    + eexists. split; [exact Hcp |]. split; [exact Hadv |].
      split; [exact (Hup _ Hadv) |]. split; reflexivity.
  - intros HN Hc _res.
    destruct (checkpoints d) as [| cp rest] eqn:Hl; [cbn in N; lia |].
    rewrite (new_task_accepted Derived now _res d cp rest Hc Hl).
    eexists. split; [reflexivity |]. split; [reflexivity |].
    intros tr.
    set (d1 := set_checkpoints (Start now cp :: rest) (set_current 1%Z d)).
    assert (HI : task_inv N d1 0).
    { split; [reflexivity |]. left. split; [lia | reflexivity]. }
    destruct (run_task_inv Derived Check N tr (proj2 HN) d1 0%nat HI)
      as [d2 [k [ms [Hrun [HL2 HI2]]]]].
    exists d2, k, ms. split; [exact Hrun |]. cbn [Nat.add] in HI2.
    assert (Hpick := run_pickUpLocation Derived Check tr d1 d2 k ms Hrun).
    change (pickUpLocation d1) with (pickUpLocation d) in Hpick.
    destruct HI2 as [[Hk Hcur] | [Hk Hcur]].
    + split; [lia |]. split; [intros _; exact Hcur |]. intros ->. lia.
    + split; [lia |]. split; [intros; lia |]. intros _. split; [exact Hcur |].
      intros now' _res'.
      destruct (checkpoints d2) as [| cp2 rest2] eqn:Hl2; [cbn in HL2; lia |].
      rewrite (new_task_accepted Derived now' _res' d2 cp2 rest2 Hcur Hl2).
      rewrite Hpick.
      eexists. split; reflexivity.
Qed.

Lemma competition_cycle_witness :
  exists d1,
    OnNewTaskRosService 10 Scenario.no_response Scenario.competition_1 =
      Some (true, {| pick_up_location := "FrontElevator"%string |}, d1) /\
    current d1 = 1%Z /\
    forall tr, exists d2 k ms,
      run ContainCheckpoint_Check tr d1 = Some (d2, k, ms) /\
      (k <= 1)%nat /\
      ((k < 1)%nat -> current d2 = (Z.of_nat k + 1)%Z) /\
      (k = 1%nat -> current d2 = 0%Z /\
                forall now' _res', exists d3,
                  OnNewTaskRosService now' _res' d2 =
                    Some (true, {| pick_up_location := "FrontElevator"%string |}, d3) /\
                  current d3 = 1%Z).
Proof.
  apply (competition_cycle ContainMembers ContainCheckpoint_Check 10
           (Scenario.info_at 10) Scenario.competition_1).
  - cbn. lia.
  - reflexivity.
Defined.

(** C1 as stated fails for 255 checkpoints: the index is a [uint8_t], so
    the increment after the 255th completed checkpoint wraps to 0, the test
    against the list size does not fire and the handler indexes the vector
    at [-1]; the run is undefined instead of ending with the index at 0.
    It also fails for an empty list, on which a task cannot be started. *)
Lemma competition_cycle_counterexample :
  (List.length (checkpoints Scenario.competition_255) = 255%nat /\
   exists d1,
     OnNewTaskRosService 0 Scenario.no_response Scenario.competition_255 =
       Some (true, {| pick_up_location := "FrontElevator"%string |}, d1) /\
     (forall n, (n <= 254)%nat -> exists d2 ms,
         run ContainCheckpoint_Check (Scenario.completions n) d1
         = Some (d2, n, ms) /\ current d2 = (Z.of_nat n + 1)%Z) /\
     run ContainCheckpoint_Check (Scenario.completions 255) d1 = None) /\
  (List.length (checkpoints Scenario.competition_0) = 0%nat /\
   OnNewTaskRosService 0 Scenario.no_response Scenario.competition_0 = None).
Proof.
  split; [| split; reflexivity].
  split; [apply repeat_length |].
  set (d1 := set_checkpoints
               (Start 0 (Scenario.zone_cp 1 1) :: repeat (Scenario.zone_cp 1 1) 254)
               (set_current 1%Z Scenario.competition_255)).
  exists d1. split.
  { apply (new_task_accepted ContainMembers 0 Scenario.no_response
             Scenario.competition_255 (Scenario.zone_cp 1 1)
             (repeat (Scenario.zone_cp 1 1) 254)); reflexivity. }
  assert (HI : Scenario.at_checkpoint 0 d1).
  { split; [reflexivity |]. split.
    - unfold d1. cbn [checkpoints set_checkpoints List.length].
      now rewrite repeat_length.
    - intros j cp _ Hj. apply nth_error_In in Hj.
      unfold d1 in Hj. cbn [checkpoints set_checkpoints] in Hj.
      destruct Hj as [<- | Hj]; [split; reflexivity |].
      apply repeat_spec in Hj. subst cp. split; reflexivity. }
  split.
  - intros n Hn.
    destruct (completions_ok n d1 Hn HI) as [d2 [ms [Hr [Hc _]]]].
    exists d2, ms. split; [exact Hr | exact Hc].
  - destruct (completions_ok 254 d1 (Nat.le_refl _) HI) as [d2 [ms [Hr HI2]]].
    rewrite (completions_S 254), run_app, Hr.
    now rewrite (completion_wraps d2 HI2).
Qed.

End CycleClaim.

(** ** FollowActorPlugin *)

Section FollowFacts.

Import FollowActorPlugin.

Lemma Length_sq (v : Vector3d) :
  Vector3d.Length v * Vector3d.Length v = X_ v * X_ v + Y_ v * Y_ v + Z_ v * Z_ v.
Proof. unfold Vector3d.Length. apply sqrt_sqrt. nra. Qed.

Lemma Length_along_X (x : R) : 0 <= x -> Vector3d.Length (mkVector3d x 0 0) = x.
Proof.
  intros H. unfold Vector3d.Length. cbn.
  replace (x * x + 0 * 0 + 0 * 0) with (x * x) by lra.
  now apply sqrt_square.
Qed.

(** The distance used for pick-up is the length of the horizontal offset. *)
Lemma pickUpDistance_planar (a t : Vector3d) :
  pickUpDistance a t =
    sqrt ((X_ a - X_ t) * (X_ a - X_ t) + (Y_ a - Y_ t) * (Y_ a - Y_ t) + 0 * 0).
Proof. reflexivity. Qed.

Lemma pickUpDistance_xy (a t : Vector3d) :
  pickUpDistance a t =
    sqrt ((X_ a - X_ t) * (X_ a - X_ t) + (Y_ a - Y_ t) * (Y_ a - Y_ t)).
Proof. rewrite pickUpDistance_planar. f_equal. ring. Qed.

(** The length of an offset, on its coordinates. *)
Lemma Length_sub (t a : Vector3d) :
  Vector3d.Length (Vector3d.sub t a) =
    sqrt ((X_ t - X_ a) * (X_ t - X_ a) + (Y_ t - Y_ a) * (Y_ t - Y_ a)
          + (Z_ t - Z_ a) * (Z_ t - Z_ a)).
Proof. reflexivity. Qed.

Lemma ObstacleOnTheWay_set_lastUpdate w t d :
  ObstacleOnTheWay w (set_lastUpdate t d) = ObstacleOnTheWay w d.
Proof. reflexivity. Qed.

Lemma OnUpdate_no_target _info w d :
  target d = None -> OnUpdate _info w d = (w, set_lastUpdate (simTime _info) d).
Proof. intros H. unfold OnUpdate. cbn. now rewrite H. Qed.

(** The too-far branch of [OnUpdate]. *)
Lemma OnUpdate_too_far _info w d tgt :
  target d = Some tgt ->
  ObstacleOnTheWay w d = false ->
  let dir := Vector3d.sub (Pos (WorldPose (deref w tgt)))
                          (Pos (WorldPose (deref w (actor d)))) in
  minDistance d < Vector3d.Length dir ->
  maxDistance d < Vector3d.Length dir ->
  OnUpdate _info w d = (w, set_target None (set_lastUpdate (simTime _info) d)).
Proof.
  intros Ht Ho dir Hmin Hmax. unfold OnUpdate.
  cbn [target set_lastUpdate actor minDistance maxDistance].
  rewrite Ht, ObstacleOnTheWay_set_lastUpdate, Ho.
  fold dir. rewrite Rleb_false by exact Hmin.
  unfold Rgtb. rewrite Rltb_true by exact Hmax. reflexivity.
Qed.

(** The following branch of [OnUpdate]. *)
Lemma OnUpdate_follows _info w d tgt :
  target d = Some tgt ->
  ObstacleOnTheWay w d = false ->
  minDistance d <
    Vector3d.Length (Vector3d.sub (Pos (WorldPose (deref w tgt)))
                                  (Pos (WorldPose (deref w (actor d))))) ->
  Vector3d.Length (Vector3d.sub (Pos (WorldPose (deref w tgt)))
                                (Pos (WorldPose (deref w (actor d)))))
    <= maxDistance d ->
  let a := deref w (actor d) in
  let dir := Vector3d.sub (Pos (WorldPose (deref w tgt))) (Pos (WorldPose a)) in
  let dn := Vector3d.Normalize dir in
  let pos :=
    Vector3d.set_Z (Z_ (Pos (WorldPose a)))
      (Vector3d.add (Pos (WorldPose a))
         (Vector3d.mul (Vector3d.mul dn (velocity d))
            (simTime _info - lastUpdate d))) in
  OnUpdate _info w d =
    (store w (actor d)
       {| GetName := GetName a;
          WorldPose := mkPose3d pos (mkQuaterniond IGN_PI_2 0 (heading dir));
          BoundingBox := BoundingBox a;
          ScriptTime :=
            ScriptTime a +
            Vector3d.Length (Vector3d.sub pos (Pos (WorldPose a)))
            * animationFactor d |},
     set_lastUpdate (simTime _info) d).
Proof.
  intros Ht Ho Hmin Hmax a dir dn pos. unfold OnUpdate.
  cbn [target set_lastUpdate actor minDistance maxDistance velocity
       animationFactor lastUpdate].
  rewrite Ht, ObstacleOnTheWay_set_lastUpdate, Ho.
  fold a. fold dir. rewrite Rleb_false by exact Hmin.
  unfold Rgtb. rewrite Rltb_false by exact Hmax.
  reflexivity.
Qed.

(** Only a pick-up request that succeeds sets a target. *)
Lemma handle_keeps_no_target w e d :
  target d = None -> picks_up w e d = false -> target (handle w e d) = None.
Proof.
  intros Ht Hp. destruct e as [info | req | req |]; cbn [handle picks_up] in *.
  - rewrite OnUpdate_no_target by exact Ht. exact Ht.
  - unfold OnPickUpRosRequest in *.
    destruct (negb _); [exact Ht |].
    destruct (ModelByName w (robot_name req)); [| exact Ht].
    destruct (Rgtb _ _); [exact Ht | discriminate Hp].
  - unfold OnDropOffRosRequest. destruct (negb _); [exact Ht | reflexivity].
  - reflexivity.
Qed.

Lemma run_keeps_no_target tr :
  forall d, target d = None -> no_pick_up tr d = true -> target (run tr d) = None.
Proof.
  induction tr as [| [w e] tr IH]; intros d Ht Hn; [exact Ht |].
  cbn [run no_pick_up] in *. apply andb_true_iff in Hn. destruct Hn as [Hp Hn].
  apply negb_true_iff in Hp. apply IH; [| exact Hn].
  now apply handle_keeps_no_target.
Qed.

(** *** Angles *)

Lemma atan2_range (y x : R) : - PI < atan2 y x <= PI.
Proof.
  pose proof PI_RGT_0 as Hpi. pose proof (atan_bound (y / x)) as [Hl Hu].
  unfold atan2, Rltb, Rleb.
  destruct (Rlt_dec 0 x) as [Hx | Hx]; [lra |].
  destruct (Rlt_dec x 0) as [Hx' | Hx'].
  - assert (Hi : / x < 0) by now apply Rinv_lt_0_compat.
    destruct (Rle_dec 0 y) as [Hy | Hy].
    + assert (Hq : y / x <= 0) by (unfold Rdiv; nra).
      assert (Ha : atan (y / x) <= 0).
      { destruct Hq as [Hq | Hq].
        - apply atan_increasing in Hq. rewrite atan_0 in Hq. lra.
        - rewrite Hq, atan_0. lra. }
      lra.
    + assert (Hq : 0 < y / x) by (unfold Rdiv; nra).
      apply atan_increasing in Hq. rewrite atan_0 in Hq. lra.
  - destruct (Rlt_dec 0 y); [lra |]. destruct (Rlt_dec y 0); lra.
Qed.

Lemma cos_period_Z (x : R) (m : Z) : cos (x + 2 * IZR m * PI) = cos x.
Proof.
  destruct (Z_le_gt_dec 0 m) as [Hm | Hm].
  - rewrite <- (Z2Nat.id m) by exact Hm. rewrite <- INR_IZR_INZ. apply cos_period.
  - rewrite <- (cos_period (x + 2 * IZR m * PI) (Z.to_nat (- m))).
    f_equal. rewrite INR_IZR_INZ, Z2Nat.id by lia. rewrite opp_IZR. ring.
Qed.

(** Two angles with the same cosine and sine differ by full turns. *)
Lemma same_sin_cos (a b : R) :
  cos a = cos b -> sin a = sin b -> exists k : Z, a = b + 2 * IZR k * PI.
Proof.
  intros Hc Hs.
  assert (H0 : sin (a - b) = 0).
  { rewrite sin_minus, Hc, Hs. ring. }
  assert (H1 : cos (a - b) = 1).
  { rewrite cos_minus, Hc, Hs. pose proof (sin2_cos2 b) as H. unfold Rsqr in H. lra. }
  destruct (sin_eq_0_0 _ H0) as [k Hk].
  destruct (Z.Even_or_Odd k) as [[m Hm] | [m Hm]].
  - exists m. subst k. rewrite mult_IZR in Hk. lra.
  - exfalso. subst k. rewrite Hk in H1.
    rewrite plus_IZR, mult_IZR in H1.
    replace ((2 * IZR m + 1) * PI) with (PI + 2 * IZR m * PI) in H1 by ring.
    rewrite cos_period_Z, cos_PI in H1. lra.
Qed.

Lemma atan_unit (x y : R) :
  x * x + y * y = 1 -> x <> 0 -> sqrt (1 + (y / x)²) = / Rabs x.
Proof.
  intros H1 Hx.
  assert (Ha : 0 < Rabs x) by now apply Rabs_pos_lt.
  replace (1 + (y / x)²) with (/ Rabs x * / Rabs x).
  - apply sqrt_square. left. now apply Rinv_0_lt_compat.
  - rewrite <- Rinv_mult, <- Rabs_mult, Rabs_pos_eq by nra.
    unfold Rsqr.
    replace (1 + y / x * (y / x)) with ((x * x + y * y) / (x * x))
      by (field; exact Hx).
    rewrite H1. unfold Rdiv. ring.
Qed.

(** [atan2] of a point of the unit circle is an angle of that point. *)
Lemma atan2_sin_cos (y x : R) :
  x * x + y * y = 1 -> cos (atan2 y x) = x /\ sin (atan2 y x) = y.
Proof.
  intros H1. unfold atan2, Rltb, Rleb.
  destruct (Rlt_dec 0 x) as [Hx | Hx].
  - rewrite cos_atan, sin_atan, (atan_unit x y H1) by lra.
    rewrite Rabs_pos_eq by lra. split; field; lra.
  - destruct (Rlt_dec x 0) as [Hx' | Hx'].
    + assert (E : sqrt (1 + (y / x)²) = / - x).
      { rewrite (atan_unit x y H1) by lra. rewrite Rabs_left by exact Hx'.
        reflexivity. }
      destruct (Rle_dec 0 y) as [Hy | Hy].
      * rewrite neg_cos, neg_sin, cos_atan, sin_atan, E. split; field; lra.
      * unfold Rminus. rewrite cos_plus, sin_plus, cos_neg, sin_neg, cos_PI, sin_PI.
        rewrite cos_atan, sin_atan, E. split; field; lra.
    + assert (E0 : x = 0) by lra. subst x.
      destruct (Rlt_dec 0 y) as [Hy | Hy].
      * rewrite cos_PI2, sin_PI2. split; nra.
      * destruct (Rlt_dec y 0) as [Hy' | Hy'].
        -- rewrite cos_neg, sin_neg, cos_PI2, sin_PI2. split; nra.
        -- exfalso. nra.
Qed.

(** [Angle::Normalize] gives the angle of (-pi, pi] that differs from its
    argument by full turns. *)
Lemma Angle_Normalize_spec (value : R) :
  - PI < Angle_Normalize value <= PI /\
  exists k : Z, Angle_Normalize value = value + 2 * IZR k * PI.
Proof.
  split; [apply atan2_range |].
  destruct (atan2_sin_cos (sin value) (cos value)) as [Hc Hs].
  { pose proof (sin2_cos2 value) as H. unfold Rsqr in H. lra. }
  apply same_sin_cos; assumption.
Qed.

Lemma Length_along_negX (x : R) : x <= 0 -> Vector3d.Length (mkVector3d x 0 0) = - x.
Proof.
  intros H. unfold Vector3d.Length. cbn.
  replace (x * x + 0 * 0 + 0 * 0) with (- x * - x) by lra.
  apply sqrt_square. lra.
Qed.

(** *** The branches of [OnUpdate] that leave the world as it is *)

Lemma OnUpdate_blocked _info w d tgt :
  target d = Some tgt -> ObstacleOnTheWay w d = true ->
  OnUpdate _info w d = (w, set_lastUpdate (simTime _info) d).
Proof.
  intros Ht Ho. unfold OnUpdate. cbn [target set_lastUpdate].
  now rewrite Ht, ObstacleOnTheWay_set_lastUpdate, Ho.
Qed.

Lemma OnUpdate_close _info w d tgt :
  target d = Some tgt -> ObstacleOnTheWay w d = false ->
  Vector3d.Length (Vector3d.sub (Pos (WorldPose (deref w tgt)))
                                (Pos (WorldPose (deref w (actor d)))))
    <= minDistance d ->
  OnUpdate _info w d = (w, set_lastUpdate (simTime _info) d).
Proof.
  intros Ht Ho Hm. unfold OnUpdate.
  cbn [target set_lastUpdate actor minDistance].
  rewrite Ht, ObstacleOnTheWay_set_lastUpdate, Ho.
  now rewrite Rleb_true by exact Hm.
Qed.

Lemma pickUpDistance_along_X (x0 x1 y z0 z1 : R) :
  pickUpDistance (mkVector3d x0 y z0) (mkVector3d x1 y z1) = Rabs (x0 - x1).
Proof.
  rewrite pickUpDistance_planar. cbn.
  replace ((x0 - x1) * (x0 - x1) + (y - y) * (y - y) + 0 * 0)
    with (Rsqr (x0 - x1)) by (unfold Rsqr; ring).
  apply sqrt_Rsqr_abs.
Qed.

End FollowFacts.

Section FollowScenarios.

Import FollowActorPlugin.

(** Two points that differ in X only. *)
Lemma sub_along_X (x1 x0 y z : R) :
  Vector3d.sub (mkVector3d x1 y z) (mkVector3d x0 y z) = mkVector3d (x1 - x0) 0 0.
Proof. unfold Vector3d.sub. cbn. f_equal; lra. Qed.

Lemma Normalize_along_X (x : R) :
  1 / 1000000 < x -> Vector3d.Normalize (mkVector3d x 0 0) = mkVector3d 1 0 0.
Proof.
  intros H. unfold Vector3d.Normalize, Vector3d.equal.
  rewrite Length_along_X by lra.
  rewrite Rabs_pos_eq by lra. rewrite Rleb_false by lra. cbn.
  f_equal; field; lra.
Qed.

Lemma heading_along_X (x : R) : 0 < x -> heading (mkVector3d x 0 0) = PI / 2.
Proof.
  intros H. unfold heading, Angle_Normalize, IGN_PI_2. cbn [X_ Y_].
  assert (E : atan2 0 x = 0).
  { unfold atan2. rewrite Rltb_true by exact H.
    replace (0 / x) with 0 by (unfold Rdiv; ring). apply atan_0. }
  rewrite E, Rplus_0_l, sin_PI2, cos_PI2.
  unfold atan2. rewrite (Rltb_false 0 0) by lra. rewrite Rltb_true by lra.
  reflexivity.
Qed.

Lemma no_obstacle_near :
  ObstacleOnTheWay Scenario.world_near (Scenario.follower (Some 1%nat)) = false.
Proof.
  unfold ObstacleOnTheWay, Box_Contains, Rgeb. cbn. Rdecide. reflexivity.
Qed.

Lemma no_obstacle_far (d : option ModelPtr) :
  ObstacleOnTheWay Scenario.world_far (Scenario.follower d) = false.
Proof.
  unfold ObstacleOnTheWay, Box_Contains, Rgeb. cbn. Rdecide. reflexivity.
Qed.

Lemma no_obstacle_far_shy :
  ObstacleOnTheWay Scenario.world_far (Scenario.shy_follower (Some 1%nat)) = false.
Proof.
  unfold ObstacleOnTheWay, Box_Contains, Rgeb. cbn. Rdecide. reflexivity.
Qed.

Lemma obstacle_far_blocked :
  ObstacleOnTheWay Scenario.world_far_blocked (Scenario.follower (Some 1%nat)) = true.
Proof.
  unfold ObstacleOnTheWay, Box_Contains, Rgeb. cbn. Rdecide. reflexivity.
Qed.

Lemma Normalize_along_negX (x : R) :
  x < - (1 / 1000000) -> Vector3d.Normalize (mkVector3d x 0 0) = mkVector3d (-1) 0 0.
Proof.
  intros H. unfold Vector3d.Normalize, Vector3d.equal.
  rewrite Length_along_negX by lra.
  rewrite Rabs_pos_eq by lra. rewrite Rleb_false by lra. cbn.
  f_equal; field; lra.
Qed.

(** Towards -X the heading wraps: pi + pi/2 is normalized to -pi/2. *)
Lemma heading_along_negX (x : R) :
  x < 0 -> heading (mkVector3d x 0 0) = - (PI / 2).
Proof.
  intros H. unfold heading, Angle_Normalize, IGN_PI_2. cbn [X_ Y_].
  assert (E : atan2 0 x = PI).
  { unfold atan2. rewrite Rltb_false by lra. rewrite Rltb_true by exact H.
    rewrite Rleb_true by lra.
    replace (0 / x) with 0 by (unfold Rdiv; ring). rewrite atan_0. lra. }
  rewrite E. replace (PI + PI / 2) with (3 * (PI / 2)) by lra.
  rewrite sin_3PI2, cos_3PI2.
  unfold atan2. rewrite (Rltb_false 0 0) by lra. rewrite (Rltb_false 0 (-1)) by lra.
  rewrite Rltb_true by lra. reflexivity.
Qed.

Lemma no_obstacle_level2 :
  ObstacleOnTheWay Scenario.world_level2 (Scenario.follower (Some 1%nat)) = false.
Proof.
  unfold ObstacleOnTheWay, Box_Contains, Rgeb. cbn. Rdecide. reflexivity.
Qed.

Lemma no_obstacle_high :
  ObstacleOnTheWay Scenario.world_high (Scenario.follower (Some 1%nat)) = false.
Proof.
  unfold ObstacleOnTheWay, Box_Contains, Rgeb. cbn. Rdecide. reflexivity.
Qed.

Lemma no_obstacle_close :
  ObstacleOnTheWay Scenario.world_close (Scenario.follower (Some 1%nat)) = false.
Proof.
  unfold ObstacleOnTheWay, Box_Contains, Rgeb. cbn. Rdecide. reflexivity.
Qed.

Lemma no_obstacle_close_above :
  ObstacleOnTheWay Scenario.world_close_above (Scenario.follower (Some 1%nat))
  = false.
Proof.
  unfold ObstacleOnTheWay, Box_Contains, Rgeb. cbn. Rdecide. reflexivity.
Qed.

(** The robot stands at most 2 m from the actor horizontally, at any
    height: the pick-up succeeds. *)
Lemma pick_up_within_radius (x z : R) :
  0 <= x <= 2 ->
  OnPickUpRosRequest (mkPickUpRequest "guest" "robot")
    (Scenario.world Scenario.origin (mkVector3d x 0 z) Scenario.origin false)
    (Scenario.follower None)
  = (true, mkResponse true, Scenario.follower (Some 1%nat)).
Proof.
  intros Hx. unfold OnPickUpRosRequest.
  change (negb (String.eqb _ _)) with false. cbv iota.
  change (ModelByName _ _) with (Some 1%nat). cbv iota beta.
  change (Pos (WorldPose (deref _ (actor (Scenario.follower None)))))
    with (mkVector3d 0 0 0).
  change (Pos (WorldPose (deref _ 1%nat))) with (mkVector3d x 0 z).
  rewrite pickUpDistance_along_X. unfold Rgtb.
  rewrite Rltb_false; [reflexivity |].
  rewrite Rabs_left1 by lra. cbn. lra.
Qed.

Lemma no_obstacle_behind :
  ObstacleOnTheWay Scenario.world_behind (Scenario.follower (Some 1%nat)) = false.
Proof.
  unfold ObstacleOnTheWay, Box_Contains, Rgeb. cbn. Rdecide. reflexivity.
Qed.

End FollowScenarios.

Section FollowClaims.

Import FollowActorPlugin.

(** C6.  [OnPickUpRosRequest] succeeds if and only if the guest name is the
    actor's name, the robot name resolves to a model of the world, and the
    planar distance between actor and robot, the square root of the sum of
    the squares of their X and Y offsets, is at most [pickUpRadius]; the
    vertical offset plays no part.  The response status equals the return
    value on every branch; a failed request leaves the plugin's data, and
    so the target, unchanged; a successful one sets the target to the
    resolved model and changes nothing else. *)
Theorem pick_up_spec :
  forall (_req : PickUpRequest) (w : World) (d : FollowActorPluginPrivate),
    let ret := fst (fst (OnPickUpRosRequest _req w d)) in
    let _res := snd (fst (OnPickUpRosRequest _req w d)) in
    let d' := snd (OnPickUpRosRequest _req w d) in
    let a := Pos (WorldPose (deref w (actor d))) in
    let eligible (model : ModelPtr) :=
      guest_name _req = GetName (deref w (actor d)) /\
      ModelByName w (robot_name _req) = Some model /\
      sqrt ((X_ a - X_ (Pos (WorldPose (deref w model))))
            * (X_ a - X_ (Pos (WorldPose (deref w model))))
            + (Y_ a - Y_ (Pos (WorldPose (deref w model))))
              * (Y_ a - Y_ (Pos (WorldPose (deref w model)))))
      <= pickUpRadius d in
    (ret = true <-> exists model, eligible model) /\
    success _res = ret /\
    (ret = false -> d' = d) /\
    (forall model, eligible model ->
       In model (Models w) /\ GetName (deref w model) = robot_name _req /\
       d' = set_target (Some model) d).
Proof.
  intros _req w d. cbv zeta. unfold OnPickUpRosRequest.
  destruct (String.eqb (guest_name _req) (GetName (deref w (actor d)))) eqn:En;
    cbn [negb].
  - apply String.eqb_eq in En.
    destruct (ModelByName w (robot_name _req)) as [model |] eqn:Em.
    + rewrite pickUpDistance_xy.
      destruct (Rgtb _ _) eqn:Eg; cbn [fst snd success].
      * unfold Rgtb in Eg. apply Rltb_spec in Eg.
        split; [| split; [reflexivity | split; [reflexivity |]]].
        -- split; [discriminate |]. intros [m [_ [Hm Hr]]].
           injection Hm as <-. lra.
        -- intros m [_ [Hm Hr]]. injection Hm as <-. lra.
      * apply Rgtb_false_iff in Eg.
        split; [| split; [reflexivity | split; [discriminate |]]].
        -- split; [| reflexivity]. intros _. exists model. auto.
        -- intros m [_ [Hm Hr]]. injection Hm as <-.
           unfold ModelByName in Em. apply find_some in Em.
           destruct Em as [Hin Hn]. apply String.eqb_eq in Hn. auto.
    + cbn [fst snd success].
      split; [| split; [reflexivity | split; [reflexivity |]]].
      * split; [discriminate |]. intros [m [_ [Hm _]]]. discriminate Hm.
      * intros m [_ [Hm _]]. discriminate Hm.
  - apply String.eqb_neq in En. cbn [fst snd success].
    split; [| split; [reflexivity | split; [reflexivity |]]].
    + split; [discriminate |]. intros [m [Hg _]]. contradiction.
    + intros m [Hg _]. contradiction.
Qed.

(** A 5-12-13 triangle in the X-Z plane, scaled by 0.4. *)
Lemma high_distance :
  Vector3d.Length
    (Vector3d.sub (Pos (WorldPose (deref Scenario.world_high 1%nat)))
                  (Pos (WorldPose (deref Scenario.world_high 0%nat)))) = 52 / 10.
Proof.
  rewrite Length_sub. cbn.
  replace ((2 - 0) * (2 - 0) + (0 - 0) * (0 - 0) + (48 / 10 - 0) * (48 / 10 - 0))
    with (52 / 10 * (52 / 10)) by lra.
  apply sqrt_square. lra.
Qed.

(** The robot stands 2 m from the actor horizontally and 4.8 m higher:
    5.2 m away, beyond the pick-up radius 2, and the pick-up succeeds. *)
Lemma pick_up_spec_witness :
  pickUpRadius (Scenario.follower None) <
    Vector3d.Length
      (Vector3d.sub (Pos (WorldPose (deref Scenario.world_high 1%nat)))
                    (Pos (WorldPose (deref Scenario.world_high 0%nat)))) /\
  OnPickUpRosRequest (mkPickUpRequest "guest" "robot") Scenario.world_high
    (Scenario.follower None)
  = (true, mkResponse true, Scenario.follower (Some 1%nat)).
Proof.
  split; [rewrite high_distance; cbn; lra |].
  pose proof (pick_up_spec (mkPickUpRequest "guest" "robot") Scenario.world_high
                (Scenario.follower None)) as H.
  cbv zeta in H. destruct H as [Hiff [Hres [_ Hset]]].
  assert (He : guest_name (mkPickUpRequest "guest" "robot") =
               GetName (deref Scenario.world_high (actor (Scenario.follower None))) /\
               ModelByName Scenario.world_high
                 (robot_name (mkPickUpRequest "guest" "robot")) = Some 1%nat /\
               sqrt ((X_ (Pos (WorldPose (deref Scenario.world_high
                                            (actor (Scenario.follower None)))))
                      - X_ (Pos (WorldPose (deref Scenario.world_high 1%nat))))
                     * (X_ (Pos (WorldPose (deref Scenario.world_high
                                              (actor (Scenario.follower None)))))
                        - X_ (Pos (WorldPose (deref Scenario.world_high 1%nat))))
                     + (Y_ (Pos (WorldPose (deref Scenario.world_high
                                              (actor (Scenario.follower None)))))
                        - Y_ (Pos (WorldPose (deref Scenario.world_high 1%nat))))
                       * (Y_ (Pos (WorldPose (deref Scenario.world_high
                                                (actor (Scenario.follower None)))))
                          - Y_ (Pos (WorldPose (deref Scenario.world_high 1%nat)))))
               <= pickUpRadius (Scenario.follower None)).
  { split; [reflexivity |]. split; [reflexivity |]. cbn.
    replace ((0 - 2) * (0 - 2) + (0 - 0) * (0 - 0)) with (2 * 2) by lra.
    rewrite sqrt_square; lra. }
  destruct (Hset _ He) as [_ [_ Hd]].
  assert (Hr : fst (fst (OnPickUpRosRequest (mkPickUpRequest "guest" "robot")
                           Scenario.world_high (Scenario.follower None))) = true)
    by (apply Hiff; eexists; exact He).
  rewrite Hr in Hres.
  destruct (OnPickUpRosRequest (mkPickUpRequest "guest" "robot") Scenario.world_high
              (Scenario.follower None)) as [[r [s]] d'].
  cbn in Hr, Hres, Hd. subst. reflexivity.
Defined.

(** C7, as the code has it.  If at an update a target is set, no obstacle
    blocks the actor, and the distance to the target exceeds both
    [minDistance] and [maxDistance], then the update clears the target and
    leaves the world, and so the actor's pose, as it was; the target then
    stays null through every later update, drop-off, reset and failed
    pick-up, until a pick-up request succeeds. *)
Theorem disengagement_is_one_way :
  forall (_info : UpdateInfo) (w : World) (d : FollowActorPluginPrivate)
         (tgt : ModelPtr),
    target d = Some tgt ->
    ObstacleOnTheWay w d = false ->
    minDistance d <
      Vector3d.Length (Vector3d.sub (Pos (WorldPose (deref w tgt)))
                                    (Pos (WorldPose (deref w (actor d))))) ->
    maxDistance d <
      Vector3d.Length (Vector3d.sub (Pos (WorldPose (deref w tgt)))
                                    (Pos (WorldPose (deref w (actor d))))) ->
    OnUpdate _info w d = (w, set_target None (set_lastUpdate (simTime _info) d)) /\
    forall tr : list (World * Event),
      no_pick_up tr (snd (OnUpdate _info w d)) = true ->
      target (run tr (snd (OnUpdate _info w d))) = None.
Proof.
  intros _info w d tgt Ht Ho Hmin Hmax.
  rewrite (OnUpdate_too_far _info w d tgt Ht Ho Hmin Hmax).
  split; [reflexivity |]. intros tr Hn.
  apply run_keeps_no_target; [reflexivity | exact Hn].
Qed.

Lemma far_distance :
  Vector3d.Length
    (Vector3d.sub (Pos (WorldPose (deref Scenario.world_far 1%nat)))
                  (Pos (WorldPose (deref Scenario.world_far 0%nat)))) = 5.
Proof.
  cbn. rewrite sub_along_X. rewrite Length_along_X; lra.
Qed.

Lemma disengagement_is_one_way_witness :
  OnUpdate (Scenario.info_at 1) Scenario.world_far (Scenario.follower (Some 1%nat))
  = (Scenario.world_far,
     set_target None (set_lastUpdate 1 (Scenario.follower (Some 1%nat)))).
Proof.
  apply (disengagement_is_one_way (Scenario.info_at 1) Scenario.world_far
           (Scenario.follower (Some 1%nat)) 1%nat).
  - reflexivity.
  - apply no_obstacle_far.
  - change (actor (Scenario.follower (Some 1%nat))) with 0%nat.
    rewrite far_distance. cbn. lra.
  - change (actor (Scenario.follower (Some 1%nat))) with 0%nat.
    rewrite far_distance. cbn. lra.
Defined.

(** C7 as stated fails when an obstacle stands at the actor: the update
    returns before it looks at the distance, and the target 5 m away, beyond
    [maxDistance] 4, stays set.  It also fails when [min_distance] is
    configured above the distance: the actor holds instead. *)
Lemma disengagement_counterexample :
  (target (Scenario.follower (Some 1%nat)) = Some 1%nat /\
   maxDistance (Scenario.follower (Some 1%nat)) <
     Vector3d.Length
       (Vector3d.sub (Pos (WorldPose (deref Scenario.world_far_blocked 1%nat)))
                     (Pos (WorldPose (deref Scenario.world_far_blocked 0%nat)))) /\
   target (snd (OnUpdate (Scenario.info_at 1) Scenario.world_far_blocked
                  (Scenario.follower (Some 1%nat)))) = Some 1%nat) /\
  (target (Scenario.shy_follower (Some 1%nat)) = Some 1%nat /\
   maxDistance (Scenario.shy_follower (Some 1%nat)) <
     Vector3d.Length
       (Vector3d.sub (Pos (WorldPose (deref Scenario.world_far 1%nat)))
                     (Pos (WorldPose (deref Scenario.world_far 0%nat)))) /\
   target (snd (OnUpdate (Scenario.info_at 1) Scenario.world_far
                  (Scenario.shy_follower (Some 1%nat)))) = Some 1%nat).
Proof.
  split; (split; [reflexivity |]); split.
  - change (deref Scenario.world_far_blocked 1%nat) with (deref Scenario.world_far 1%nat).
    change (deref Scenario.world_far_blocked 0%nat) with (deref Scenario.world_far 0%nat).
    rewrite far_distance. cbn. lra.
  - unfold OnUpdate. cbn [target set_lastUpdate Scenario.follower].
    rewrite ObstacleOnTheWay_set_lastUpdate, obstacle_far_blocked. reflexivity.
  - rewrite far_distance. cbn. lra.
  - unfold OnUpdate. cbn [target set_lastUpdate Scenario.shy_follower].
    rewrite ObstacleOnTheWay_set_lastUpdate, no_obstacle_far_shy.
    change (actor (set_lastUpdate (simTime (Scenario.info_at 1))
                     (Scenario.shy_follower (Some 1%nat)))) with 0%nat.
    rewrite far_distance.
    rewrite Rleb_true by (cbn; lra). reflexivity.
Qed.

Lemma deref_store_same w p m : deref (store w p m) p = m.
Proof. cbn. now rewrite Nat.eqb_refl. Qed.

Lemma deref_store_other w p m q : q <> p -> deref (store w p m) q = deref w q.
Proof. intros H. cbn. apply Nat.eqb_neq in H. now rewrite H. Qed.

(** C8.  With a target set, no obstacle at the actor and the distance to
    the target above [minDistance] and at most [maxDistance], the update
    moves the actor horizontally by the normalized direction times
    [velocity] times [dt], leaves its vertical coordinate as it was, and
    sets its orientation to the normalized angle [atan2(dir.Y, dir.X)] plus
    a quarter turn (as yaw, with roll a quarter turn and no pitch):
    normalized means that the yaw lies in (-pi, pi] and differs from
    [atan2(dir.Y, dir.X) + pi/2] by a whole number of turns.  The target
    stays set, the script time advances by the distance travelled times
    [animationFactor], and no other model is touched. *)
Theorem follow_step :
  forall (_info : UpdateInfo) (w : World) (d : FollowActorPluginPrivate)
         (tgt : ModelPtr),
    let a := deref w (actor d) in
    let dir := Vector3d.sub (Pos (WorldPose (deref w tgt))) (Pos (WorldPose a)) in
    let dn := Vector3d.Normalize dir in
    let dt := simTime _info - lastUpdate d in
    let w' := fst (OnUpdate _info w d) in
    let d' := snd (OnUpdate _info w d) in
    let a' := deref w' (actor d) in
    target d = Some tgt ->
    ObstacleOnTheWay w d = false ->
    minDistance d < Vector3d.Length dir ->
    Vector3d.Length dir <= maxDistance d ->
    Pos (WorldPose a') =
      mkVector3d (X_ (Pos (WorldPose a)) + X_ dn * velocity d * dt)
                 (Y_ (Pos (WorldPose a)) + Y_ dn * velocity d * dt)
                 (Z_ (Pos (WorldPose a))) /\
    Z_ (Pos (WorldPose a')) = Z_ (Pos (WorldPose a)) /\
    Rot (WorldPose a') =
      mkQuaterniond (PI / 2) 0
        (Angle_Normalize (atan2 (Y_ dir) (X_ dir) + PI / 2)) /\
    - PI < Yaw (Rot (WorldPose a')) <= PI /\
    (exists k : Z,
        Yaw (Rot (WorldPose a'))
        = atan2 (Y_ dir) (X_ dir) + PI / 2 + 2 * IZR k * PI) /\
    ScriptTime a' =
      ScriptTime a +
      Vector3d.Length (Vector3d.sub (Pos (WorldPose a')) (Pos (WorldPose a)))
      * animationFactor d /\
    d' = set_lastUpdate (simTime _info) d /\
    Models w' = Models w /\
    (forall p, p <> actor d -> deref w' p = deref w p).
Proof.
  intros _info w d tgt a dir dn dt w' d' a' Ht Ho Hmin Hmax.
  assert (E := OnUpdate_follows _info w d tgt Ht Ho Hmin Hmax).
  fold a dir dn in E.
  unfold a', w', d'. rewrite E. cbn [fst snd].
  rewrite deref_store_same. cbn [WorldPose Pos Rot ScriptTime Yaw].
  destruct (Angle_Normalize_spec (atan2 (Y_ dir) (X_ dir) + PI / 2))
    as [Hrange Hturns].
  split; [reflexivity |]. split; [reflexivity |]. split; [reflexivity |].
  split; [exact Hrange |]. split; [exact Hturns |].
  split; [reflexivity |]. split; [reflexivity |]. split; [reflexivity |].
  intros p Hp. now apply deref_store_other.
Qed.

Lemma near_distance :
  Vector3d.Length
    (Vector3d.sub (Pos (WorldPose (deref Scenario.world_near 1%nat)))
                  (Pos (WorldPose (deref Scenario.world_near 0%nat)))) = 2.
Proof.
  cbn. rewrite sub_along_X. rewrite Length_along_X; lra.
Qed.

Lemma behind_distance :
  Vector3d.Length
    (Vector3d.sub (Pos (WorldPose (deref Scenario.world_behind 1%nat)))
                  (Pos (WorldPose (deref Scenario.world_behind 0%nat)))) = 2.
Proof.
  cbn. rewrite sub_along_X. rewrite Length_along_negX; lra.
Qed.

(** The scenario of C8: actor at (0,0,1), target at (2,0,1), velocity 0.8,
    dt 1.0, minDistance 1.2.  With the target at (-2,0,1) instead, the
    actor moves 0.8 m along -X and the angle pi + pi/2 is normalized to
    -pi/2. *)
Lemma follow_step_witness :
  (let w' := fst (OnUpdate (Scenario.info_at 1) Scenario.world_near
                    (Scenario.follower (Some 1%nat))) in
   Pos (WorldPose (deref w' 0%nat)) = mkVector3d (8 / 10) 0 1 /\
   Rot (WorldPose (deref w' 0%nat)) = mkQuaterniond (PI / 2) 0 (PI / 2)) /\
  (let w' := fst (OnUpdate (Scenario.info_at 1) Scenario.world_behind
                    (Scenario.follower (Some 1%nat))) in
   Pos (WorldPose (deref w' 0%nat)) = mkVector3d (- (8 / 10)) 0 1 /\
   Rot (WorldPose (deref w' 0%nat)) = mkQuaterniond (PI / 2) 0 (- (PI / 2))).
Proof.
  split.
  - destruct (follow_step (Scenario.info_at 1) Scenario.world_near
                (Scenario.follower (Some 1%nat)) 1%nat)
      as [HP [_ [HR _]]].
    + reflexivity.
    + apply no_obstacle_near.
    + change (actor (Scenario.follower (Some 1%nat))) with 0%nat.
      rewrite near_distance. cbn. lra.
    + change (actor (Scenario.follower (Some 1%nat))) with 0%nat.
      rewrite near_distance. cbn. lra.
    + cbv zeta.
      change (actor (Scenario.follower (Some 1%nat))) with 0%nat in HP, HR.
      rewrite HP, HR. clear HP HR.
      change (Pos (WorldPose (deref Scenario.world_near 1%nat)))
        with (mkVector3d 2 0 1).
      change (Pos (WorldPose (deref Scenario.world_near 0%nat)))
        with (mkVector3d 0 0 1).
      rewrite sub_along_X.
      rewrite Normalize_along_X by lra.
      change (Angle_Normalize (atan2 (Y_ (mkVector3d (2 - 0) 0 0))
                                     (X_ (mkVector3d (2 - 0) 0 0)) + PI / 2))
        with (heading (mkVector3d (2 - 0) 0 0)).
      rewrite heading_along_X by lra.
      split; [| reflexivity]. cbn. f_equal; lra.
  - destruct (follow_step (Scenario.info_at 1) Scenario.world_behind
                (Scenario.follower (Some 1%nat)) 1%nat)
      as [HP [_ [HR _]]].
    + reflexivity.
    + apply no_obstacle_behind.
    + change (actor (Scenario.follower (Some 1%nat))) with 0%nat.
      rewrite behind_distance. cbn. lra.
    + change (actor (Scenario.follower (Some 1%nat))) with 0%nat.
      rewrite behind_distance. cbn. lra.
    + cbv zeta.
      change (actor (Scenario.follower (Some 1%nat))) with 0%nat in HP, HR.
      rewrite HP, HR. clear HP HR.
      change (Pos (WorldPose (deref Scenario.world_behind 1%nat)))
        with (mkVector3d (-2) 0 1).
      change (Pos (WorldPose (deref Scenario.world_behind 0%nat)))
        with (mkVector3d 0 0 1).
      rewrite sub_along_X.
      rewrite Normalize_along_negX by lra.
      change (Angle_Normalize (atan2 (Y_ (mkVector3d (-2 - 0) 0 0))
                                     (X_ (mkVector3d (-2 - 0) 0 0)) + PI / 2))
        with (heading (mkVector3d (-2 - 0) 0 0)).
      rewrite heading_along_negX by lra.
      split; [| reflexivity]. cbn. f_equal; lra.
Defined.

Lemma find_ext_eq {A : Type} (f g : A -> bool) (l : list A) :
  (forall x, f x = g x) -> find f l = find g l.
Proof.
  intros H. induction l as [| h t IH]; [reflexivity |].
  cbn. rewrite H, IH. reflexivity.
Qed.

Lemma level2_distance :
  Vector3d.Length
    (Vector3d.sub (Pos (WorldPose (deref Scenario.world_level2 1%nat)))
                  (Pos (WorldPose (deref Scenario.world_level2 0%nat)))) = 2.
Proof.
  rewrite Length_sub. cbn.
  replace ((2 - 0) * (2 - 0) + (0 - 0) * (0 - 0) + (0 - 0) * (0 - 0))
    with (2 * 2) by lra.
  apply sqrt_square. lra.
Qed.

Lemma close_distance :
  Vector3d.Length
    (Vector3d.sub (Pos (WorldPose (deref Scenario.world_close 1%nat)))
                  (Pos (WorldPose (deref Scenario.world_close 0%nat)))) = 9 / 10.
Proof.
  rewrite Length_sub. cbn.
  replace ((9 / 10 - 0) * (9 / 10 - 0) + (0 - 0) * (0 - 0) + (0 - 0) * (0 - 0))
    with (9 / 10 * (9 / 10)) by lra.
  apply sqrt_square. lra.
Qed.

(** A 3-4-5 triangle in the X-Z plane, scaled by 0.3. *)
Lemma close_above_distance :
  Vector3d.Length
    (Vector3d.sub (Pos (WorldPose (deref Scenario.world_close_above 1%nat)))
                  (Pos (WorldPose (deref Scenario.world_close_above 0%nat))))
  = 15 / 10.
Proof.
  rewrite Length_sub. cbn.
  replace ((9 / 10 - 0) * (9 / 10 - 0) + (0 - 0) * (0 - 0)
           + (12 / 10 - 0) * (12 / 10 - 0))
    with (15 / 10 * (15 / 10)) by lra.
  apply sqrt_square. lra.
Qed.

(** C9.  The pick-up test zeroes the vertical component: two worlds with
    the same models and names, in which every model has the same horizontal
    offset from the actor, give the same answer to every pick-up request,
    whatever the vertical offsets.  Both follow tests are made on the
    length of the full 3-D offset, the square root of the sum of the
    squares of the X, Y and Z offsets: with a target and no obstacle, the
    update holds the actor when that length is at most [minDistance],
    clears the target when it exceeds [minDistance] and [maxDistance], and
    moves the actor otherwise.  So with the robot 2 m away horizontally the
    pick-up succeeds at both heights, but the actor keeps following the
    robot at its own height and stops following the robot 4.8 m higher
    (5.2 m away, beyond [maxDistance] 4); and with the robot 0.9 m away
    horizontally the pick-up succeeds at both heights, but the actor holds
    for the robot at its own height (within [minDistance] 1.2) and walks
    towards the robot 1.2 m higher (1.5 m away). *)
Theorem pick_up_planar_follow_spatial :
  (forall (_req : PickUpRequest) (w1 w2 : World) (d : FollowActorPluginPrivate),
      Models w1 = Models w2 ->
      (forall p, GetName (deref w1 p) = GetName (deref w2 p)) ->
      (forall p,
          X_ (Pos (WorldPose (deref w1 (actor d)))) - X_ (Pos (WorldPose (deref w1 p)))
          = X_ (Pos (WorldPose (deref w2 (actor d)))) - X_ (Pos (WorldPose (deref w2 p)))
          /\
          Y_ (Pos (WorldPose (deref w1 (actor d)))) - Y_ (Pos (WorldPose (deref w1 p)))
          = Y_ (Pos (WorldPose (deref w2 (actor d)))) - Y_ (Pos (WorldPose (deref w2 p)))) ->
      OnPickUpRosRequest _req w1 d = OnPickUpRosRequest _req w2 d) /\
  (forall (_info : UpdateInfo) (w : World) (d : FollowActorPluginPrivate)
          (tgt : ModelPtr),
      let a := Pos (WorldPose (deref w (actor d))) in
      let t := Pos (WorldPose (deref w tgt)) in
      let len :=
        sqrt ((X_ t - X_ a) * (X_ t - X_ a) + (Y_ t - Y_ a) * (Y_ t - Y_ a)
              + (Z_ t - Z_ a) * (Z_ t - Z_ a)) in
      let dn := Vector3d.Normalize (Vector3d.sub t a) in
      let dt := simTime _info - lastUpdate d in
      target d = Some tgt ->
      ObstacleOnTheWay w d = false ->
      (len <= minDistance d ->
       OnUpdate _info w d = (w, set_lastUpdate (simTime _info) d)) /\
      (minDistance d < len -> maxDistance d < len ->
       OnUpdate _info w d
       = (w, set_target None (set_lastUpdate (simTime _info) d))) /\
      (minDistance d < len -> len <= maxDistance d ->
       snd (OnUpdate _info w d) = set_lastUpdate (simTime _info) d /\
       Pos (WorldPose (deref (fst (OnUpdate _info w d)) (actor d)))
       = mkVector3d (X_ a + X_ dn * velocity d * dt)
                    (Y_ a + Y_ dn * velocity d * dt) (Z_ a))) /\
  (OnPickUpRosRequest (mkPickUpRequest "guest" "robot") Scenario.world_level2
     (Scenario.follower None)
   = (true, mkResponse true, Scenario.follower (Some 1%nat)) /\
   OnPickUpRosRequest (mkPickUpRequest "guest" "robot") Scenario.world_high
     (Scenario.follower None)
   = (true, mkResponse true, Scenario.follower (Some 1%nat)) /\
   target (snd (OnUpdate (Scenario.info_at 1) Scenario.world_level2
                  (Scenario.follower (Some 1%nat)))) = Some 1%nat /\
   target (snd (OnUpdate (Scenario.info_at 1) Scenario.world_high
                  (Scenario.follower (Some 1%nat)))) = None) /\
  (OnPickUpRosRequest (mkPickUpRequest "guest" "robot") Scenario.world_close
     (Scenario.follower None)
   = (true, mkResponse true, Scenario.follower (Some 1%nat)) /\
   OnPickUpRosRequest (mkPickUpRequest "guest" "robot") Scenario.world_close_above
     (Scenario.follower None)
   = (true, mkResponse true, Scenario.follower (Some 1%nat)) /\
   fst (OnUpdate (Scenario.info_at 1) Scenario.world_close
          (Scenario.follower (Some 1%nat))) = Scenario.world_close /\
   Pos (WorldPose (deref (fst (OnUpdate (Scenario.info_at 1)
                                 Scenario.world_close_above
                                 (Scenario.follower (Some 1%nat)))) 0%nat))
   = mkVector3d (48 / 100) 0 0).
Proof.
  split; [| split; [| split]].
  - intros _req w1 w2 d HM HN HO. unfold OnPickUpRosRequest.
    rewrite <- HN.
    assert (Ef : ModelByName w2 (robot_name _req) = ModelByName w1 (robot_name _req)).
    { unfold ModelByName. rewrite <- HM. apply find_ext_eq.
      intros x. now rewrite HN. }
    rewrite Ef.
    destruct (negb _); [reflexivity |].
    destruct (ModelByName w1 (robot_name _req)) as [model |]; [| reflexivity].
    rewrite !pickUpDistance_planar.
    destruct (HO model) as [-> ->]. reflexivity.
  - intros _info w d tgt a t len dn dt Ht Ho.
    change len with (Vector3d.Length (Vector3d.sub t a)).
    split; [| split].
    + intros Hmin. now apply OnUpdate_close with (tgt := tgt).
    + intros Hmin Hmax. now apply OnUpdate_too_far with (tgt := tgt).
    + intros Hmin Hmax.
      rewrite (OnUpdate_follows _info w d tgt Ht Ho Hmin Hmax). cbn [fst snd].
      rewrite deref_store_same. split; reflexivity.
  - split; [apply pick_up_within_radius; lra |].
    split; [apply pick_up_within_radius; lra |]. split.
    + rewrite OnUpdate_follows with (tgt := 1%nat).
      * reflexivity.
      * reflexivity.
      * apply no_obstacle_level2.
      * change (actor (Scenario.follower (Some 1%nat))) with 0%nat.
        rewrite level2_distance. cbn. lra.
      * change (actor (Scenario.follower (Some 1%nat))) with 0%nat.
        rewrite level2_distance. cbn. lra.
    + rewrite OnUpdate_too_far with (tgt := 1%nat).
      * reflexivity.
      * reflexivity.
      * apply no_obstacle_high.
      * change (actor (Scenario.follower (Some 1%nat))) with 0%nat.
        rewrite high_distance. cbn. lra.
      * change (actor (Scenario.follower (Some 1%nat))) with 0%nat.
        rewrite high_distance. cbn. lra.
  - split; [apply pick_up_within_radius; lra |].
    split; [apply pick_up_within_radius; lra |]. split.
    + rewrite OnUpdate_close with (tgt := 1%nat).
      * reflexivity.
      * reflexivity.
      * apply no_obstacle_close.
      * change (actor (Scenario.follower (Some 1%nat))) with 0%nat.
        rewrite close_distance. cbn. lra.
    + rewrite OnUpdate_follows with (tgt := 1%nat).
      * cbn [fst]. rewrite deref_store_same. cbn [WorldPose Pos].
        change (actor (Scenario.follower (Some 1%nat))) with 0%nat.
        unfold Vector3d.Normalize, Vector3d.equal.
        rewrite close_above_distance.
        rewrite Rabs_pos_eq by lra. rewrite Rleb_false by lra.
        unfold Vector3d.set_Z, Vector3d.add, Vector3d.mul, Scenario.origin.
        cbn. f_equal; field.
      * reflexivity.
      * apply no_obstacle_close_above.
      * change (actor (Scenario.follower (Some 1%nat))) with 0%nat.
        rewrite close_above_distance. cbn. lra.
      * change (actor (Scenario.follower (Some 1%nat))) with 0%nat.
        rewrite close_above_distance. cbn. lra.
Qed.

(** The two placements 2 m away horizontally, and the update that drops
    the robot 4.8 m higher. *)
Lemma pick_up_planar_follow_spatial_witness :
  OnPickUpRosRequest (mkPickUpRequest "guest" "robot") Scenario.world_level2
    (Scenario.follower None)
  = OnPickUpRosRequest (mkPickUpRequest "guest" "robot") Scenario.world_high
      (Scenario.follower None) /\
  OnUpdate (Scenario.info_at 1) Scenario.world_high (Scenario.follower (Some 1%nat))
  = (Scenario.world_high,
     set_target None (set_lastUpdate 1 (Scenario.follower (Some 1%nat)))).
Proof.
  split.
  - apply (proj1 pick_up_planar_follow_spatial).
    + reflexivity.
    + intros [| [| p]]; reflexivity.
    + intros [| [| p]]; cbn; lra.
  - apply (proj1 (proj2 pick_up_planar_follow_spatial) (Scenario.info_at 1)
             Scenario.world_high (Scenario.follower (Some 1%nat)) 1%nat).
    + reflexivity.
    + apply no_obstacle_high.
    + change (sqrt _) with
        (Vector3d.Length
           (Vector3d.sub (Pos (WorldPose (deref Scenario.world_high 1%nat)))
                         (Pos (WorldPose (deref Scenario.world_high 0%nat))))).
      rewrite high_distance. cbn. lra.
    + change (sqrt _) with
        (Vector3d.Length
           (Vector3d.sub (Pos (WorldPose (deref Scenario.world_high 1%nat)))
                         (Pos (WorldPose (deref Scenario.world_high 0%nat))))).
      rewrite high_distance. cbn. lra.
Defined.

End FollowClaims.

(** * Further properties *)

(** ** Checkpoint and ContainCheckpoint *)

Lemma contain_run_cons (e : ContainEvent) (tr : list ContainEvent)
    (cp : ContainCheckpoint) :
  contain_run (e :: tr) cp = contain_run tr (contain_step cp e).
Proof. reflexivity. Qed.

(** X1.  While [endTime] is unset the score follows the clock: it does not
    decrease as time advances when the weight is non-negative, and does not
    increase when the weight is non-positive.  Once [endTime] is set the
    score is the same at every time. *)
Theorem score_over_time :
  forall (D : Type) (cp : Checkpoint D) (t1 t2 : Time),
    t1 <= t2 ->
    (endTime cp = TimeOps.Zero -> 0 <= weight cp -> Score t1 cp <= Score t2 cp) /\
    (endTime cp = TimeOps.Zero -> weight cp <= 0 -> Score t2 cp <= Score t1 cp) /\
    (endTime cp <> TimeOps.Zero -> Score t1 cp = Score t2 cp).
Proof.
  intros D cp t1 t2 Ht. split; [| split].
  - intros He Hw. now apply Score_monotone.
  - intros He Hw. rewrite !Score_running by exact He. nra.
  - intros He. now rewrite !Score_ended by exact He.
Qed.

Lemma score_over_time_witness :
  Score 25 (Start 10 (Scenario.zone_cp 2 1)) <= Score 26 (Start 10 (Scenario.zone_cp 2 1)).
Proof.
  apply (score_over_time ContainMembers (Start 10 (Scenario.zone_cp 2 1)) 25 26).
  - lra.
  - reflexivity.
  - cbn. lra.
Defined.

(** X2.  [Check] reports the payload of the most recent contain message (the
    flag is overwritten, not latched): after any run of checks, replies and
    contain messages it returns the last message's payload, or the initial
    flag if no message arrived. *)
Theorem check_reports_last_contain :
  forall (tr : list ContainEvent) (cp : ContainCheckpoint),
    fst (ContainCheckpoint_Check (contain_run tr cp))
    = last_contain tr (containDone (derived cp)).
Proof.
  induction tr as [| e tr IH]; intros cp.
  - apply Check_returns_containDone.
  - rewrite contain_run_cons, IH, contain_step_containDone.
    destruct e; reflexivity.
Qed.

Lemma Check_not_ready (cp : ContainCheckpoint) :
  enabled (derived cp) = false -> containDone (derived cp) = false ->
  ContainCheckpoint_Check cp =
    (false,
     set_derived
       (with_node
          (Node_Request (ns (derived cp) ++ "/enable") true
             (Node_Subscribe (ns (derived cp) ++ "/contain") (ignNode (derived cp))))
          (derived cp))
       cp).
Proof.
  intros He Hd. unfold ContainCheckpoint_Check.
  destruct (derived cp) as [nd s e c]. cbn in He, Hd. subst e c. reflexivity.
Qed.

Lemma topic_in_app_self (t : string) (l : list string) :
  topic_in t (l ++ [t]) = true.
Proof.
  unfold topic_in. rewrite existsb_app. cbn. rewrite String.eqb_refl.
  now rewrite orb_true_r.
Qed.

(** X3.  Until the reply to the enable request arrives, every call of
    [Check] on a checkpoint that is neither enabled nor reached returns
    false, subscribes and sends one more enable request: after [n] calls the
    node has seen [n] subscribe calls and [n] enable requests more, while the
    contain topic is subscribed once. *)
Theorem waiting_checks_repeat_enable :
  forall (n : nat) (cp : ContainCheckpoint),
    enabled (derived cp) = false ->
    containDone (derived cp) = false ->
    let contain := (ns (derived cp) ++ "/contain")%string in
    let enable := (ns (derived cp) ++ "/enable")%string in
    let cp' := contain_run (repeat CallCheck n) cp in
    fst (ContainCheckpoint_Check cp') = false /\
    enabled (derived cp') = false /\
    containDone (derived cp') = false /\
    ns (derived cp') = ns (derived cp) /\
    node_calls cp'
    = node_calls cp ++ List.concat (repeat [Subscribe contain; Request enable true] n) /\
    SubscribedTopics (ignNode (derived cp'))
    = match n with
      | O => SubscribedTopics (ignNode (derived cp))
      | S _ =>
          if topic_in contain (SubscribedTopics (ignNode (derived cp)))
          then SubscribedTopics (ignNode (derived cp))
          else SubscribedTopics (ignNode (derived cp)) ++ [contain]
      end.
Proof.
  induction n as [| n IH]; intros cp He Hd contain enable cp'.
  - unfold cp'. cbn [repeat contain_run fold_left List.concat].
    rewrite Check_returns_containDone, app_nil_r. repeat split; auto.
  - unfold cp'. cbn [repeat]. rewrite contain_run_cons. cbn [contain_step].
    rewrite (Check_not_ready cp He Hd). cbn [snd].
    set (cp1 := set_derived _ cp).
    assert (He1 : enabled (derived cp1) = false) by exact He.
    assert (Hd1 : containDone (derived cp1) = false) by exact Hd.
    destruct (IH cp1 He1 Hd1) as [H1 [H2 [H3 [H4 [H5 H6]]]]].
    change (ns (derived cp1)) with (ns (derived cp)) in *.
    fold contain enable in H5, H6.
    split; [exact H1 |]. split; [exact H2 |]. split; [exact H3 |].
    split; [exact H4 |]. split.
    + rewrite H5. unfold node_calls, cp1. cbn. fold contain enable.
      rewrite <- !app_assoc. reflexivity.
    + rewrite H6.
      assert (Hs1 : SubscribedTopics (ignNode (derived cp1))
                    = if topic_in contain (SubscribedTopics (ignNode (derived cp)))
                      then SubscribedTopics (ignNode (derived cp))
                      else SubscribedTopics (ignNode (derived cp)) ++ [contain])
        by reflexivity.
      destruct n as [| n]; [exact Hs1 |].
      rewrite Hs1.
      destruct (topic_in contain (SubscribedTopics (ignNode (derived cp)))) eqn:E.
      * now rewrite E.
      * now rewrite topic_in_app_self.
Qed.

Lemma waiting_checks_repeat_enable_witness :
  node_calls (contain_run (repeat CallCheck 3) (Scenario.zone_cp 2 1))
  = [Subscribe "zone/contain"; Request "zone/enable" true;
     Subscribe "zone/contain"; Request "zone/enable" true;
     Subscribe "zone/contain"; Request "zone/enable" true]
  /\ SubscribedTopics
       (ignNode (derived (contain_run (repeat CallCheck 3) (Scenario.zone_cp 2 1))))
     = ["zone/contain"%string].
Proof.
  destruct (waiting_checks_repeat_enable 3 (Scenario.zone_cp 2 1))
    as [_ [_ [_ [_ [H5 H6]]]]]; [reflexivity | reflexivity |].
  split; [exact H5 | exact H6].
Defined.

(** X4.  Every successful reply toggles [enabled], whichever request it
    answers, and a failed reply changes nothing.  So when [Check] ran twice
    before the first reply, the two replies cancel: the checkpoint is again
    not enabled, and the next [Check] sends a third enable request. *)
Theorem enable_replies_toggle :
  forall cp : ContainCheckpoint,
    enabled (derived (EnableCallback true cp)) = negb (enabled (derived cp)) /\
    EnableCallback false cp = cp /\
    enabled (derived (EnableCallback true (EnableCallback true cp)))
    = enabled (derived cp) /\
    (enabled (derived cp) = false -> containDone (derived cp) = false ->
     let enable := (ns (derived cp) ++ "/enable")%string in
     let contain := (ns (derived cp) ++ "/contain")%string in
     let cp' := contain_run [CallCheck; CallCheck; Reply true; Reply true] cp in
     enabled (derived cp') = false /\
     containDone (derived cp') = false /\
     node_calls (snd (ContainCheckpoint_Check cp'))
     = node_calls cp ++ [Subscribe contain; Request enable true;
                         Subscribe contain; Request enable true;
                         Subscribe contain; Request enable true]).
Proof.
  intros cp. split; [reflexivity |]. split; [reflexivity |].
  split; [cbn; apply negb_involutive |].
  intros He Hd enable contain cp'.
  unfold cp'. rewrite !contain_run_cons. cbn [contain_run fold_left contain_step].
  rewrite (Check_not_ready cp He Hd). cbn [snd].
  set (cp1 := set_derived _ cp).
  rewrite (Check_not_ready cp1 He Hd). cbn [snd].
  set (cp2 := set_derived _ cp1).
  assert (He4 : enabled (derived (EnableCallback true (EnableCallback true cp2))) = false).
  { cbn. rewrite He. reflexivity. }
  assert (Hd4 : containDone (derived (EnableCallback true (EnableCallback true cp2))) = false)
    by exact Hd.
  split; [exact He4 |]. split; [exact Hd4 |].
  rewrite (Check_not_ready _ He4 Hd4). unfold node_calls. cbn.
  rewrite <- !app_assoc. reflexivity.
Qed.

Lemma enable_replies_toggle_witness :
  let cp' := contain_run [CallCheck; CallCheck; Reply true; Reply true]
               (Scenario.zone_cp 2 1) in
  enabled (derived cp') = false /\
  containDone (derived cp') = false /\
  node_calls (snd (ContainCheckpoint_Check cp'))
  = [Subscribe "zone/contain"; Request "zone/enable" true;
     Subscribe "zone/contain"; Request "zone/enable" true;
     Subscribe "zone/contain"; Request "zone/enable" true].
Proof.
  apply (proj2 (proj2 (proj2 (enable_replies_toggle (Scenario.zone_cp 2 1)))));
    reflexivity.
Defined.

Lemma unsubscribe_topics (l : list string) :
  forall n : Node,
    (forall t, In t (SubscribedTopics n) -> In t l) ->
    SubscribedTopics (fold_left (fun acc sub => Node_Unsubscribe sub acc) l n) = [].
Proof.
  induction l as [| a l IH]; intros n H.
  - cbn. destruct (SubscribedTopics n) as [| t ts]; [reflexivity |].
    destruct (H t (or_introl eq_refl)).
  - cbn [fold_left]. apply IH. intros t Ht.
    cbn [Node_Unsubscribe SubscribedTopics] in Ht.
    apply filter_In in Ht. destruct Ht as [Hin Hneq].
    destruct (H t Hin) as [-> | Hl]; [| exact Hl].
    rewrite String.eqb_refl in Hneq. discriminate Hneq.
Qed.

(** X5.  A call of [Check] on a checkpoint that is enabled and reached
    returns true and cleans up: it unsubscribes from every subscribed topic,
    in order, then sends one disable request; afterwards no topic is
    subscribed, and neither flag has changed. *)
Theorem check_cleans_up :
  forall cp : ContainCheckpoint,
    enabled (derived cp) = true ->
    containDone (derived cp) = true ->
    let cp' := snd (ContainCheckpoint_Check cp) in
    fst (ContainCheckpoint_Check cp) = true /\
    SubscribedTopics (ignNode (derived cp')) = [] /\
    node_calls cp'
    = node_calls cp
      ++ map Unsubscribe (SubscribedTopics (ignNode (derived cp)))
      ++ [Request (ns (derived cp) ++ "/enable") false] /\
    enabled (derived cp') = true /\
    containDone (derived cp') = true.
Proof.
  intros cp He Hd cp'.
  split; [now rewrite Check_returns_containDone |].
  unfold cp', ContainCheckpoint_Check, node_calls. rewrite He, Hd. cbn.
  rewrite He, Hd. cbn. unfold unsubscribe_all.
  split; [apply unsubscribe_topics; auto |].
  split; [| auto].
  rewrite unsubscribe_calls, <- app_assoc. reflexivity.
Qed.

Lemma check_cleans_up_witness :
  let cp := contain_run [CallCheck; Reply true; Contain true] (Scenario.zone_cp 2 1) in
  SubscribedTopics (ignNode (derived (snd (ContainCheckpoint_Check cp)))) = [] /\
  node_calls (snd (ContainCheckpoint_Check cp))
  = [Subscribe "zone/contain"; Request "zone/enable" true;
     Unsubscribe "zone/contain"; Request "zone/enable" false].
Proof.
  destruct (check_cleans_up
              (contain_run [CallCheck; Reply true; Contain true] (Scenario.zone_cp 2 1)))
    as [_ [H2 [H3 _]]]; [reflexivity | reflexivity |].
  split; [exact H2 | exact H3].
Defined.

(** X6.  The life of a contain checkpoint built from any weight, namespace
    and number: first check, enable reply, contain message, second check,
    disable reply.  The second check is the first to return true; at the end
    the checkpoint is reached and no longer enabled, nothing is subscribed,
    the node has seen exactly one subscribe, one enable, one unsubscribe and
    one disable call, and a further [Check] returns true and changes
    nothing. *)
Theorem contain_checkpoint_life :
  forall (w : R) (sdf_ns : option string) (n : nat),
    let cp0 := ContainCheckpoint_new w sdf_ns n in
    let zone := match sdf_ns with Some s => s | None => EmptyString end in
    let waiting := contain_run [CallCheck; Reply true] cp0 in
    let reached := contain_run [Contain true] waiting in
    let final := contain_run [CallCheck; Reply true] reached in
    fst (ContainCheckpoint_Check cp0) = false /\
    fst (ContainCheckpoint_Check waiting) = false /\
    fst (ContainCheckpoint_Check reached) = true /\
    containDone (derived final) = true /\
    enabled (derived final) = false /\
    SubscribedTopics (ignNode (derived final)) = [] /\
    node_calls final
    = [Subscribe (zone ++ "/contain"); Request (zone ++ "/enable") true;
       Unsubscribe (zone ++ "/contain"); Request (zone ++ "/enable") false] /\
    ContainCheckpoint_Check final = (true, final).
Proof.
  intros w sdf_ns n cp0 zone waiting reached final.
  split; [reflexivity |]. split; [reflexivity |]. split; [reflexivity |].
  split; [reflexivity |]. split; [reflexivity |].
  assert (Hs : SubscribedTopics (ignNode (derived final)) = []).
  { unfold final, reached, waiting, cp0. cbn. fold zone.
    rewrite String.eqb_refl. reflexivity. }
  split; [exact Hs |]. split; [reflexivity |].
  reflexivity.
Qed.

(** ** CompetitionPlugin *)

Lemma nth_error_vec_set_other {A : Type} (v : list A) (i : Z) (x : A) (j : nat) :
  Z.of_nat j <> i -> nth_error (vec_set v i x) j = nth_error v j.
Proof.
  intros H. unfold vec_set. destruct (i <? 0)%Z eqn:E; [reflexivity |].
  apply Z.ltb_ge in E. rewrite nth_error_list_set.
  destruct (Nat.eqb (Z.to_nat i) j) eqn:En; [| reflexivity].
  apply Nat.eqb_eq in En. lia.
Qed.

Lemma sum_fold_left (l : list R) : fold_left Rplus l 0 = fold_right Rplus 0 l.
Proof.
  apply fold_symmetric.
  - intros x y z. ring.
  - intros y. ring.
Qed.

Section CompetitionExtras.

Import CompetitionPlugin.

Variable Derived : Type.
Variable Check : Checkpoint Derived -> bool * Checkpoint Derived.

Local Notation "'Private'" := (CompetitionPluginPrivate Derived).

Lemma advance_keeps now (d d' : Private) :
advance Check now d = Some d' ->
scoreFreq d' = scoreFreq d /\
lastScorePubTime d' = lastScorePubTime d /\
pickUpLocation d' = pickUpLocation d /\
List.length (checkpoints d') = List.length (checkpoints d).
Proof.
unfold advance.
destruct (vec_at (checkpoints d) (current d - 1)) as [cp |]; [| discriminate].
destruct (Check cp) as [r cp']. destruct r.
- cbn [current checkpoints set_current set_checkpoints].
  destruct (_ >? _)%Z.
  + intros H. injection H as <-. cbn. now rewrite vec_set_length.
  + destruct (vec_at _ _); [| discriminate].
    intros H. injection H as <-. cbn. now rewrite !vec_set_length.
- intros H. injection H as <-. cbn. now rewrite vec_set_length.
Qed.

Lemma publish_score_keeps now info (d : Private) :
scoreFreq (fst (publish_score now info d)) = scoreFreq d.
Proof. unfold publish_score. destruct (Rltb _ _); reflexivity. Qed.

Lemma OnUpdate_active now info (d d' : Private) m :
current d <> 0%Z ->
OnUpdate Check now info d = Some (d', m) ->
exists d1, advance Check now d = Some d1 /\ publish_score now info d1 = (d', m).
Proof.
intros Hc. unfold OnUpdate.
replace (current d =? 0)%Z with false by (symmetry; now apply Z.eqb_neq).
destruct (advance Check now d) as [d1 |]; [| discriminate].
intros H. injection H as H. now exists d1.
Qed.

Lemma step_keeps e (d d' : Private) m :
step Check e d = Some (d', m) ->
scoreFreq d' = scoreFreq d /\
pickUpLocation d' = pickUpLocation d /\
List.length (checkpoints d') = List.length (checkpoints d) /\
match m with
| Some msg =>
    List.length (msg_checkpoints msg) = List.length (checkpoints d) /\
    msg_score msg = fold_right Rplus 0 (msg_checkpoints msg)
| None => True
end.
Proof.
destruct e as [now info | i f]; cbn [step].
- destruct (Z.eq_dec (current d) 0) as [Hc | Hc].
  + unfold OnUpdate. rewrite Hc. cbn. intros H. injection H as <- <-. auto.
  + intros H. destruct (OnUpdate_active now info d d' m Hc H) as [d1 [Ha Hp]].
    destruct (advance_keeps now d d1 Ha) as [H1 [_ [H3 H4]]].
    unfold publish_score in Hp.
    destruct (Rltb _ _); injection Hp as <- <-; cbn.
    * repeat split; assumption.
    * rewrite length_map, sum_fold_left. repeat split; assumption.
- destruct (nth_error (checkpoints d) i); intros H; injection H as <- <-; cbn.
  + rewrite list_set_length. auto.
  + auto.
Qed.

End CompetitionExtras.

Section CompetitionExtraClaims.

Import CompetitionPlugin.

(** Two updates of a two-checkpoint competition whose first checkpoint is
  active: the first records the publication time, the second publishes. *)
Lemma competition_2_run :
exists d' msg,
  run ContainCheckpoint_Check
    [Tick 10 (Scenario.info_at 10); Tick 25 (Scenario.info_at 25)]
    (set_current 1%Z Scenario.competition_2) = Some (d', 0%nat, [msg]).
Proof.
cbn [run step counts].
unfold OnUpdate, progresses, advance, publish_score.
cbn. unfold TimeOps.sub. Rdecide. cbn. Rdecide.
eexists _, _. reflexivity.
Defined.

(** X7.  What [CompetitionPlugin::Load] leaves behind.  The score frequency
  is the SDF's <score_frequency>, 50 when absent; no task is running.
  Without <pick_up_location> nothing is set up: no checkpoint, no service,
  no publisher, no update connection.  With it, the location is stored and
  exactly one checkpoint is created; the service, the publisher and the
  update connection are set up together, and only if ROS is initialized. *)
Theorem competition_load :
forall (Derived Sdf : Type) (mk : Sdf -> Checkpoint Derived)
       (ros_isInitialized : bool) (_sdf : PluginSdf Sdf),
  let L := Load mk ros_isInitialized _sdf in
  scoreFreq (dataPtr L)
  = match sdf_score_frequency _sdf with Some f => f | None => 50 end /\
  current (dataPtr L) = 0%Z /\
  lastScorePubTime (dataPtr L) = None /\
  (sdf_pick_up_location _sdf = None ->
   checkpoints (dataPtr L) = [] /\
   newTaskRosService L = false /\ scoreRosPub L = false /\
   updateConnection L = false) /\
  (forall loc, sdf_pick_up_location _sdf = Some loc ->
     pickUpLocation (dataPtr L) = loc /\
     checkpoints (dataPtr L) = [mk (sdf_go_to_pick_up _sdf)] /\
     newTaskRosService L = ros_isInitialized /\
     scoreRosPub L = ros_isInitialized /\
     updateConnection L = ros_isInitialized).
Proof.
intros Derived Sdf mk ros _sdf L. unfold L, Load.
destruct (sdf_score_frequency _sdf) as [f |];
  destruct (sdf_pick_up_location _sdf) as [loc |]; destruct ros; cbn;
  (split; [reflexivity |]); (split; [reflexivity |]); (split; [reflexivity |]);
  (split; [intros Hn; try discriminate Hn; auto
          | intros loc' Hl; try discriminate Hl; injection Hl as <-; auto]).
Qed.

Lemma competition_load_witness :
let L := Load (fun w : R => Scenario.zone_cp w 1) false
           {| sdf_score_frequency := Some 10;
              sdf_pick_up_location := Some "FrontElevator"%string;
              sdf_go_to_pick_up := 2 |} in
pickUpLocation (dataPtr L) = "FrontElevator"%string /\
checkpoints (dataPtr L) = [Scenario.zone_cp 2 1] /\
newTaskRosService L = false /\
scoreRosPub L = false /\
updateConnection L = false.
Proof.
apply (competition_load ContainMembers R (fun w : R => Scenario.zone_cp w 1) false
         {| sdf_score_frequency := Some 10;
            sdf_pick_up_location := Some "FrontElevator"%string;
            sdf_go_to_pick_up := 2 |}).
reflexivity.
Defined.

(** X8.  Rate limit of the score message, for a positive score frequency
  and an update entered with a task running.  The first such update of the
  plugin's life only records its time and publishes nothing.  Later, an
  update less than [1/scoreFreq] after the recorded time publishes nothing
  and keeps the recorded time; any other update publishes one message and
  records its own time. *)
Theorem score_rate_limit :
forall (Derived : Type) (Check : Checkpoint Derived -> bool * Checkpoint Derived)
       (now : Time) (_info : UpdateInfo)
       (d d' : CompetitionPluginPrivate Derived) (m : option ScoreMsg),
  0 < scoreFreq d ->
  current d <> 0%Z ->
  OnUpdate Check now _info d = Some (d', m) ->
  match lastScorePubTime d with
  | None => m = None /\ lastScorePubTime d' = Some (simTime _info)
  | Some last =>
      (simTime _info - last < 1 / scoreFreq d ->
       m = None /\ lastScorePubTime d' = Some last) /\
      (1 / scoreFreq d <= simTime _info - last ->
       m <> None /\ lastScorePubTime d' = Some (simTime _info))
  end.
Proof.
intros Derived Check now _info d d' m Hf Hc H.
destruct (OnUpdate_active Derived Check now _info d d' m Hc H) as [d1 [Ha Hp]].
destruct (advance_keeps Derived Check now d d1 Ha) as [H1 [H2 _]].
unfold publish_score in Hp. rewrite H2 in Hp.
cbn [scoreFreq set_lastScorePubTime] in Hp. rewrite H1 in Hp.
assert (Hpos : 0 < 1 / scoreFreq d).
{ unfold Rdiv. rewrite Rmult_1_l. now apply Rinv_0_lt_compat. }
unfold TimeOps.sub in Hp.
destruct (lastScorePubTime d) as [last |].
- split; intros Hl.
  + rewrite Rltb_true in Hp by exact Hl. injection Hp as <- <-. auto.
  + rewrite Rltb_false in Hp by exact Hl. injection Hp as <- <-.
    split; [discriminate | reflexivity].
- rewrite Rltb_true in Hp by lra. injection Hp as <- <-. auto.
Qed.

Lemma score_rate_limit_witness :
exists d' m,
  OnUpdate ContainCheckpoint_Check 10 (Scenario.info_at 10)
    (set_current 1%Z Scenario.competition_2) = Some (d', m) /\
  m = None /\ lastScorePubTime d' = Some 10.
Proof.
destruct (tick_waiting ContainMembers ContainCheckpoint_Check 10 (Scenario.info_at 10)
            (set_current 1%Z Scenario.competition_2) (Scenario.zone_cp 2 1))
  as [d' [m [Hu _]]]; [discriminate | reflexivity | reflexivity |].
exists d', m. split; [exact Hu |].
apply (score_rate_limit ContainMembers ContainCheckpoint_Check 10
         (Scenario.info_at 10) (set_current 1%Z Scenario.competition_2) d' m).
- cbn. lra.
- discriminate.
- exact Hu.
Defined.

(** X9.  Every score message published in a run lists one score per
  checkpoint, and its total is the sum of the listed scores. *)
Theorem score_messages_shape :
forall (Derived : Type) (Check : Checkpoint Derived -> bool * Checkpoint Derived)
       (tr : list (Event Derived)) (d d' : CompetitionPluginPrivate Derived)
       (k : nat) (ms : list ScoreMsg),
  run Check tr d = Some (d', k, ms) ->
  Forall (fun msg =>
            List.length (msg_checkpoints msg) = List.length (checkpoints d) /\
            msg_score msg = fold_right Rplus 0 (msg_checkpoints msg)) ms.
Proof.
intros Derived Check tr. induction tr as [| e tr IH]; intros d d' k ms H.
- cbn in H. injection H as _ _ <-. constructor.
- cbn [run] in H.
  destruct (step Check e d) as [[d1 m] |] eqn:Hs; [| discriminate].
  destruct (run Check tr d1) as [[[d2 j] ms'] |] eqn:Hr; [| discriminate].
  injection H as _ _ <-.
  destruct (step_keeps Derived Check e d d1 m Hs) as [_ [_ [HL Hm]]].
  specialize (IH d1 d2 j ms' Hr). rewrite HL in IH.
  destruct m as [msg |]; [constructor; assumption | assumption].
Qed.

Lemma score_messages_shape_witness :
exists d' k ms,
  run ContainCheckpoint_Check
    [Tick 10 (Scenario.info_at 10); Tick 25 (Scenario.info_at 25)]
    (set_current 1%Z Scenario.competition_2) = Some (d', k, ms) /\
  Forall (fun msg =>
            List.length (msg_checkpoints msg) = 2%nat /\
            msg_score msg = fold_right Rplus 0 (msg_checkpoints msg)) ms.
Proof.
destruct competition_2_run as [d' [msg H]].
exists d', 0%nat, [msg]. split; [exact H |].
exact (score_messages_shape ContainMembers ContainCheckpoint_Check _ _ d' _ _ H).
Defined.

(** X10.  No run of updates and callbacks changes the plugin's
  configuration: the pick-up location, the score frequency and the number
  of checkpoints stay as they were.  The run's updates find at most one
  checkpoint complete each and publish at most one message each. *)
Theorem run_keeps_configuration :
forall (Derived : Type) (Check : Checkpoint Derived -> bool * Checkpoint Derived)
       (tr : list (Event Derived)) (d d' : CompetitionPluginPrivate Derived)
       (k : nat) (ms : list ScoreMsg),
  run Check tr d = Some (d', k, ms) ->
  pickUpLocation d' = pickUpLocation d /\
  scoreFreq d' = scoreFreq d /\
  List.length (checkpoints d') = List.length (checkpoints d) /\
  (k <= List.length tr)%nat /\
  (List.length ms <= List.length tr)%nat.
Proof.
intros Derived Check tr. induction tr as [| e tr IH]; intros d d' k ms H.
- cbn in H. injection H as <- <- <-. cbn. auto.
- cbn [run] in H.
  destruct (step Check e d) as [[d1 m] |] eqn:Hs; [| discriminate].
  destruct (run Check tr d1) as [[[d2 j] ms'] |] eqn:Hr; [| discriminate].
  injection H as <- <- <-.
  destruct (step_keeps Derived Check e d d1 m Hs) as [H1 [H2 [H3 _]]].
  destruct (IH d1 d2 j ms' Hr) as [G1 [G2 [G3 [G4 G5]]]].
  split; [congruence |]. split; [congruence |]. split; [congruence |].
  cbn [List.length]. split.
  + destruct e; cbn [counts]; [destruct (progresses Check d) |]; lia.
  + destruct m; cbn [List.length]; lia.
Qed.

Lemma run_keeps_configuration_witness :
exists d' k ms,
  run ContainCheckpoint_Check
    [Tick 10 (Scenario.info_at 10); Tick 25 (Scenario.info_at 25)]
    (set_current 1%Z Scenario.competition_2) = Some (d', k, ms) /\
  pickUpLocation d' = "FrontElevator"%string /\
  scoreFreq d' = 50 /\
  List.length (checkpoints d') = 2%nat /\
  (k <= 2)%nat /\
  (List.length ms <= 2)%nat.
Proof.
destruct competition_2_run as [d' [msg H]].
exists d', 0%nat, [msg]. split; [exact H |].
exact (run_keeps_configuration ContainMembers ContainCheckpoint_Check _ _ d' _ _ H).
Defined.

(** X11.  While a task is running, every new-task request is refused: for
  [1 <= N <= 254] checkpoints, after a task has been started and as long as
  fewer than [N] checkpoints have been found complete, whatever updates and
  callbacks have happened, [OnNewTaskRosService] returns false and leaves
  the plugin and the response as they are. *)
Theorem new_task_refused_while_running :
forall (Derived : Type) (Check : Checkpoint Derived -> bool * Checkpoint Derived)
       (now : Time) (_res : NewTaskResponse)
       (d d1 d2 : CompetitionPluginPrivate Derived) (r : NewTaskResponse)
       (tr : list (Event Derived)) (k : nat) (ms : list ScoreMsg),
  (1 <= List.length (checkpoints d) <= 254)%nat ->
  OnNewTaskRosService now _res d = Some (true, r, d1) ->
  run Check tr d1 = Some (d2, k, ms) ->
  (k < List.length (checkpoints d))%nat ->
  forall now' _res',
    OnNewTaskRosService now' _res' d2 = Some (false, _res', d2).
Proof.
intros Derived Check now _res d d1 d2 r tr k ms HN Hs Hr Hk now' _res'.
assert (Hc : current d = 0%Z).
{ unfold OnNewTaskRosService in Hs.
  destruct (current d =? 0)%Z eqn:E; [now apply Z.eqb_eq in E | discriminate Hs]. }
destruct (checkpoints d) as [| cp rest] eqn:Hl; [cbn in HN; lia |].
rewrite (new_task_accepted Derived now _res d cp rest Hc Hl) in Hs.
injection Hs as _ <-.
assert (HI : task_inv (List.length (cp :: rest))
               (set_checkpoints (Start now cp :: rest) (set_current 1%Z d)) 0).
{ split; [reflexivity |]. left. split; [cbn; lia | reflexivity]. }
destruct (run_task_inv Derived Check _ tr (proj2 HN) _ 0%nat HI)
  as [d2' [k' [ms' [Hr' [_ HI2]]]]].
rewrite Hr in Hr'. injection Hr' as <- <- <-. cbn [Nat.add] in HI2.
apply new_task_refused. destruct HI2 as [[_ Hcur] | [Hk' _]]; lia.
Qed.

Lemma new_task_refused_while_running_witness :
exists d1,
  OnNewTaskRosService 10 Scenario.no_response Scenario.competition_1
  = Some (true, {| pick_up_location := "FrontElevator"%string |}, d1) /\
  OnNewTaskRosService 11 Scenario.no_response d1
  = Some (false, Scenario.no_response, d1).
Proof.
exists (set_checkpoints [Start 10 (Scenario.zone_cp 2 1)]
          (set_current 1%Z Scenario.competition_1)).
split; [reflexivity |].
apply (new_task_refused_while_running ContainMembers ContainCheckpoint_Check
         10 Scenario.no_response Scenario.competition_1
         (set_checkpoints [Start 10 (Scenario.zone_cp 2 1)]
            (set_current 1%Z Scenario.competition_1))
         (set_checkpoints [Start 10 (Scenario.zone_cp 2 1)]
            (set_current 1%Z Scenario.competition_1))
         {| pick_up_location := "FrontElevator"%string |} [] 0%nat []).
- cbn. lia.
- reflexivity.
- reflexivity.
- cbn. lia.
Defined.

(** X12.  The update that finds the last checkpoint complete resets the
  index to 0 and still runs the publication step: for a positive score
  frequency, when the rate limit allows, it publishes the scores, one per
  checkpoint.  The updates after it publish nothing. *)
Theorem final_update_publishes :
forall (Derived : Type) (Check : Checkpoint Derived -> bool * Checkpoint Derived)
       (now : Time) (_info : UpdateInfo) (d : CompetitionPluginPrivate Derived)
       (cp : Checkpoint Derived) (last : Time),
  (1 <= List.length (checkpoints d) <= 254)%nat ->
  current d = Z.of_nat (List.length (checkpoints d)) ->
  vec_at (checkpoints d) (current d - 1) = Some cp ->
  fst (Check cp) = true ->
  0 < scoreFreq d ->
  lastScorePubTime d = Some last ->
  1 / scoreFreq d <= simTime _info - last ->
  exists d' msg,
    OnUpdate Check now _info d = Some (d', Some msg) /\
    current d' = 0%Z /\
    msg_checkpoints msg = map (Score now) (checkpoints d') /\
    List.length (msg_checkpoints msg) = List.length (checkpoints d) /\
    forall now' _info', OnUpdate Check now' _info' d' = Some (d', None).
Proof.
intros Derived Check now _info d cp last HN Hc Hcp Ht Hpos Hl Hf.
destruct (advance_spec Derived Check now d) as [cp' [Hcp' Hadv]]; [lia | lia |].
rewrite Hcp in Hcp'. injection Hcp' as <-.
cbv zeta in Hadv. rewrite Ht in Hadv.
replace (current d =? Z.of_nat (List.length (checkpoints d)))%Z with true in Hadv
  by (symmetry; now apply Z.eqb_eq).
unfold OnUpdate at 1.
replace (current d =? 0)%Z with false by (symmetry; apply Z.eqb_neq; lia).
rewrite Hadv. unfold publish_score.
cbn [lastScorePubTime set_current set_checkpoints set_lastScorePubTime scoreFreq
     checkpoints].
rewrite Hl. unfold TimeOps.sub. rewrite Rltb_false by exact Hf.
eexists _, _. split; [reflexivity |].
split; [reflexivity |]. split; [reflexivity |].
split; [cbn; now rewrite length_map, vec_set_length |].
intros now' _info'. reflexivity.
Qed.

Lemma final_update_publishes_witness :
exists d' msg,
  OnUpdate ContainCheckpoint_Check 25 (Scenario.info_at 25)
    Scenario.competition_1_reached = Some (d', Some msg) /\
  current d' = 0%Z /\
  msg_checkpoints msg = map (Score 25) (checkpoints d') /\
  List.length (msg_checkpoints msg) = 1%nat /\
  forall now' _info',
    OnUpdate ContainCheckpoint_Check now' _info' d' = Some (d', None).
Proof.
apply (final_update_publishes ContainMembers ContainCheckpoint_Check 25
         (Scenario.info_at 25) Scenario.competition_1_reached
         (contain_run [CallCheck; Reply true; Contain true]
            (Start 10 (Scenario.zone_cp 2 1))) 10).
- cbn. lia.
- reflexivity.
- reflexivity.
- reflexivity.
- cbn. lra.
- reflexivity.
- cbn. lra.
Defined.

(** X13.  An update entered with the index in range and below 255 touches
  at most two checkpoints: the active one, through [Check], and, when that
  one is complete and not the last, the next one, which it starts at the
  current time.  Every other checkpoint is left as it was. *)
Theorem update_touches_active_and_next :
forall (Derived : Type) (Check : Checkpoint Derived -> bool * Checkpoint Derived)
       (now : Time) (_info : UpdateInfo)
       (d d' : CompetitionPluginPrivate Derived) (m : option ScoreMsg),
  (0 <= current d <= 254)%Z ->
  OnUpdate Check now _info d = Some (d', m) ->
  (forall j : nat,
      Z.of_nat j <> (current d - 1)%Z -> Z.of_nat j <> current d ->
      nth_error (checkpoints d') j = nth_error (checkpoints d) j) /\
  (current d' = (current d + 1)%Z ->
   exists nx, vec_at (checkpoints d) (current d) = Some nx /\
              vec_at (checkpoints d') (current d) = Some (Start now nx)).
Proof.
intros Derived Check now _info d d' m Hc H.
destruct (Z.eq_dec (current d) 0) as [H0 | H0].
{ unfold OnUpdate in H. rewrite H0 in H. cbn in H. injection H as <- <-.
  split; [reflexivity | lia]. }
destruct (OnUpdate_active Derived Check now _info d d' m H0 H) as [d1 [Ha Hp]].
assert (Hd' : d' = fst (publish_score now _info d1)) by now rewrite Hp.
subst d'. rewrite publish_score_checkpoints, publish_score_current.
clear Hp H. unfold advance in Ha.
destruct (vec_at (checkpoints d) (current d - 1)) as [cp |]; [| discriminate].
destruct (Check cp) as [r cp']. destruct r.
- cbn [current checkpoints set_current set_checkpoints] in Ha.
  rewrite wrap8_small in Ha by lia.
  replace (current d + 1 - 1)%Z with (current d) in Ha by lia.
  destruct (_ >? _)%Z.
  + injection Ha as <-. cbn. split; [| lia].
    intros j Hj _. now apply nth_error_vec_set_other.
  + destruct (vec_at (vec_set (checkpoints d) (current d - 1) cp') (current d))
      as [nx |] eqn:Hnx; [| discriminate].
    injection Ha as <-. cbn. split.
    * intros j Hj1 Hj2. rewrite nth_error_vec_set_other by exact Hj2.
      now apply nth_error_vec_set_other.
    * intros _. exists nx.
      replace (current d) with (Z.of_nat (Z.to_nat (current d))) in Hnx |- * by lia.
      rewrite vec_at_of_nat in *. rewrite vec_set_of_nat.
      rewrite nth_error_vec_set_other in Hnx by lia.
      split; [exact Hnx |].
      rewrite vec_at_of_nat.
      apply nth_error_list_set_same. rewrite vec_set_length.
      apply nth_error_Some. rewrite Hnx. discriminate.
- injection Ha as <-. cbn. split; [| lia].
  intros j Hj _. now apply nth_error_vec_set_other.
Qed.

Lemma update_touches_active_and_next_witness :
exists d' m,
  OnUpdate ContainCheckpoint_Check 25 (Scenario.info_at 25)
    Scenario.competition_2_reached = Some (d', m) /\
  current d' = 2%Z /\
  vec_at (checkpoints d') 1 = Some (Start 25 (Scenario.zone_cp 3 2)).
Proof.
destruct (tick_spec ContainMembers ContainCheckpoint_Check 25 (Scenario.info_at 25)
            Scenario.competition_2_reached) as [cp [d' [m [Hcp [Hu [_ Hs]]]]]];
  [cbn; lia | cbn; lia |].
exists d', m. split; [exact Hu |].
assert (Hc : current d' = 2%Z).
{ cbn in Hcp. injection Hcp as <-. cbn in Hs. apply Hs. }
split; [exact Hc |].
destruct (update_touches_active_and_next ContainMembers ContainCheckpoint_Check 25
            (Scenario.info_at 25) Scenario.competition_2_reached d' m)
  as [_ Hn]; [cbn; lia | exact Hu |].
destruct (Hn Hc) as [nx [Hnx Hst]].
cbn in Hnx. injection Hnx as <-. exact Hst.
Defined.

End CompetitionExtraClaims.

(** ** FollowActorPlugin *)

Lemma Rleb_iff (a b : R) : Rleb a b = true <-> a <= b.
Proof.
  split; [| apply Rleb_true].
  unfold Rleb. destruct (Rle_dec a b); [trivial | discriminate].
Qed.

Lemma name_listed (name : string) (l : list string) :
  existsb (String.eqb name) l = true <-> In name l.
Proof.
  rewrite existsb_exists. split.
  - intros [x [Hin He]]. apply String.eqb_eq in He. now subst x.
  - intros H. exists name. split; [exact H | apply String.eqb_refl].
Qed.

Section FollowExtras.

Import FollowActorPlugin.

(** The enlarged box of [ObstacleOnTheWay] contains a point exactly when the
  point is within the margin of the box horizontally and within the margin
  plus 5 vertically. *)
Lemma inflated_contains (m : R) (bb : Box) (p : Vector3d) :
Box_Contains (inflate m bb) p = true <->
(X_ (Min bb) - m <= X_ p <= X_ (Max bb) + m) /\
(Y_ (Min bb) - m <= Y_ p <= Y_ (Max bb) + m) /\
(Z_ (Min bb) - m - 5 <= Z_ p <= Z_ (Max bb) + m + 5).
Proof.
unfold Box_Contains, inflate, Rgeb. cbn.
rewrite !andb_true_iff, !Rleb_iff. split; intros H; repeat split; lra.
Qed.

Lemma ObstacleOnTheWay_iff (w : World) (d : FollowActorPluginPrivate) :
ObstacleOnTheWay w d = true <->
exists p,
  In p (Models w) /\
  ~ In (GetName (deref w p)) (ignoreModels d) /\
  Box_Contains (inflate (obstacleMargin d) (BoundingBox (deref w p)))
               (Pos (WorldPose (deref w (actor d)))) = true.
Proof.
unfold ObstacleOnTheWay. rewrite existsb_exists. split.
- intros [p [Hin H]]. exists p. split; [exact Hin |].
  destruct (existsb _ (ignoreModels d)) eqn:E; [discriminate H |].
  split; [| exact H]. intros Hl. apply name_listed in Hl. congruence.
- intros [p [Hin [Hn H]]]. exists p. split; [exact Hin |].
  destruct (existsb _ (ignoreModels d)) eqn:E; [| exact H].
  apply name_listed in E. contradiction.
Qed.

Lemma Length_zero : Vector3d.Length (mkVector3d 0 0 0) = 0.
Proof.
unfold Vector3d.Length. cbn.
replace (0 * 0 + 0 * 0 + 0 * 0) with 0 by lra. apply sqrt_0.
Qed.

Lemma Length_ge_0 (v : Vector3d) : 0 <= Vector3d.Length v.
Proof. apply sqrt_pos. Qed.

(** A normalized vector is at most one long. *)
Lemma Normalize_Length (v : Vector3d) :
Vector3d.Length (Vector3d.Normalize v) <= 1.
Proof.
unfold Vector3d.Normalize, Vector3d.equal.
pose proof (Length_ge_0 v) as Hd. pose proof (Length_sq v) as Hsq.
set (len := Vector3d.Length v) in *.
destruct (Rleb (Rabs (len - 0)) (1 / 1000000)) eqn:E; cbn [negb].
- apply Rleb_iff in E. rewrite Rabs_pos_eq in E by lra. fold len. lra.
- assert (Hpos : 1 / 1000000 < len).
  { destruct (Rle_dec len (1 / 1000000)) as [Hle | Hgt]; [| lra].
    rewrite Rleb_true in E; [discriminate E |].
    rewrite Rabs_pos_eq by lra. lra. }
  unfold Vector3d.Length at 1. cbn.
  replace (X_ v / len * (X_ v / len) + Y_ v / len * (Y_ v / len)
           + Z_ v / len * (Z_ v / len))
    with ((X_ v * X_ v + Y_ v * Y_ v + Z_ v * Z_ v) / (len * len))
    by (field; lra).
  rewrite <- Hsq. replace (len * len / (len * len)) with 1 by (field; lra).
  rewrite sqrt_1. lra.
Qed.

(** The horizontal length of a vector is at most its length. *)
Lemma planar_Length (x y z : R) :
sqrt (x * x + y * y + 0 * 0) <= Vector3d.Length (mkVector3d x y z).
Proof.
unfold Vector3d.Length. cbn. apply sqrt_le_1_alt. nra.
Qed.

(** The branches of [OnUpdate], by the tests it makes. *)
Lemma OnUpdate_cases _info w d :
OnUpdate _info w d = (w, set_lastUpdate (simTime _info) d) \/
OnUpdate _info w d = (w, set_target None (set_lastUpdate (simTime _info) d)) \/
exists tgt,
  target d = Some tgt /\ ObstacleOnTheWay w d = false /\
  minDistance d <
    Vector3d.Length (Vector3d.sub (Pos (WorldPose (deref w tgt)))
                                  (Pos (WorldPose (deref w (actor d))))) /\
  Vector3d.Length (Vector3d.sub (Pos (WorldPose (deref w tgt)))
                                (Pos (WorldPose (deref w (actor d)))))
    <= maxDistance d.
Proof.
destruct (target d) as [tgt |] eqn:Ht;
  [| left; now apply OnUpdate_no_target].
destruct (ObstacleOnTheWay w d) eqn:Ho;
  [left; now apply OnUpdate_blocked with (tgt := tgt) |].
set (len := Vector3d.Length (Vector3d.sub (Pos (WorldPose (deref w tgt)))
                                          (Pos (WorldPose (deref w (actor d)))))).
destruct (Rle_dec len (minDistance d)) as [Hmin | Hmin];
  [left; now apply OnUpdate_close with (tgt := tgt) |].
destruct (Rle_dec len (maxDistance d)) as [Hmax | Hmax].
- right. right. exists tgt. repeat split; auto. fold len. lra.
- right. left. apply OnUpdate_too_far with (tgt := tgt); auto; fold len; lra.
Qed.

(** The cases in which [OnUpdate] only records the time. *)
Lemma OnUpdate_holds _info w d :
ObstacleOnTheWay w d = true \/
(exists tgt,
    target d = Some tgt /\
    Vector3d.Length (Vector3d.sub (Pos (WorldPose (deref w tgt)))
                                  (Pos (WorldPose (deref w (actor d)))))
      <= minDistance d) ->
OnUpdate _info w d = (w, set_lastUpdate (simTime _info) d).
Proof.
intros [Ho | [tgt [Ht Hc]]].
- destruct (target d) as [tgt |] eqn:Ht.
  + now apply OnUpdate_blocked with (tgt := tgt).
  + now apply OnUpdate_no_target.
- destruct (ObstacleOnTheWay w d) eqn:Ho.
  + now apply OnUpdate_blocked with (tgt := tgt).
  + now apply OnUpdate_close with (tgt := tgt).
Qed.

End FollowExtras.

Section FollowExtraClaims.

Import FollowActorPlugin.

(** X14.  What [FollowActorPlugin::Load] leaves behind: each parameter is
  the SDF's value, or its default (0.8, 1.2, 4, 2, 0.5, 5.1) when absent;
  no target; the ignore list is the actor's own name followed by the
  <ignore_obstacle> entries; the update loop is connected whether or not
  ROS is initialized, the two services only if it is; the custom trajectory
  is set only if the animation (default "animation") is one of the actor's
  skeleton animations.  Consequently a loaded actor is never blocked in a
  world all of whose models bear its own name or a listed one. *)
Theorem follow_load :
forall (a : ModelPtr) (w0 : World) (skelAnims : list string)
       (ros_isInitialized : bool) (_sdf : PluginSdf),
  let L := Load a w0 skelAnims ros_isInitialized _sdf in
  let d := dataPtr L in
  let animation :=
    match sdf_animation _sdf with Some s => s | None => "animation"%string end in
  (actor d = a /\ target d = None /\ lastUpdate d = TimeOps.Zero /\
   velocity d = sdf_or (sdf_velocity _sdf) (8 / 10) /\
   minDistance d = sdf_or (sdf_min_distance _sdf) (12 / 10) /\
   maxDistance d = sdf_or (sdf_max_distance _sdf) 4 /\
   pickUpRadius d = sdf_or (sdf_pickup_radius _sdf) 2 /\
   obstacleMargin d = sdf_or (sdf_obstacle_margin _sdf) (5 / 10) /\
   animationFactor d = sdf_or (sdf_animation_factor _sdf) (51 / 10) /\
   ignoreModels d = GetName (deref w0 a) :: sdf_ignore_obstacle _sdf) /\
  (connections L = 1%nat /\
   pickUpRosService L = ros_isInitialized /\
   dropOffRosService L = ros_isInitialized) /\
  (In animation skelAnims ->
   customTrajectory L
   = Some {| trajectory_type := animation; trajectory_duration := 1 |}) /\
  (~ In animation skelAnims -> customTrajectory L = None) /\
  (forall w : World,
      (forall p, In p (Models w) ->
                 In (GetName (deref w p))
                    (GetName (deref w0 a) :: sdf_ignore_obstacle _sdf)) ->
      ObstacleOnTheWay w d = false).
Proof.
intros a w0 skelAnims ros _sdf L d animation.
split; [repeat split |]. split; [repeat split |].
split; [| split].
- intros Hin. unfold L, Load. cbn [customTrajectory]. fold animation.
  apply name_listed in Hin. now rewrite Hin.
- intros Hn. unfold L, Load. cbn [customTrajectory]. fold animation.
  destruct (existsb (String.eqb animation) skelAnims) eqn:E; [| reflexivity].
  apply name_listed in E. contradiction.
- intros w Hall.
  destruct (ObstacleOnTheWay w d) eqn:E; [| reflexivity].
  apply ObstacleOnTheWay_iff in E. destruct E as [p [Hin [Hn _]]].
  exfalso. apply Hn. exact (Hall p Hin).
Qed.

Lemma follow_load_witness :
ObstacleOnTheWay Scenario.world_near
  (dataPtr (Load 0%nat Scenario.world_near ["animation"%string] true
              Scenario.sdf_ignoring_robot)) = false
/\ customTrajectory (Load 0%nat Scenario.world_near ["animation"%string] true
                       Scenario.sdf_ignoring_robot)
   = Some {| trajectory_type := "animation"; trajectory_duration := 1 |}.
Proof.
pose proof (follow_load 0%nat Scenario.world_near ["animation"%string] true
              Scenario.sdf_ignoring_robot) as H.
cbv zeta in H. destruct H as [_ [_ [Ht [_ Ho]]]].
split.
- apply Ho. intros p [<- | [<- | []]]; cbn; auto.
- apply Ht. cbn. auto.
Defined.

(** X15.  [ObstacleOnTheWay] is true exactly when some model of the world,
  whose name is not on the ignore list, has the actor's position within
  [obstacleMargin] of its bounding box on X and on Y, and within
  [obstacleMargin + 5] of it on Z. *)
Theorem obstacle_on_the_way_spec :
forall (w : World) (d : FollowActorPluginPrivate),
  ObstacleOnTheWay w d = true <->
  exists p,
    In p (Models w) /\
    ~ In (GetName (deref w p)) (ignoreModels d) /\
    let bb := BoundingBox (deref w p) in
    let pos := Pos (WorldPose (deref w (actor d))) in
    let m := obstacleMargin d in
    (X_ (Min bb) - m <= X_ pos <= X_ (Max bb) + m) /\
    (Y_ (Min bb) - m <= Y_ pos <= Y_ (Max bb) + m) /\
    (Z_ (Min bb) - m - 5 <= Z_ pos <= Z_ (Max bb) + m + 5).
Proof.
intros w d. rewrite ObstacleOnTheWay_iff.
split; intros [p [Hin [Hn H]]]; exists p; (split; [exact Hin |]);
  (split; [exact Hn |]); cbv zeta in *; now apply inflated_contains.
Qed.

(** X16.  Enlarging the obstacle margin never unblocks: if an obstacle is on
  the way with margin [m1], it is on the way with any margin [m2 >= m1],
  everything else being equal. *)
Theorem obstacle_margin_monotone :
forall (w : World) (d1 d2 : FollowActorPluginPrivate),
  actor d1 = actor d2 ->
  ignoreModels d1 = ignoreModels d2 ->
  obstacleMargin d1 <= obstacleMargin d2 ->
  ObstacleOnTheWay w d1 = true ->
  ObstacleOnTheWay w d2 = true.
Proof.
intros w d1 d2 Ha Hi Hm H.
apply ObstacleOnTheWay_iff in H. destruct H as [p [Hin [Hn Hc]]].
apply ObstacleOnTheWay_iff. exists p. split; [exact Hin |].
split; [now rewrite <- Hi |].
apply inflated_contains in Hc. apply inflated_contains.
rewrite <- Ha. repeat split; lra.
Qed.

Lemma obstacle_margin_monotone_witness :
ObstacleOnTheWay Scenario.world_far_blocked
  (Scenario.with_margin 3 (Scenario.follower (Some 1%nat))) = true.
Proof.
apply (obstacle_margin_monotone Scenario.world_far_blocked
         (Scenario.follower (Some 1%nat))
         (Scenario.with_margin 3 (Scenario.follower (Some 1%nat)))).
- reflexivity.
- reflexivity.
- cbn. lra.
- apply obstacle_far_blocked.
Defined.

Lemma sub_self (v : Vector3d) : Vector3d.Length (Vector3d.sub v v) = 0.
Proof.
unfold Vector3d.sub.
replace (mkVector3d (X_ v - X_ v) (Y_ v - Y_ v) (Z_ v - Z_ v))
  with (mkVector3d 0 0 0) by (f_equal; lra).
apply Length_zero.
Qed.


(** X18.  In one update the actor moves, horizontally, by at most
  [|velocity * dt|], where [dt] is the time since the previous update. *)
Theorem update_speed_bound :
forall (_info : UpdateInfo) (w : World) (d : FollowActorPluginPrivate),
  let w' := fst (OnUpdate _info w d) in
  Vector3d.Length
    (Vector3d.sub (Pos (WorldPose (deref w' (actor d))))
                  (Pos (WorldPose (deref w (actor d)))))
  <= Rabs (velocity d * (simTime _info - lastUpdate d)).
Proof.
intros _info w d w'. unfold w'.
destruct (OnUpdate_cases _info w d) as [E | [E | [tgt [Ht [Ho [Hmin Hmax]]]]]].
- rewrite E. cbn [fst]. rewrite sub_self. apply Rabs_pos.
- rewrite E. cbn [fst]. rewrite sub_self. apply Rabs_pos.
- rewrite (OnUpdate_follows _info w d tgt Ht Ho Hmin Hmax). cbn [fst].
  rewrite deref_store_same. cbn [WorldPose Pos].
  set (a := Pos (WorldPose (deref w (actor d)))).
  set (dn := Vector3d.Normalize
               (Vector3d.sub (Pos (WorldPose (deref w tgt))) a)).
  set (s := velocity d * (simTime _info - lastUpdate d)).
  assert (Hn : Vector3d.Length dn <= 1) by apply Normalize_Length.
  pose proof (Length_ge_0 dn) as Hn0. pose proof (Length_sq dn) as Hsq.
  unfold Vector3d.Length at 1. cbn.
  apply Rle_trans with (sqrt (Rsqr (Vector3d.Length dn * s))).
  + apply sqrt_le_1_alt.
    replace (Rsqr (Vector3d.Length dn * s))
      with ((X_ dn * s) * (X_ dn * s) + (Y_ dn * s) * (Y_ dn * s)
            + (Z_ dn * s) * (Z_ dn * s))
      by (unfold Rsqr;
          replace (Vector3d.Length dn * s * (Vector3d.Length dn * s))
            with (Vector3d.Length dn * Vector3d.Length dn * (s * s)) by ring;
          rewrite Hsq; ring).
    pose proof (Rle_0_sqr (Z_ dn * s)) as Hz. unfold Rsqr in Hz.
    match goal with
    | |- ?L <= _ =>
        replace L with ((X_ dn * s) * (X_ dn * s) + (Y_ dn * s) * (Y_ dn * s))
          by (unfold s; ring)
    end.
    lra.
  + rewrite sqrt_Rsqr_abs, Rabs_mult, (Rabs_pos_eq _ Hn0).
    pose proof (Rabs_pos s). nra.
Qed.

Lemma Normalize_far (v : Vector3d) :
1 / 1000000 < Vector3d.Length v ->
Vector3d.Normalize v
= mkVector3d (X_ v / Vector3d.Length v) (Y_ v / Vector3d.Length v)
             (Z_ v / Vector3d.Length v).
Proof.
intros H. unfold Vector3d.Normalize, Vector3d.equal.
rewrite Rabs_pos_eq by lra. rewrite Rleb_false by lra. reflexivity.
Qed.

(** X19.  Following a target at the actor's own height: with a target other
  than the actor itself, no obstacle, and the distance [len] to the target
  above [minDistance] (and above the normalization tolerance) and at most
  [maxDistance], the distance to the target after the update is
  [|len - velocity * dt|]: the actor closes in by [velocity * dt], and
  passes the target when that exceeds [len]. *)
Theorem follow_closes_in :
forall (_info : UpdateInfo) (w : World) (d : FollowActorPluginPrivate)
       (tgt : ModelPtr),
  let a := Pos (WorldPose (deref w (actor d))) in
  let t := Pos (WorldPose (deref w tgt)) in
  let len := Vector3d.Length (Vector3d.sub t a) in
  let w' := fst (OnUpdate _info w d) in
  target d = Some tgt ->
  tgt <> actor d ->
  ObstacleOnTheWay w d = false ->
  Z_ t = Z_ a ->
  1 / 1000000 < len ->
  minDistance d < len ->
  len <= maxDistance d ->
  Vector3d.Length
    (Vector3d.sub (Pos (WorldPose (deref w' tgt)))
                  (Pos (WorldPose (deref w' (actor d)))))
  = Rabs (len - velocity d * (simTime _info - lastUpdate d)).
Proof.
intros _info w d tgt a t len w' Ht Hne Ho Hz Htol Hmin Hmax. unfold w'.
rewrite (OnUpdate_follows _info w d tgt Ht Ho Hmin Hmax). cbn [fst].
rewrite deref_store_same, deref_store_other by exact Hne.
cbn [WorldPose Pos]. fold a t.
rewrite Normalize_far by exact Htol. fold len.
set (s := velocity d * (simTime _info - lastUpdate d)).
pose proof (Length_sq (Vector3d.sub t a)) as Hsq. fold len in Hsq.
cbn in Hsq.
unfold Vector3d.Length at 1. cbn.
rewrite <- sqrt_Rsqr_abs. f_equal.
replace (Z_ t - Z_ a) with 0 in * by lra.
transitivity
  (((X_ t - X_ a) * (X_ t - X_ a) + (Y_ t - Y_ a) * (Y_ t - Y_ a) + 0 * 0)
   * ((1 - s / len) * (1 - s / len))).
- unfold s. field. lra.
- rewrite <- Hsq. unfold Rsqr. field. lra.
Qed.

Lemma follow_closes_in_witness :
let w' := fst (OnUpdate (Scenario.info_at 1) Scenario.world_near
                 (Scenario.follower (Some 1%nat))) in
Vector3d.Length
  (Vector3d.sub (Pos (WorldPose (deref w' 1%nat)))
                (Pos (WorldPose (deref w' 0%nat))))
= Rabs (2 - 8 / 10 * (1 - 0)).
Proof.
pose proof (follow_closes_in (Scenario.info_at 1) Scenario.world_near
              (Scenario.follower (Some 1%nat)) 1%nat) as H.
cbv zeta in H.
change (actor (Scenario.follower (Some 1%nat))) with 0%nat in H.
rewrite near_distance in H.
apply H.
- reflexivity.
- discriminate.
- apply no_obstacle_near.
- reflexivity.
- lra.
- cbn. lra.
- cbn. lra.
Defined.

(** X20.  An update moves the actor only when it follows: if the actor's
  pose after the update differs from the one before, then a target is
  set, no obstacle is on the way, and the distance to the target is above
  [minDistance] and at most [maxDistance].  Without a target, with an
  obstacle, or close enough to the target, the world is left as it is and
  the target is kept. *)
Theorem update_moves_only_when_following :
forall (_info : UpdateInfo) (w : World) (d : FollowActorPluginPrivate),
  (WorldPose (deref (fst (OnUpdate _info w d)) (actor d))
   <> WorldPose (deref w (actor d)) ->
   exists tgt,
     target d = Some tgt /\ ObstacleOnTheWay w d = false /\
     minDistance d <
       Vector3d.Length (Vector3d.sub (Pos (WorldPose (deref w tgt)))
                                     (Pos (WorldPose (deref w (actor d))))) /\
     Vector3d.Length (Vector3d.sub (Pos (WorldPose (deref w tgt)))
                                   (Pos (WorldPose (deref w (actor d)))))
       <= maxDistance d) /\
  (target d = None \/ ObstacleOnTheWay w d = true \/
   (exists tgt,
       target d = Some tgt /\
       Vector3d.Length (Vector3d.sub (Pos (WorldPose (deref w tgt)))
                                     (Pos (WorldPose (deref w (actor d)))))
         <= minDistance d) ->
   OnUpdate _info w d = (w, set_lastUpdate (simTime _info) d)).
Proof.
intros _info w d. split.
- intros Hmoved.
  destruct (OnUpdate_cases _info w d) as [E | [E | H]]; [| | exact H];
    rewrite E in Hmoved; now contradiction Hmoved.
- intros [Hn | [Ho | [tgt [Ht Hc]]]].
  + now apply OnUpdate_no_target.
  + destruct (target d) as [tgt |] eqn:Ht.
    * now apply OnUpdate_blocked with (tgt := tgt).
    * now apply OnUpdate_no_target.
  + destruct (ObstacleOnTheWay w d) eqn:Ho.
    * now apply OnUpdate_blocked with (tgt := tgt).
    * now apply OnUpdate_close with (tgt := tgt).
Qed.

Lemma update_moves_only_when_following_witness :
OnUpdate (Scenario.info_at 1) Scenario.world_far_blocked
  (Scenario.follower (Some 1%nat))
= (Scenario.world_far_blocked, set_lastUpdate 1 (Scenario.follower (Some 1%nat))).
Proof.
apply (proj2 (update_moves_only_when_following (Scenario.info_at 1)
                Scenario.world_far_blocked (Scenario.follower (Some 1%nat)))).
right. left. apply obstacle_far_blocked.
Defined.

(** X21.  [OnDropOffRosRequest] succeeds if and only if the guest name is
  the actor's name; the response status equals the return value.  A
  failed request leaves the plugin as it is; a successful one clears the
  target, whatever it was, and changes nothing else; repeating the request
  gives the same answer and the same state. *)
Theorem drop_off_spec :
forall (_req : DropOffRequest) (w : World) (d : FollowActorPluginPrivate),
  let ret := fst (fst (OnDropOffRosRequest _req w d)) in
  let _res := snd (fst (OnDropOffRosRequest _req w d)) in
  let d' := snd (OnDropOffRosRequest _req w d) in
  (ret = true <-> dropoff_guest_name _req = GetName (deref w (actor d))) /\
  success _res = ret /\
  (ret = false -> d' = d) /\
  (ret = true -> d' = set_target None d) /\
  OnDropOffRosRequest _req w d' = (ret, _res, d').
Proof.
intros _req w d. cbv zeta. unfold OnDropOffRosRequest.
destruct (String.eqb (dropoff_guest_name _req) (GetName (deref w (actor d)))) eqn:E;
  cbn [negb fst snd success actor set_target].
- rewrite E. cbn [negb]. apply String.eqb_eq in E.
  split; [split; auto |]. split; [reflexivity |].
  split; [discriminate |]. split; reflexivity.
- rewrite E. cbn [negb]. apply String.eqb_neq in E.
  split; [split; [discriminate | intros H; contradiction] |].
  split; [reflexivity |]. split; [reflexivity |].
  split; [discriminate | reflexivity].
Qed.

Lemma drop_off_spec_witness :
OnDropOffRosRequest (mkDropOffRequest "guest") Scenario.world_near
  (Scenario.follower (Some 1%nat))
= (true, mkResponse true, Scenario.follower None).
Proof.
pose proof (drop_off_spec (mkDropOffRequest "guest") Scenario.world_near
              (Scenario.follower (Some 1%nat))) as H.
cbv zeta in H. destruct H as [Hiff [Hres [_ [Hd _]]]].
assert (Hr : fst (fst (OnDropOffRosRequest (mkDropOffRequest "guest")
                         Scenario.world_near (Scenario.follower (Some 1%nat)))) = true)
  by (apply Hiff; reflexivity).
specialize (Hd Hr). rewrite Hr in Hres.
destruct (OnDropOffRosRequest (mkDropOffRequest "guest") Scenario.world_near
            (Scenario.follower (Some 1%nat))) as [[r [s]] d'].
cbn in Hr, Hres, Hd. subst. reflexivity.
Defined.

(** X22.  Without a target the actor stays where it is: starting with no
  target, after any run of updates, drop-offs, resets and pick-up requests
  none of which succeeds, an update in any world leaves that world as it
  is. *)
Theorem no_target_no_motion :
forall (tr : list (World * Event)) (d : FollowActorPluginPrivate)
       (_info : UpdateInfo) (w : World),
  target d = None ->
  no_pick_up tr d = true ->
  OnUpdate _info w (run tr d)
  = (w, set_lastUpdate (simTime _info) (run tr d)).
Proof.
intros tr d _info w Ht Hn.
apply OnUpdate_no_target. now apply run_keeps_no_target.
Qed.

Lemma no_target_no_motion_witness :
OnUpdate (Scenario.info_at 2) Scenario.world_near
  (run [(Scenario.world_far, Update (Scenario.info_at 1));
        (Scenario.world_far, PickUp (mkPickUpRequest "guest" "robot"))]
     (Scenario.follower None))
= (Scenario.world_near,
   set_lastUpdate 2
     (run [(Scenario.world_far, Update (Scenario.info_at 1));
           (Scenario.world_far, PickUp (mkPickUpRequest "guest" "robot"))]
        (Scenario.follower None))).
Proof.
apply (no_target_no_motion
         [(Scenario.world_far, Update (Scenario.info_at 1));
          (Scenario.world_far, PickUp (mkPickUpRequest "guest" "robot"))]
         (Scenario.follower None) (Scenario.info_at 2) Scenario.world_near).
- reflexivity.
- cbn [no_pick_up picks_up handle negb andb].
  rewrite OnUpdate_no_target by reflexivity. cbn [snd].
  unfold OnPickUpRosRequest. cbn.
  rewrite pickUpDistance_along_X.
  replace (Rabs (0 - 5)) with 5 by (rewrite Rabs_left; lra).
  unfold Rgtb. rewrite Rltb_true by lra. reflexivity.
Defined.

Lemma same_height_distance (a t : Vector3d) :
Z_ t = Z_ a -> Vector3d.Length (Vector3d.sub t a) = pickUpDistance a t.
Proof.
intros Hz. rewrite pickUpDistance_planar. unfold Vector3d.Length. cbn.
f_equal. rewrite Hz. ring.
Qed.

(** X23.  A pick-up is not undone by the next update when the pick-up radius
  is at most [maxDistance] and the robot stands at the actor's height: in
  the world in which the request succeeded, the update keeps the target. *)
Theorem pick_up_survives_update :
forall (_req : PickUpRequest) (_info : UpdateInfo) (w : World)
       (d : FollowActorPluginPrivate) (model : ModelPtr),
  fst (fst (OnPickUpRosRequest _req w d)) = true ->
  ModelByName w (robot_name _req) = Some model ->
  Z_ (Pos (WorldPose (deref w model))) = Z_ (Pos (WorldPose (deref w (actor d)))) ->
  pickUpRadius d <= maxDistance d ->
  target (snd (OnUpdate _info w (snd (OnPickUpRosRequest _req w d))))
  = Some model.
Proof.
intros _req _info w d model Hs Hm Hz Hr.
unfold OnPickUpRosRequest in *. rewrite Hm in *.
destruct (negb _); [discriminate Hs |].
destruct (Rgtb _ _) eqn:Eg; [discriminate Hs |].
apply Rgtb_false_iff in Eg. cbn [snd].
set (d1 := set_target (Some model) d).
assert (Ht : target d1 = Some model) by reflexivity.
pose proof (same_height_distance _ _ Hz) as Hl.
change (actor d) with (actor d1) in Hl, Eg.
destruct (ObstacleOnTheWay w d1) eqn:Ho.
- now rewrite (OnUpdate_blocked _info w d1 model Ht Ho).
- destruct (Rle_dec (Vector3d.Length
                       (Vector3d.sub (Pos (WorldPose (deref w model)))
                                     (Pos (WorldPose (deref w (actor d1))))))
                    (minDistance d1)) as [Hc | Hc].
  + now rewrite (OnUpdate_close _info w d1 model Ht Ho Hc).
  + rewrite (OnUpdate_follows _info w d1 model Ht Ho); [reflexivity | lra |].
    rewrite Hl. change (maxDistance d1) with (maxDistance d).
    change (pickUpRadius d1) with (pickUpRadius d) in Eg. lra.
Qed.

Lemma pick_up_survives_update_witness :
target (snd (OnUpdate (Scenario.info_at 1) Scenario.world_near
               (snd (OnPickUpRosRequest (mkPickUpRequest "guest" "robot")
                       Scenario.world_near (Scenario.follower None)))))
= Some 1%nat.
Proof.
apply (pick_up_survives_update (mkPickUpRequest "guest" "robot")
         (Scenario.info_at 1) Scenario.world_near (Scenario.follower None) 1%nat).
- unfold OnPickUpRosRequest. cbn.
  rewrite pickUpDistance_along_X.
  replace (Rabs (0 - 2)) with 2 by (rewrite Rabs_left; lra).
  unfold Rgtb. rewrite Rltb_false by lra. reflexivity.
- reflexivity.
- reflexivity.
- cbn. lra.
Defined.

(** X24.  Pick-up and drop-off compose.  A pick-up request is answered
  without looking at the current target, and a successful one replaces
  whatever target was set.  For an actor without a target, a successful
  pick-up followed by a successful drop-off gives back exactly the plugin
  data from before the pick-up. *)
Theorem pick_up_drop_off_round_trip :
forall (_req : PickUpRequest) (_drop : DropOffRequest) (w w' : World)
       (d : FollowActorPluginPrivate) (t : option ModelPtr),
  fst (OnPickUpRosRequest _req w (set_target t d))
  = fst (OnPickUpRosRequest _req w d) /\
  (fst (fst (OnPickUpRosRequest _req w d)) = true ->
   snd (OnPickUpRosRequest _req w (set_target t d))
   = snd (OnPickUpRosRequest _req w d)) /\
  (target d = None ->
   fst (fst (OnPickUpRosRequest _req w d)) = true ->
   fst (fst (OnDropOffRosRequest _drop w' (snd (OnPickUpRosRequest _req w d))))
   = true ->
   snd (OnDropOffRosRequest _drop w' (snd (OnPickUpRosRequest _req w d))) = d).
Proof.
intros _req _drop w w' d t. unfold OnPickUpRosRequest.
cbn [actor pickUpRadius set_target].
destruct (negb _); [repeat split; try reflexivity; discriminate |].
destruct (ModelByName w (robot_name _req)) as [model |];
  [| repeat split; try reflexivity; discriminate].
destruct (Rgtb _ _); [repeat split; try reflexivity; discriminate |].
cbn [fst snd]. split; [reflexivity |]. split; [reflexivity |].
intros Ht _. unfold OnDropOffRosRequest. cbn [actor set_target].
destruct (negb _); [discriminate |]. intros _. cbn [snd].
destruct d. cbn in Ht. subst. reflexivity.
Qed.

Lemma pick_up_drop_off_round_trip_witness :
snd (OnDropOffRosRequest (mkDropOffRequest "guest") Scenario.world_far
       (snd (OnPickUpRosRequest (mkPickUpRequest "guest" "robot")
               Scenario.world_near (Scenario.follower None))))
= Scenario.follower None.
Proof.
assert (Hp : fst (fst (OnPickUpRosRequest (mkPickUpRequest "guest" "robot")
                         Scenario.world_near (Scenario.follower None))) = true).
{ unfold OnPickUpRosRequest. cbn.
  rewrite pickUpDistance_along_X.
  replace (Rabs (0 - 2)) with 2 by (rewrite Rabs_left; lra).
  unfold Rgtb. rewrite Rltb_false by lra. reflexivity. }
apply (proj2 (proj2 (pick_up_drop_off_round_trip
                       (mkPickUpRequest "guest" "robot") (mkDropOffRequest "guest")
                       Scenario.world_near Scenario.world_far
                       (Scenario.follower None) None))).
- reflexivity.
- exact Hp.
- unfold OnPickUpRosRequest. cbn.
  rewrite pickUpDistance_along_X.
  replace (Rabs (0 - 2)) with 2 by (rewrite Rabs_left; lra).
  unfold Rgtb. rewrite Rltb_false by lra. reflexivity.
Defined.

(** X25.  Nothing stops a guest from being picked up by itself.  If the
  robot name of the request is the actor's own name (and resolves to the
  actor), the request succeeds for any non-negative pick-up radius and the
  actor becomes its own target; with a non-negative [minDistance] it then
  never moves, in any world: every update leaves the world as it is and
  keeps the target. *)
Theorem self_pick_up :
forall (w : World) (d : FollowActorPluginPrivate),
  let name := GetName (deref w (actor d)) in
  let d' := set_target (Some (actor d)) d in
  ModelByName w name = Some (actor d) ->
  0 <= pickUpRadius d ->
  OnPickUpRosRequest (mkPickUpRequest name name) w d
  = (true, mkResponse true, d') /\
  (0 <= minDistance d ->
   forall (_info : UpdateInfo) (w1 : World),
     OnUpdate _info w1 d' = (w1, set_lastUpdate (simTime _info) d')).
Proof.
intros w d name d' Hm Hr. split.
- unfold OnPickUpRosRequest. cbn [guest_name robot_name]. fold name.
  rewrite String.eqb_refl, Hm. cbn [negb].
  assert (H0 : pickUpDistance (Pos (WorldPose (deref w (actor d))))
                              (Pos (WorldPose (deref w (actor d)))) = 0).
  { rewrite pickUpDistance_planar.
    replace (_ + _ + _) with 0 by ring. apply sqrt_0. }
  rewrite H0. unfold Rgtb. rewrite Rltb_false by exact Hr. reflexivity.
- intros Hmin _info w1.
  apply OnUpdate_holds.
  destruct (ObstacleOnTheWay w1 d') eqn:Ho; [now left |].
  right. exists (actor d). split; [reflexivity |].
  change (actor d') with (actor d). rewrite sub_self. exact Hmin.
Qed.

Lemma self_pick_up_witness :
OnPickUpRosRequest (mkPickUpRequest "guest" "guest") Scenario.world_near
  (Scenario.follower None)
= (true, mkResponse true, Scenario.follower (Some 0%nat)).
Proof.
apply (self_pick_up Scenario.world_near (Scenario.follower None)).
- reflexivity.
- cbn. lra.
Defined.

(** X26.  The orientation written by an update: either the actor's rotation
  is left as it was, or it is the rotation of roll [pi/2], no pitch, and a
  yaw in the interval (-pi, pi]. *)
Theorem update_rotation_range :
forall (_info : UpdateInfo) (w : World) (d : FollowActorPluginPrivate),
  let r := Rot (WorldPose (deref w (actor d))) in
  let r' := Rot (WorldPose (deref (fst (OnUpdate _info w d)) (actor d))) in
  r' = r \/
  (Roll r' = PI / 2 /\ Pitch r' = 0 /\ - PI < Yaw r' <= PI).
Proof.
intros _info w d r r'. unfold r'.
destruct (OnUpdate_cases _info w d) as [E | [E | [tgt [Ht [Ho [Hmin Hmax]]]]]].
- rewrite E. now left.
- rewrite E. now left.
- right. rewrite (OnUpdate_follows _info w d tgt Ht Ho Hmin Hmax). cbn [fst].
  rewrite deref_store_same. cbn [WorldPose Rot Roll Pitch Yaw].
  split; [reflexivity |]. split; [reflexivity |].
  unfold heading, Angle_Normalize. apply atan2_range.
Qed.

End FollowExtraClaims.

(** * The actor-creation wizard ([CreateActorPlugin.cc]) *)

Section CreateActorExtras.

Import CreateActorPlugin.

Variable pose_add : Pose3d -> Pose3d -> Pose3d.
Variable pose_str : Pose3d -> string.
Variable SDF_VERSION : string.

Ltac simp_st :=
cbn [page calls actorCount current currentERB ghostPoses sdf erb
     on_skin on_anim on_next0 on_new_waypoint on_new_actor insertGhost
     set_current set_page set_actorCount set_ghostPoses add_call
     set_sdf set_erb Nat.eqb] in *.

Ltac split_if H :=
match type of H with
| context [if ?b then _ else _] => destruct b
end.

Lemma to_string_inj (a b : Z) : to_string a = to_string b -> a = b.
Proof.
unfold to_string. intros H. apply DecimalZ.to_int_inj.
assert (E : Some (Z.to_int a) = Some (Z.to_int b)).
{ rewrite <- (DecimalString.NilEmpty.isi (Z.to_int a)).
  rewrite <- (DecimalString.NilEmpty.isi (Z.to_int b)).
  rewrite H. reflexivity. }
congruence.
Qed.

Lemma ghost_name_S (j : nat) :
ghost_name (S j) = ("ghost" ++ "_" ++ to_string (Z.of_nat j))%string.
Proof. reflexivity. Qed.

Lemma ghost_name_inj (i j : nat) : ghost_name i = ghost_name j -> i = j.
Proof.
destruct i as [| i], j as [| j]; cbn [ghost_name String.append]; intros H.
- reflexivity.
- discriminate H.
- discriminate H.
- injection H as H. apply to_string_inj in H. lia.
Qed.

Lemma published_app (a b : list Call) :
published (a ++ b) = published a ++ published b.
Proof.
induction a as [| c a IH]; [reflexivity |].
destruct c; cbn; rewrite IH; reflexivity.
Qed.

Lemma published_deletes (names : list string) :
published (map EntityDelete names) = [].
Proof. induction names; [reflexivity | exact IHnames]. Qed.

Lemma published_deletes_of {A : Type} (f : A -> string) (l : list A) :
published (map (fun k => EntityDelete (f k)) l) = [].
Proof. induction l; [reflexivity | exact IHl]. Qed.

(** The loop changes the poses and asks for deletions, nothing else. *)
Lemma ghost_loop_frame (fuel : nat) (scene : Scene) :
forall (name : string) (count : Z) (st st' : State),
  ghost_loop pose_add pose_str fuel scene name count st = Ok st' ->
  actorCount st' = actorCount st /\ current st' = current st /\
  currentERB st' = currentERB st /\ page st' = page st /\
  exists names, calls st' = calls st ++ map EntityDelete names.
Proof.
induction fuel as [| fuel IH]; intros name count st st' H; [discriminate H |].
cbn [ghost_loop] in H. destruct (scene name) as [vp |].
- destruct (count =? INT_MAX)%Z; [discriminate H |].
  apply IH in H. cbn in H. destruct H as (Ha & Hc & He & Hp & names & Hn).
  repeat (split; [assumption |]).
  exists (name :: names). rewrite Hn, <- app_assoc. reflexivity.
- injection H as <-. repeat (split; [reflexivity |]).
  exists []. cbn. rewrite app_nil_r. reflexivity.
Qed.

(** The loop, started at the ghost numbered [i], on a scene that holds the
  ghosts numbered [i], ..., [i + length ps - 1] and not the next one. *)
Lemma ghost_loop_spec (scene : Scene) :
forall (ps : list Pose3d) (fuel i : nat) (st : State),
  (forall k p, nth_error ps k = Some p -> scene (ghost_name (i + k)) = Some p) ->
  scene (ghost_name (i + List.length ps)) = None ->
  (Z.of_nat (i + List.length ps) <= INT_MAX)%Z ->
  (List.length ps < fuel)%nat ->
  ghost_loop pose_add pose_str fuel scene (ghost_name i) (Z.of_nat i) st
  = Ok (mkState (actorCount st)
          (ghostPoses st
           ++ map (fun p => pose_str (pose_add (poseOffset (current st)) p)) ps)
          (current st) (currentERB st) (page st)
          (calls st
           ++ map (fun k => EntityDelete (ghost_name k)) (seq i (List.length ps)))).
Proof.
induction ps as [| p ps IH]; intros fuel i st Hin Hout Hmax Hfuel.
- destruct fuel as [| fuel]; [cbn in Hfuel; lia |].
  cbn [ghost_loop]. cbn [List.length] in Hout. rewrite Nat.add_0_r in Hout.
  rewrite Hout. cbn. rewrite !app_nil_r. destruct st; reflexivity.
- destruct fuel as [| fuel]; [cbn in Hfuel; lia |].
  cbn [ghost_loop]. cbn [List.length] in *.
  pose proof (Hin 0%nat p eq_refl) as H0. rewrite Nat.add_0_r in H0.
  rewrite H0.
  destruct (Z.eqb_spec (Z.of_nat i) INT_MAX) as [E | _]; [lia |].
  rewrite <- ghost_name_S.
  replace (Z.of_nat i + 1)%Z with (Z.of_nat (S i)) by lia.
  rewrite IH.
  + cbn. rewrite <- !app_assoc. reflexivity.
  + intros k q Hk. replace (S i + k)%nat with (i + S k)%nat by lia.
    apply Hin. exact Hk.
  + replace (S i + List.length ps)%nat with (i + S (List.length ps))%nat by lia.
    exact Hout.
  + lia.
  + lia.
Qed.

(** What a call of [Spawn] that returns has done. *)
Lemma Spawn_ok (fuel : nat) (scene : Scene) (st st' : State) :
Spawn pose_add pose_str SDF_VERSION fuel scene st = Ok st' ->
exists poses pose0 names,
  nth_error poses 0 = Some pose0 /\
  ghostPoses st' = poses /\
  actorCount st' = wrap32 (actorCount st + 1) /\
  currentERB st' = currentERB st /\ page st' = page st /\
  current st'
  = mkCurrent (skinDae (current st)) (animDae (current st))
      (poseOffset (current st))
      (sdf_text SDF_VERSION ("actor_" ++ to_string (actorCount st)) pose0
         (current st) poses
         (if (List.length poses =? 1)%nat then script_text pose0
          else plugin_text poses))
      "TODO" /\
  calls st' = calls st ++ map EntityDelete names ++ [Publish (sdf (current st'))].
Proof.
unfold Spawn, processGhostPoses. intros H.
destruct (ghost_loop pose_add pose_str fuel scene "ghost" 0 (set_ghostPoses [] st))
  as [s1 | |] eqn:Hloop; cbn [bind] in H; try discriminate H.
apply ghost_loop_frame in Hloop. cbn in Hloop.
destruct Hloop as (Ha & Hc & He & Hp & names & Hn).
unfold fillSDF in H.
destruct (nth_error (ghostPoses s1) 0) as [pose0 |] eqn:H0; cbn [bind] in H;
  [| discriminate H].
injection H as <-.
exists (ghostPoses s1), pose0, names. cbn.
rewrite Ha, Hc, He, Hp, Hn, <- app_assoc.
repeat (split; [first [assumption | reflexivity] |]). reflexivity.
Qed.

(** An invariant of the steps is an invariant of the runs. *)
Lemma wizard_run_inv (P : State -> Prop) (fuel : nat) :
(forall ev st st',
    P st -> wizard_step pose_add pose_str SDF_VERSION fuel ev st = Ok st' -> P st') ->
forall tr st st',
  P st -> wizard_run pose_add pose_str SDF_VERSION fuel tr st = Ok st' -> P st'.
Proof.
intros Hstep. induction tr as [| ev tr IH]; intros st st' HP H.
- injection H as <-. exact HP.
- cbn [wizard_run] in H.
  destruct (wizard_step pose_add pose_str SDF_VERSION fuel ev st) as [s1 | |] eqn:E;
    cbn [bind] in H; try discriminate H.
  apply (IH s1 st'); [eapply Hstep; eauto | exact H].
Qed.

Lemma wrap32_succ (a : Z) : wrap32 (wrap32 a + 1) = wrap32 (a + 1).
Proof. unfold wrap32. apply Zplus_mod_idemp_l. Qed.

Lemma wrap32_small (a : Z) : (0 <= a < 4294967296)%Z -> wrap32 a = a.
Proof. intros H. unfold wrap32. apply Z.mod_small. exact H. Qed.

Lemma last_default_or_in {A : Type} (l : list A) (d : A) :
(l = [] /\ last l d = d) \/ In (last l d) l.
Proof.
destruct l as [| a l]; [left; split; reflexivity |].
right. destruct (exists_last (l := a :: l)) as (l' & x & E); [discriminate |].
rewrite E, last_last. apply in_or_app. right. left. reflexivity.
Qed.

Lemma in_deletes_not_saved (names : list string) (p c : string) :
~ In (SaveFile p c) (map EntityDelete names).
Proof.
induction names as [| n names IH]; cbn; [tauto |].
intros [H | H]; [discriminate H | exact (IH H)].
Qed.

(** The export buttons append at most one call, a saved file. *)
Lemma export_calls (content : string) (a : bool) (sel : list string) (o : bool)
  (st : State) :
actorCount (export content a sel o st) = actorCount st /\
current (export content a sel o st) = current st /\
currentERB (export content a sel o st) = currentERB st /\
page (export content a sel o st) = page st /\
(calls (export content a sel o st) = calls st \/
 exists file, calls (export content a sel o st) = calls st ++ [SaveFile file content]).
Proof.
unfold export. destruct a; cbn; [| repeat split; auto].
destruct sel as [| file sel]; [repeat split; auto |].
destruct o; cbn; [| repeat split; auto].
repeat split. right. exists file. reflexivity.
Qed.

Lemma published_export (content : string) (a : bool) (sel : list string) (o : bool)
  (st : State) :
published (calls (export content a sel o st)) = published (calls st).
Proof.
destruct (export_calls content a sel o st) as (_ & _ & _ & _ & [E | [file E]]);
  rewrite E; [reflexivity |].
rewrite published_app. cbn. apply app_nil_r.
Qed.

(** The counter and the names of the published actors, along a run. *)
Lemma wizard_names_step (fuel : nat) (ev : Event) (st st' : State) :
((page st <= 2)%nat /\
 actorCount st
 = wrap32 (2 * Z.of_nat (List.length (published (calls st)))
           + (if (page st =? 1)%nat then 1 else 0)) /\
 Forall2
   (fun k msg =>
      exists pose0 cur poses,
        nth_error poses 0 = Some pose0 /\
        msg = sdf_text SDF_VERSION
                ("actor_" ++ to_string (wrap32 (2 * Z.of_nat k + 1)))
                pose0 cur poses
                (if (List.length poses =? 1)%nat then script_text pose0
                 else plugin_text poses))
   (seq 0 (List.length (published (calls st)))) (published (calls st))) ->
wizard_step pose_add pose_str SDF_VERSION fuel ev st = Ok st' ->
((page st' <= 2)%nat /\
 actorCount st'
 = wrap32 (2 * Z.of_nat (List.length (published (calls st')))
           + (if (page st' =? 1)%nat then 1 else 0)) /\
 Forall2
   (fun k msg =>
      exists pose0 cur poses,
        nth_error poses 0 = Some pose0 /\
        msg = sdf_text SDF_VERSION
                ("actor_" ++ to_string (wrap32 (2 * Z.of_nat k + 1)))
                pose0 cur poses
                (if (List.length poses =? 1)%nat then script_text pose0
                 else plugin_text poses))
   (seq 0 (List.length (published (calls st')))) (published (calls st'))).
Proof.
intros (Hp & Hc & Hf) H. unfold wizard_step in H.
destruct (page st) as [| [| [| n]]] eqn:Epage; [| | | lia].
- (* page 0 *)
  destruct ev; try split_if H; injection H as <-; simp_st; rewrite ?Epage;
    auto.
  rewrite published_app. cbn [published]. rewrite app_nil_r.
  split; [lia |]. split; [| exact Hf].
  rewrite Hc. rewrite wrap32_succ. f_equal. lia.
- (* page 1 *)
  destruct ev; try (injection H as <-; rewrite ?Epage; auto; fail).
  + injection H as <-. simp_st. rewrite published_app. cbn [published].
    rewrite app_nil_r, Epage. auto.
  + unfold on_next1 in H.
    destruct (Spawn pose_add pose_str SDF_VERSION fuel scene st) as [s1 | |] eqn:Es;
      cbn [bind] in H; try discriminate H.
    injection H as <-.
    apply Spawn_ok in Es.
    destruct Es as (poses & pose0 & names & H0 & Hg & Ha & He & Hpg & Hcur & Hcalls).
    simp_st.
    rewrite Hcalls, !published_app, published_deletes. cbn [published app].
    rewrite length_app. cbn [List.length].
    split; [lia |]. split.
    * rewrite Ha, Hc. rewrite wrap32_succ. f_equal. lia.
    * rewrite Nat.add_1_r, seq_S. cbn [Nat.add].
      apply Forall2_app; [exact Hf |].
      constructor; [| constructor].
      exists pose0, (current st), poses. split; [exact H0 |].
      rewrite Hcur. simp_st. rewrite Hc. reflexivity.
- (* page 2 *)
  destruct ev; injection H as <-; rewrite ?Epage; auto.
  + unfold on_export_sdf.
    destruct (export_calls (sdf (current st)) accepted selected is_open st)
      as (Ea & _ & _ & Epg & _).
    rewrite published_export, Ea, Epg, Epage. auto.
  + unfold on_export_erb.
    destruct (export_calls (currentERB st) accepted selected is_open st)
      as (Ea & _ & _ & Epg & _).
    rewrite published_export, Ea, Epg, Epage. auto.
Qed.

(** What the export buttons find, along a run. *)
Lemma wizard_exports_step (fuel : nat) (ev : Event) (st st' : State) :
(currentERB st = EmptyString /\
 sdf (current st) = last (published (calls st)) EmptyString /\
 (page st = 2%nat ->
  published (calls st) <> [] /\ erb (current st) = "TODO"%string) /\
 (forall p c, In (SaveFile p c) (calls st) ->
              c = EmptyString \/ In c (published (calls st)))) ->
wizard_step pose_add pose_str SDF_VERSION fuel ev st = Ok st' ->
(currentERB st' = EmptyString /\
 sdf (current st') = last (published (calls st')) EmptyString /\
 (page st' = 2%nat ->
  published (calls st') <> [] /\ erb (current st') = "TODO"%string) /\
 (forall p c, In (SaveFile p c) (calls st') ->
              c = EmptyString \/ In c (published (calls st')))).
Proof.
intros (He & Hs & Hp & Hsave) H. unfold wizard_step in H.
assert (Hexp : forall content a sel o,
           (content = EmptyString \/ In content (published (calls st))) ->
           forall p c, In (SaveFile p c) (calls (export content a sel o st)) ->
                       c = EmptyString \/ In c (published (calls st))).
{ intros content a sel o Hcont p c Hin.
  destruct (export_calls content a sel o st) as (_ & _ & _ & _ & [E | [file E]]);
    rewrite E in Hin; [exact (Hsave p c Hin) |].
  apply in_app_or in Hin.
  destruct Hin as [Hin | [Hin | []]]; [exact (Hsave p c Hin) |].
  injection Hin as _ <-. exact Hcont. }
destruct (page st) as [| [| [| n]]] eqn:Epage.
- (* page 0 *)
  destruct ev; try split_if H; injection H as <-; simp_st; rewrite ?Epage;
    auto;
    try (split; [exact He |]; split; [exact Hs |]; split; [discriminate |];
         exact Hsave).
  rewrite published_app. cbn [published]. rewrite app_nil_r.
  split; [exact He |]. split; [exact Hs |]. split; [discriminate |].
  intros p c Hin. apply in_app_or in Hin.
  destruct Hin as [Hin | [Hin | []]]; [exact (Hsave p c Hin) | discriminate Hin].
- (* page 1 *)
  destruct ev; try (injection H as <-; rewrite ?Epage; auto; fail).
  + injection H as <-. simp_st. rewrite published_app. cbn [published].
    rewrite app_nil_r, Epage.
    split; [exact He |]. split; [exact Hs |]. split; [discriminate |].
    intros p c Hin. apply in_app_or in Hin.
    destruct Hin as [Hin | [Hin | []]]; [exact (Hsave p c Hin) | discriminate Hin].
  + unfold on_next1 in H.
    destruct (Spawn pose_add pose_str SDF_VERSION fuel scene st) as [s1 | |] eqn:Es;
      cbn [bind] in H; try discriminate H.
    injection H as <-.
    apply Spawn_ok in Es.
    destruct Es as (poses & pose0 & names & H0 & Hg & Ha & He1 & Hpg & Hcur & Hcalls).
    simp_st.
    rewrite Hcalls, !published_app, published_deletes. cbn [published app].
    rewrite last_last.
    split; [congruence |]. split; [reflexivity |]. split.
    * intros _. split; [| rewrite Hcur; reflexivity].
      intros E. apply (f_equal (@List.length string)) in E.
      rewrite length_app in E. cbn in E. lia.
    * intros p c Hin. apply in_app_or in Hin. destruct Hin as [Hin | Hin].
      -- destruct (Hsave p c Hin) as [E | Hc]; [left; exact E |].
         right. apply in_or_app. left. exact Hc.
      -- apply in_app_or in Hin. destruct Hin as [Hin | [Hin | []]].
         ++ exfalso. exact (in_deletes_not_saved names p c Hin).
         ++ discriminate Hin.
- (* page 2 *)
  destruct ev; injection H as <-; rewrite ?Epage; auto.
  + unfold on_export_sdf.
    destruct (export_calls (sdf (current st)) accepted selected is_open st)
      as (_ & Ec & Ee & Epg & _).
    rewrite published_export, Ec, Ee, Epg.
    split; [exact He |]. split; [exact Hs |].
    split; [intros _; apply Hp; reflexivity |].
    apply Hexp. rewrite Hs.
    destruct (last_default_or_in (published (calls st)) EmptyString) as [[_ E] | E];
      [left; exact E | right; exact E].
  + unfold on_export_erb.
    destruct (export_calls (currentERB st) accepted selected is_open st)
      as (_ & Ec & Ee & Epg & _).
    rewrite published_export, Ec, Ee, Epg.
    split; [exact He |]. split; [exact Hs |].
    split; [intros _; apply Hp; reflexivity |].
    apply Hexp. left. exact He.
- (* no such page *)
  destruct ev; injection H as <-; rewrite Epage; auto.
Qed.

(** A call of [Spawn] on a scene that holds the ghosts for the poses
  [p0 :: ps], in this order, and not the next one. *)
Lemma Spawn_returns (fuel : nat) (scene : Scene) (st : State)
  (p0 : Pose3d) (ps : list Pose3d) :
(forall k p, nth_error (p0 :: ps) k = Some p -> scene (ghost_name k) = Some p) ->
scene (ghost_name (S (List.length ps))) = None ->
(Z.of_nat (S (List.length ps)) <= INT_MAX)%Z ->
(S (List.length ps) < fuel)%nat ->
exists st',
  Spawn pose_add pose_str SDF_VERSION fuel scene st = Ok st' /\
  calls st'
  = calls st
    ++ map (fun k => EntityDelete (ghost_name k)) (seq 0 (S (List.length ps)))
    ++ [Publish (sdf (current st'))] /\
  ghostPoses st'
  = map (fun p => pose_str (pose_add (poseOffset (current st)) p)) (p0 :: ps) /\
  sdf (current st')
  = sdf_text SDF_VERSION ("actor_" ++ to_string (actorCount st))
      (pose_str (pose_add (poseOffset (current st)) p0)) (current st)
      (map (fun p => pose_str (pose_add (poseOffset (current st)) p)) (p0 :: ps))
      match ps with
      | [] => script_text (pose_str (pose_add (poseOffset (current st)) p0))
      | _ :: _ =>
          plugin_text
            (map (fun p => pose_str (pose_add (poseOffset (current st)) p))
                 (p0 :: ps))
      end /\
  erb (current st') = "TODO"%string /\
  actorCount st' = wrap32 (actorCount st + 1) /\
  page st' = page st.
Proof.
intros Hin Hout Hmax Hlt.
pose proof (ghost_loop_spec scene (p0 :: ps) fuel 0
              (set_ghostPoses [] st) Hin Hout Hmax Hlt) as Hloop.
eexists. split.
- unfold Spawn, processGhostPoses. cbn [ghost_name] in Hloop.
  change (Z.of_nat 0) with 0%Z in Hloop. rewrite Hloop.
  cbn [bind]. unfold fillSDF.
  cbn [ghostPoses set_ghostPoses app map nth_error bind current actorCount].
  reflexivity.
- cbn [calls ghostPoses current sdf erb actorCount page add_call fillERB
       set_current set_sdf set_erb set_actorCount set_ghostPoses].
  rewrite <- app_assoc.
  destruct ps; repeat split; reflexivity.
Qed.

(** A run of the wizard, event by event. *)
Lemma wizard_run_cons (fuel : nat) (ev : Event) (tr : list Event) (st st1 : State) :
wizard_step pose_add pose_str SDF_VERSION fuel ev st = Ok st1 ->
wizard_run pose_add pose_str SDF_VERSION fuel (ev :: tr) st
= wizard_run pose_add pose_str SDF_VERSION fuel tr st1.
Proof. intros H. cbn [wizard_run]. rewrite H. reflexivity. Qed.

(** The button Next of the second page, when [Spawn] returns. *)
Lemma wizard_step_spawn (fuel : nat) (scene : Scene) (st st1 : State) :
page st = 1%nat ->
Spawn pose_add pose_str SDF_VERSION fuel scene st = Ok st1 ->
wizard_step pose_add pose_str SDF_VERSION fuel (Next1 scene) st
= Ok (set_page 2 st1).
Proof.
intros Hp Hs. unfold wizard_step. rewrite Hp. unfold on_next1. rewrite Hs.
reflexivity.
Qed.

End CreateActorExtras.

(** Two actors made one after the other: the first from one ghost, the
    second from the ghosts "ghost" and "ghost_0". *)
Lemma two_actors_run :
  exists st,
    CreateActorPlugin.wizard_run Scenario.pose_add Scenario.pose_str "1.6" 4
      [CreateActorPlugin.Next0; CreateActorPlugin.Next1 Scenario.scene_one;
       CreateActorPlugin.NewActor; CreateActorPlugin.Next0;
       CreateActorPlugin.NewWaypoint; CreateActorPlugin.Next1 Scenario.scene_gap]
      Scenario.wizard = CreateActorPlugin.Ok st /\
    CreateActorPlugin.page st = 2%nat /\
    List.length (CreateActorPlugin.published (CreateActorPlugin.calls st)) = 2%nat.
Proof.
  set (P := Scenario.pose_add). set (S := Scenario.pose_str).
  set (s1 := CreateActorPlugin.on_next0 Scenario.wizard).
  destruct (Spawn_returns P S "1.6" 4 Scenario.scene_one s1 (Scenario.ghost_pose 0) [])
    as (s2 & Hs2 & Hc2 & _ & _ & _ & _ & Hp2).
  { intros k p Hk. destruct k as [| [| k]]; cbn in Hk; try discriminate Hk.
    injection Hk as <-. reflexivity. }
  { reflexivity. }
  { unfold CreateActorPlugin.INT_MAX. cbn. lia. }
  { cbn. lia. }
  set (s3 := CreateActorPlugin.on_new_actor (CreateActorPlugin.set_page 2 s2)).
  set (s5 := CreateActorPlugin.on_new_waypoint (CreateActorPlugin.on_next0 s3)).
  destruct (Spawn_returns P S "1.6" 4 Scenario.scene_gap s5
              (Scenario.ghost_pose 0) [Scenario.ghost_pose 1])
    as (s6 & Hs6 & Hc6 & _ & _ & _ & _ & Hp6).
  { intros k p Hk. destruct k as [| [| [| k]]]; cbn in Hk; try discriminate Hk;
      injection Hk as <-; reflexivity. }
  { reflexivity. }
  { unfold CreateActorPlugin.INT_MAX. cbn. lia. }
  { cbn. lia. }
  exists (CreateActorPlugin.set_page 2 s6). split; [| split].
  - rewrite (wizard_run_cons P S "1.6" 4 _ _ _ s1) by reflexivity.
    rewrite (wizard_run_cons P S "1.6" 4 _ _ _ (CreateActorPlugin.set_page 2 s2))
      by (apply wizard_step_spawn; [reflexivity | exact Hs2]).
    rewrite (wizard_run_cons P S "1.6" 4 _ _ _ s3) by reflexivity.
    rewrite (wizard_run_cons P S "1.6" 4 _ _ _ (CreateActorPlugin.on_next0 s3))
      by reflexivity.
    rewrite (wizard_run_cons P S "1.6" 4 _ _ _ s5) by reflexivity.
    rewrite (wizard_run_cons P S "1.6" 4 _ _ _ (CreateActorPlugin.set_page 2 s6))
      by (apply wizard_step_spawn; [reflexivity | exact Hs6]).
    reflexivity.
  - reflexivity.
  - cbn [CreateActorPlugin.calls CreateActorPlugin.set_page].
    rewrite Hc6, !published_app, published_deletes_of.
    cbn [CreateActorPlugin.published app List.length].
    rewrite length_app. cbn [List.length].
    unfold s5, s3.
    cbn [CreateActorPlugin.calls CreateActorPlugin.on_new_waypoint
         CreateActorPlugin.on_next0 CreateActorPlugin.on_new_actor
         CreateActorPlugin.insertGhost CreateActorPlugin.add_call
         CreateActorPlugin.set_page CreateActorPlugin.set_actorCount].
    rewrite !published_app. cbn [CreateActorPlugin.published].
    rewrite !app_nil_r.
    rewrite Hc2, !published_app, published_deletes_of.
    cbn [CreateActorPlugin.published app].
    rewrite length_app. reflexivity.
Qed.

Section CreateActorExtraClaims.

Import CreateActorPlugin.

(** X27.  [processGhostPoses] collects the ghosts up to the first missing
  number.  On a scene that holds the ghosts "ghost", "ghost_0", ... for
  the poses [ps], in this order, and not the next one, the call returns:
  the poses recorded before are dropped, the new list is the offset poses
  of these ghosts, in order, and one deletion is requested for each of
  them, in order.  A ghost numbered after the missing one is neither
  recorded nor deleted.  Nothing else of the state changes. *)
Theorem ghosts_collected_up_to_first_gap :
forall (pose_add : Pose3d -> Pose3d -> Pose3d) (pose_str : Pose3d -> string)
       (fuel : nat) (scene : Scene) (st : State) (ps : list Pose3d),
  (forall k p, nth_error ps k = Some p -> scene (ghost_name k) = Some p) ->
  scene (ghost_name (List.length ps)) = None ->
  (Z.of_nat (List.length ps) <= INT_MAX)%Z ->
  (List.length ps < fuel)%nat ->
  exists st',
    processGhostPoses pose_add pose_str fuel scene st = Ok st' /\
    ghostPoses st'
    = map (fun p => pose_str (pose_add (poseOffset (current st)) p)) ps /\
    calls st'
    = calls st
      ++ map (fun k => EntityDelete (ghost_name k)) (seq 0 (List.length ps)) /\
    (forall j, (List.length ps <= j)%nat ->
               ~ In (EntityDelete (ghost_name j))
                    (map (fun k => EntityDelete (ghost_name k))
                         (seq 0 (List.length ps)))) /\
    actorCount st' = actorCount st /\ current st' = current st /\
    currentERB st' = currentERB st /\ page st' = page st.
Proof.
intros pose_add pose_str fuel scene st ps Hin Hout Hmax Hfuel.
eexists. split.
- unfold processGhostPoses.
  apply (ghost_loop_spec pose_add pose_str scene ps fuel 0 (set_ghostPoses [] st));
    assumption.
- cbn. repeat (split; [reflexivity |]).
  split; [| repeat split; reflexivity].
  intros j Hj Hmem. apply in_map_iff in Hmem.
  destruct Hmem as (k & Hk & Hseq).
  injection Hk as Hk. apply ghost_name_inj in Hk. subst k.
  apply in_seq in Hseq. lia.
Qed.

Lemma ghosts_collected_up_to_first_gap_witness :
Scenario.scene_gap "ghost_2"%string <> None /\
exists st',
  processGhostPoses Scenario.pose_add Scenario.pose_str 3 Scenario.scene_gap
    Scenario.wizard = Ok st' /\
  List.length (ghostPoses st') = 2%nat /\
  calls st' = [EntityDelete "ghost"; EntityDelete "ghost_0"].
Proof.
split; [discriminate |].
destruct (ghosts_collected_up_to_first_gap Scenario.pose_add Scenario.pose_str 3
            Scenario.scene_gap Scenario.wizard
            [Scenario.ghost_pose 0; Scenario.ghost_pose 1])
  as (st' & Hrun & Hposes & Hcalls & _).
- intros k p Hk. destruct k as [| [| [| k]]]; cbn in Hk; try discriminate Hk;
    injection Hk as <-; reflexivity.
- reflexivity.
- unfold INT_MAX. cbn. lia.
- cbn. lia.
- exists st'. split; [exact Hrun |]. split.
  + rewrite Hposes. reflexivity.
  + rewrite Hcalls. reflexivity.
Defined.

(** X28.  [Spawn] needs the first ghost.  If the scene has no visual named
  "ghost", the list of poses stays empty and [fillSDF] reads its first
  element: the behaviour is undefined.  If the scene holds the ghosts up to
  a first missing number, [Spawn] returns: it requests their deletion,
  then publishes one actor, named after the counter, which it increments;
  the actor stands at the first ghost's pose, and it gets the one-waypoint
  script if there is one ghost, the wandering plugin with every pose as a
  target otherwise, whatever animation is chosen. *)
Theorem spawn_spec :
forall (pose_add : Pose3d -> Pose3d -> Pose3d) (pose_str : Pose3d -> string)
       (SDF_VERSION : string) (fuel : nat) (scene : Scene) (st : State),
  (0 < fuel)%nat ->
  (scene "ghost"%string = None ->
   Spawn pose_add pose_str SDF_VERSION fuel scene st = Undefined) /\
  (forall (p0 : Pose3d) (ps : list Pose3d),
      (forall k p, nth_error (p0 :: ps) k = Some p ->
                   scene (ghost_name k) = Some p) ->
      scene (ghost_name (S (List.length ps))) = None ->
      (Z.of_nat (S (List.length ps)) <= INT_MAX)%Z ->
      (S (List.length ps) < fuel)%nat ->
      let show := fun p => pose_str (pose_add (poseOffset (current st)) p) in
      let trajectory :=
        match ps with
        | [] => script_text (show p0)
        | _ :: _ => plugin_text (map show (p0 :: ps))
        end in
      let msg :=
        sdf_text SDF_VERSION ("actor_" ++ to_string (actorCount st)) (show p0)
                 (current st) (map show (p0 :: ps)) trajectory in
      exists st',
        Spawn pose_add pose_str SDF_VERSION fuel scene st = Ok st' /\
        calls st'
        = calls st
          ++ map (fun k => EntityDelete (ghost_name k))
                 (seq 0 (S (List.length ps)))
          ++ [Publish msg] /\
        ghostPoses st' = map show (p0 :: ps) /\
        sdf (current st') = msg /\
        erb (current st') = "TODO"%string /\
        actorCount st' = wrap32 (actorCount st + 1)).
Proof.
intros pose_add pose_str SDF_VERSION fuel scene st Hfuel. split.
- intros Hnone. destruct fuel as [| fuel]; [lia |].
  unfold Spawn, processGhostPoses. cbn [ghost_loop]. rewrite Hnone.
  reflexivity.
- intros p0 ps Hin Hout Hmax Hlt show trajectory msg.
  destruct (Spawn_returns pose_add pose_str SDF_VERSION fuel scene st p0 ps
              Hin Hout Hmax Hlt)
    as (st' & Hrun & Hcalls & Hposes & Hsdf & Herb & Hcount & _).
  exists st'. rewrite Hsdf in Hcalls. repeat split; assumption.
Qed.

Lemma spawn_spec_witness :
Spawn Scenario.pose_add Scenario.pose_str "1.6" 1 Scenario.scene_empty
  Scenario.wizard = Undefined /\
exists st',
  Spawn Scenario.pose_add Scenario.pose_str "1.6" 3 Scenario.scene_one
    Scenario.wizard = Ok st' /\
  List.length (calls st') = 2%nat /\
  actorCount st' = 1%Z.
Proof.
split.
- apply (spawn_spec Scenario.pose_add Scenario.pose_str "1.6" 1
           Scenario.scene_empty Scenario.wizard); [lia | reflexivity].
- destruct (spawn_spec Scenario.pose_add Scenario.pose_str "1.6" 3
              Scenario.scene_one Scenario.wizard) as [_ Hsome]; [lia |].
  destruct (Hsome (Scenario.ghost_pose 0) [])
    as (st' & Hrun & Hcalls & _ & _ & _ & Hcount).
  + intros k p Hk. destruct k as [| [| k]]; cbn in Hk; try discriminate Hk.
    injection Hk as <-. reflexivity.
  + reflexivity.
  + unfold INT_MAX. cbn. lia.
  + cbn. lia.
  + exists st'. split; [exact Hrun |]. split.
    * rewrite Hcalls. reflexivity.
    * rewrite Hcount. reflexivity.
Defined.

(** X29.  The names of the actors.  The counter is incremented once when
  the wizard leaves its first page and once more by [fillSDF]: along any
  run of the wizard from its initial state, the actor published in
  position [k] (from 0) is named "actor_" followed by [2k+1], modulo 2^32:
  actor_1, actor_3, actor_5, ...  Its description is the text of [fillSDF]
  for some poses, a script if there is one pose and the plugin otherwise.
  The first 2^31 names are pairwise different. *)
Theorem actor_names_are_odd :
forall (pose_add : Pose3d -> Pose3d -> Pose3d) (pose_str : Pose3d -> string)
       (SDF_VERSION : string) (fuel : nat) (tr : list Event) (st : State),
  wizard_run pose_add pose_str SDF_VERSION fuel tr wizard_new = Ok st ->
  Forall2
    (fun k msg =>
       exists pose0 cur poses,
         nth_error poses 0 = Some pose0 /\
         msg = sdf_text SDF_VERSION
                 ("actor_" ++ to_string (wrap32 (2 * Z.of_nat k + 1)))
                 pose0 cur poses
                 (if (List.length poses =? 1)%nat then script_text pose0
                  else plugin_text poses))
    (seq 0 (List.length (published (calls st)))) (published (calls st)) /\
  (forall j k : nat,
      (j < k)%nat -> (Z.of_nat k < 2147483648)%Z ->
      to_string (wrap32 (2 * Z.of_nat j + 1))
      <> to_string (wrap32 (2 * Z.of_nat k + 1))).
Proof.
intros pose_add pose_str SDF_VERSION fuel tr st Hrun. split.
- refine (proj2 (proj2
    (wizard_run_inv pose_add pose_str SDF_VERSION _ fuel
       (wizard_names_step pose_add pose_str SDF_VERSION fuel)
       tr wizard_new st _ Hrun))).
  cbn. split; [lia |]. split; [reflexivity | constructor].
- intros j k Hjk Hk E. apply to_string_inj in E.
  rewrite !wrap32_small in E by lia. lia.
Qed.

Lemma actor_names_are_odd_witness :
exists st,
  wizard_run Scenario.pose_add Scenario.pose_str "1.6" 4
    [Next0; Next1 Scenario.scene_one; NewActor;
     Next0; NewWaypoint; Next1 Scenario.scene_gap] Scenario.wizard = Ok st /\
  List.length (published (calls st)) = 2%nat /\
  Forall2
    (fun k msg =>
       exists pose0 cur poses,
         nth_error poses 0 = Some pose0 /\
         msg = sdf_text "1.6"
                 ("actor_" ++ to_string (wrap32 (2 * Z.of_nat k + 1)))
                 pose0 cur poses
                 (if (List.length poses =? 1)%nat then script_text pose0
                  else plugin_text poses))
    (seq 0 (List.length (published (calls st)))) (published (calls st)).
Proof.
destruct two_actors_run as (st & Hrun & _ & Hlen).
exists st. split; [exact Hrun |]. split; [exact Hlen |].
exact (proj1 (actor_names_are_odd Scenario.pose_add Scenario.pose_str "1.6" 4
                _ st Hrun)).
Defined.

(** X30.  What the export buttons save.  Along any run of the wizard from
  its initial state, every file saved holds either the empty text or a
  description that was published.  On the export page an actor has been
  published: Export to SDF saves the description published last; Export to
  ERB saves the empty text, although [fillERB] has set [current.erb] to
  "TODO": the text exported is the plugin's [currentERB], which nothing
  assigns. *)
Theorem exports_after_spawn :
forall (pose_add : Pose3d -> Pose3d -> Pose3d) (pose_str : Pose3d -> string)
       (SDF_VERSION : string) (fuel : nat) (tr : list Event) (st : State),
  wizard_run pose_add pose_str SDF_VERSION fuel tr wizard_new = Ok st ->
  (forall p c, In (SaveFile p c) (calls st) ->
               c = EmptyString \/ In c (published (calls st))) /\
  (page st = 2%nat ->
   exists msgs msg,
     published (calls st) = msgs ++ [msg] /\
     erb (current st) = "TODO"%string /\
     forall (file : string) (rest : list string),
       wizard_step pose_add pose_str SDF_VERSION fuel
         (ExportSdf true (file :: rest) true) st
       = Ok (add_call (SaveFile file msg) st) /\
       wizard_step pose_add pose_str SDF_VERSION fuel
         (ExportErb true (file :: rest) true) st
       = Ok (add_call (SaveFile file EmptyString) st)).
Proof.
intros pose_add pose_str SDF_VERSION fuel tr st Hrun.
destruct (wizard_run_inv pose_add pose_str SDF_VERSION _ fuel
            (wizard_exports_step pose_add pose_str SDF_VERSION fuel)
            tr wizard_new st) as (He & Hs & Hp & Hsave); [| exact Hrun |].
- cbn. split; [reflexivity |]. split; [reflexivity |].
  split; [discriminate | intros p c []].
- split; [exact Hsave |]. intros Hpage.
  destruct (Hp Hpage) as (Hne & Herb).
  destruct (exists_last Hne) as (msgs & msg & E).
  exists msgs, msg. split; [exact E |]. split; [exact Herb |].
  intros file rest. unfold wizard_step. rewrite Hpage.
  unfold on_export_sdf, on_export_erb, export. cbn [negb].
  rewrite Hs, He, E, last_last. split; reflexivity.
Qed.

Lemma exports_after_spawn_witness :
exists st,
  wizard_run Scenario.pose_add Scenario.pose_str "1.6" 4
    [Next0; Next1 Scenario.scene_one; NewActor;
     Next0; NewWaypoint; Next1 Scenario.scene_gap] Scenario.wizard = Ok st /\
  page st = 2%nat /\
  forall file : string,
    wizard_step Scenario.pose_add Scenario.pose_str "1.6" 4
      (ExportErb true [file] true) st
    = Ok (add_call (SaveFile file EmptyString) st).
Proof.
destruct two_actors_run as (st & Hrun & Hpage & _).
exists st. split; [exact Hrun |]. split; [exact Hpage |].
destruct (exports_after_spawn Scenario.pose_add Scenario.pose_str "1.6" 4
            _ st Hrun) as (_ & Hexp).
destruct (Hexp Hpage) as (msgs & msg & _ & _ & Hfiles).
intros file. exact (proj2 (Hfiles file [])).
Defined.

End CreateActorExtraClaims.
